(** * stract: the fetch, aggregate and render pipeline of [api/views.py]

    A shallow embedding of the report pipeline (paginated fetches, the two
    aggregators, the Cost-per-Click pass and the CSV writer) together with
    the fragment of the Python runtime these functions rest on.

    Conventions of the embedding.
    - A Python [str] is a [string] holding its UTF-8 bytes.
    - A Python [int] is a [Z]; a Python [float] is a primitive binary64
      [float]; [bool] is a separate kind, numeric where Python says so.
    - JSON documents decode to [value]; a JSON object (and every insight
      row) is an insertion-ordered association list with [str] keys.
    - The field codes of the upstream, the columns of [get_all_insights]
      and the field names of the CSV writer are values; the field list of
      an aggregator is a list of strings.
    - An exception is a [Raise]; a [while True] loop runs on fuel and the
      network is an explicit state.
    - Dictionary lookup in Python tests identity before [==].  Identity is
      invisible on values except for NaN, which the model takes to be one
      object when it is used as a key.
    - CPython 3.11 or later: the text of an [int] of more than 4300
      digits is a ValueError. *)

From Stdlib Require Import ZArith List String Ascii Bool Lia Permutation.
From Stdlib Require Import Floats DecimalString.
Import ListNotations.

Set Implicit Arguments.
Set Warnings "-register-all".

(** ** Exceptions and results *)

Inductive exn : Set :=
| TypeError
| AttributeError
| KeyError
| ValueError
| OverflowError
| ZeroDivisionError
| RequestException.

Inductive result (A : Type) : Type :=
| Ok (a : A)
| Raise (e : exn).

Arguments Ok {A} a.
Arguments Raise {A} e.

Definition bind {A B : Type} (r : result A) (k : A -> result B) : result B :=
  match r with
  | Ok a => k a
  | Raise e => Raise e
  end.

Declare Scope py_scope.
Delimit Scope py_scope with py.
Notation "x <- r ;; k" := (bind r (fun x => k))
  (at level 61, r at next level, right associativity) : py_scope.
Notation "' p <- r ;; k" := (bind r (fun p => k))
  (at level 61, p pattern, r at next level, right associativity) : py_scope.

(** ** Values *)

Inductive value : Type :=
| VNone
| VBool (b : bool)
| VInt (n : Z)
| VFloat (x : float)
| VStr (s : string)
| VList (l : list value)
| VDict (d : list (string * value)).

(** A dict with [str] keys, in insertion order. *)
Definition dict : Type := list (string * value).

(** An insight row. *)
Definition row : Type := dict.

Fixpoint dict_find (d : dict) (k : string) : option value :=
  match d with
  | [] => None
  | (k', v) :: d' => if String.eqb k' k then Some v else dict_find d' k
  end.

(** [d.get(k, default)] *)
Definition dict_get (d : dict) (k : string) (default : value) : value :=
  match dict_find d k with
  | Some v => v
  | None => default
  end.

(** [k in d] *)
Definition dict_mem (d : dict) (k : string) : bool :=
  match dict_find d k with
  | Some _ => true
  | None => false
  end.

(** [d[k] = v]: an existing key keeps its place, a new one goes last. *)
Fixpoint dict_set (d : dict) (k : string) (v : value) : dict :=
  match d with
  | [] => [(k, v)]
  | (k', v') :: d' =>
      if String.eqb k' k then (k', v) :: d' else (k', v') :: dict_set d' k v
  end.

(** [d[k]] *)
Definition dict_item (d : dict) (k : string) : result value :=
  match dict_find d k with
  | Some v => Ok v
  | None => Raise KeyError
  end.

Definition dict_keys (d : dict) : list string := map fst d.

(** ** Numbers *)

Module Num.

Open Scope Z_scope.

(** [float(n)] for an [int]: the nearest binary64, ties to even;
    OverflowError when that is not finite. *)
Definition float_of_Z (n : Z) : result float :=
  match binary_normalize prec emax n 0 false with
  | S754_infinity _ => Raise OverflowError
  | sf => Ok (SF2Prim sf)
  end.

Definition Z_of_bool (b : bool) : Z := if b then 1 else 0.

(** The exact value of a number: [Dy m e] is [m * 2^e] with [m] odd, or
    zero as [Dy 0 0]. *)
Inductive exact : Set :=
| Dy (m e : Z)
| Inf (neg : bool)
| NaN.

Fixpoint strip_twos (fuel : nat) (m e : Z) : Z * Z :=
  match fuel with
  | O => (m, e)
  | S fuel' => if Z.even m then strip_twos fuel' (m / 2) (e + 1) else (m, e)
  end.

Definition dyadic (m e : Z) : exact :=
  if m =? 0 then Dy 0 0
  else let '(m', e') := strip_twos (Z.to_nat (Z.log2 (Z.abs m))) m e in Dy m' e'.

Definition exact_of_float (x : float) : exact :=
  match Prim2SF x with
  | S754_zero _ => Dy 0 0
  | S754_infinity s => Inf s
  | S754_nan => NaN
  | S754_finite s m e => dyadic (if s then Z.neg m else Z.pos m) e
  end.

Definition exact_of_Z (n : Z) : exact := dyadic n 0.

Definition exact_eqb (a b : exact) : bool :=
  match a, b with
  | Dy m e, Dy m' e' => (m =? m') && (e =? e')
  | Inf s, Inf s' => Bool.eqb s s'
  | NaN, NaN => true
  | _, _ => false
  end.

(** Comparison of two exact values, none of them NaN. *)
Definition exact_cmp (a b : exact) : comparison :=
  match a, b with
  | Dy m e, Dy m' e' =>
      let c := Z.min e e' in
      (m * 2 ^ (e - c)) ?= (m' * 2 ^ (e' - c))
  | Inf true, Inf true => Eq
  | Inf false, Inf false => Eq
  | Inf true, _ => Lt
  | _, Inf false => Lt
  | Inf false, _ => Gt
  | _, Inf true => Gt
  | _, _ => Eq
  end.

End Num.

(** ** [repr] of a float: the shortest digits that read back as the float *)

Module FloatRepr.

Open Scope Z_scope.

Definition string_of_Z (z : Z) : string := NilZero.string_of_int (Z.to_int z).

(** [num / den < 10^k] *)
Definition below_pow10 (num den k : Z) : bool :=
  if 0 <=? k then num <? 10 ^ k * den else num * 10 ^ (- k) <? den.

Fixpoint find_decpt (fuel : nat) (num den k : Z) : Z :=
  match fuel with
  | O => k
  | S fuel' =>
      if below_pow10 num den k then k else find_decpt fuel' num den (k + 1)
  end.

Fixpoint strip_zeros (fuel : nat) (d s : Z) : Z * Z :=
  match fuel with
  | O => (d, s)
  | S fuel' =>
      if (d mod 10 =? 0) && negb (d =? 0)
      then strip_zeros fuel' (d / 10) (s + 1) else (d, s)
  end.

Section Shortest.

(** The float is [m * 2^e], [m] a 53-bit significand. *)
Variables (m e : Z).

(** Its lower neighbour is half as far as the upper one at a power of
    two. *)
Definition at_binade : bool := (m =? 2 ^ 52) && (-1074 <? e).

(** The float and the two midpoints to its neighbours, in units of
    [2^(e-2)]. *)
Definition mid : Z := 4 * m.
Definition lo : Z := if at_binade then mid - 1 else mid - 2.
Definition hi : Z := mid + 2.

Definition E : Z := e - 2.
Definition num : Z := if 0 <=? E then mid * 2 ^ E else mid.
Definition den : Z := if 0 <=? E then 1 else 2 ^ (- E).

(** [10^(decpt-1) <= m * 2^e < 10^decpt]; the search starts from an
    estimate by the binary logarithm, which is at most one too low. *)
Definition decpt : Z :=
  find_decpt 8 num den ((Z.log2 m + e) * 30103 / 100000 - 1).

(** With [n] digits the candidates are [d * 10^s], [s = decpt - n]; a
    quantity [v * 2^E] is [v * a / b] in units of [10^s]. *)
Definition a (s : Z) : Z := 2 ^ (Z.max E 0) * 10 ^ (Z.max (- s) 0).
Definition b (s : Z) : Z := 2 ^ (Z.max (- E) 0) * 10 ^ (Z.max s 0).

(** [d * 10^s] reads back as the float: it lies between the midpoints,
    which belong to the float when its significand is even. *)
Definition reads_back (s d : Z) : bool :=
  if Z.even m
  then (lo * a s <=? d * b s) && (d * b s <=? hi * a s)
  else (lo * a s <? d * b s) && (d * b s <? hi * a s).

Definition dist (s d : Z) : Z := Z.abs (d * b s - mid * a s).

Definition candidate (n : Z) : option (Z * Z) :=
  let s := decpt - n in
  let d0 := (mid * a s) / b s in
  let d1 := d0 + 1 in
  match reads_back s d0, reads_back s d1 with
  | true, true =>
      if dist s d0 <? dist s d1 then Some (d0, s)
      else if dist s d1 <? dist s d0 then Some (d1, s)
      else if Z.even d0 then Some (d0, s) else Some (d1, s)
  | true, false => Some (d0, s)
  | false, true => Some (d1, s)
  | false, false => None
  end.

Fixpoint search (fuel : nat) (n : Z) : Z * Z :=
  match fuel with
  | O => (mid * a (decpt - 17) / b (decpt - 17), decpt - 17)
  | S fuel' =>
      match candidate n with
      | Some r => r
      | None => search fuel' (n + 1)
      end
  end.

(** The digits, as a number without trailing zeros, and the position of
    the decimal point after them. *)
Definition shortest : string * Z :=
  let '(d, s) := search 17 1 in
  let '(d', s') := strip_zeros 20 d s in
  let ds := string_of_Z d' in
  (ds, s' + Z.of_nat (String.length ds)).

End Shortest.

Fixpoint zeros (n : nat) : string :=
  match n with
  | O => EmptyString
  | S n' => String "0" (zeros n')
  end.

Definition exponent (x : Z) : string :=
  let sign := if x <? 0 then "e-"%string else "e+"%string in
  let pad := if Z.abs x <? 10 then "0"%string else EmptyString in
  String.append sign (String.append pad (string_of_Z (Z.abs x))).

(** The layout of [repr]: an exponent when the point would sit more than
    16 digits to the right or more than 4 to the left. *)
Definition layout (ds : string) (pt : Z) : string :=
  let nd := Z.of_nat (String.length ds) in
  let frac := if 1 <? nd
              then String "." (substring 1 (String.length ds - 1) ds)
              else EmptyString in
  if (pt <=? -4) || (16 <? pt) then
    (substring 0 1 ds ++ frac ++ exponent (pt - 1))%string
  else if pt <=? 0 then
    ("0." ++ zeros (Z.to_nat (- pt)) ++ ds)%string
  else if nd <=? pt then
    (ds ++ zeros (Z.to_nat (pt - nd)) ++ ".0")%string
  else
    (substring 0 (Z.to_nat pt) ds ++ "."
       ++ substring (Z.to_nat pt) (String.length ds - Z.to_nat pt) ds)%string.

Definition repr (x : float) : string :=
  match Prim2SF x with
  | S754_nan => "nan"
  | S754_infinity s => if s then "-inf" else "inf"
  | S754_zero s => if s then "-0.0" else "0.0"
  | S754_finite s m e =>
      let '(ds, pt) := shortest (Z.pos m) e in
      ((if s then "-" else "") ++ layout ds pt)%string
  end.

End FloatRepr.

(** ** The operations of the runtime on values *)

Module Py.

(** [bool(v)] *)
Definition truthy (v : value) : bool :=
  match v with
  | VNone => false
  | VBool b => b
  | VInt n => negb (n =? 0)%Z
  | VFloat x => negb (x =? 0)%float
  | VStr s => negb (String.eqb s EmptyString)
  | VList l => match l with [] => false | _ => true end
  | VDict d => match d with [] => false | _ => true end
  end.

(** [a or b] *)
Definition or_else (a b : value) : value := if truthy a then a else b.

(** [isinstance(v, (int, float))]; [bool] is a subclass of [int]. *)
Definition is_number (v : value) : bool :=
  match v with
  | VBool _ | VInt _ | VFloat _ => true
  | _ => false
  end.

Definition exact_of (v : value) : option Num.exact :=
  match v with
  | VBool b => Some (Num.exact_of_Z (Num.Z_of_bool b))
  | VInt n => Some (Num.exact_of_Z n)
  | VFloat x => Some (Num.exact_of_float x)
  | _ => None
  end.

(** The operand of a float operation. *)
Definition as_float (v : value) : option (result float) :=
  match v with
  | VBool b => Some (Num.float_of_Z (Num.Z_of_bool b))
  | VInt n => Some (Num.float_of_Z n)
  | VFloat x => Some (Ok x)
  | _ => None
  end.

Definition as_int (v : value) : option Z :=
  match v with
  | VBool b => Some (Num.Z_of_bool b)
  | VInt n => Some n
  | _ => None
  end.

(** [a + b] *)
Definition add (a b : value) : result value :=
  match as_int a, as_int b with
  | Some m, Some n => Ok (VInt (m + n))
  | _, _ =>
      match as_float a, as_float b with
      | Some ra, Some rb =>
          (x <- ra ;; y <- rb ;; Ok (VFloat (x + y)))%py
      | _, _ =>
          match a, b with
          | VStr s, VStr t => Ok (VStr (s ++ t))
          | VList l, VList l' => Ok (VList (l ++ l'))
          | _, _ => Raise TypeError
          end
      end
  end.

(** [a == b] *)
Fixpoint eq (a b : value) {struct a} : bool :=
  match a, b with
  | VNone, VNone => true
  | VStr s, VStr t => String.eqb s t
  | VList l, VList l' =>
      (fix all2 (l l' : list value) {struct l} : bool :=
         match l, l' with
         | [], [] => true
         | x :: xs, y :: ys => eq x y && all2 xs ys
         | _, _ => false
         end) l l'
  | VDict d, VDict d' =>
      Nat.eqb (List.length d) (List.length d')
      && (fix sub (d : list (string * value)) {struct d} : bool :=
            match d with
            | [] => true
            | (k, v) :: r =>
                match dict_find d' k with
                | Some v' => eq v v'
                | None => false
                end && sub r
            end) d
  | _, _ =>
      match exact_of a, exact_of b with
      | Some Num.NaN, _ | _, Some Num.NaN => false
      | Some x, Some y => Num.exact_eqb x y
      | _, _ => false
      end
  end.

(** [a >= b] *)
Fixpoint ge (a b : value) {struct a} : result bool :=
  match a, b with
  | VStr s, VStr t =>
      Ok (match String.compare s t with Lt => false | _ => true end)
  | VList l, VList l' =>
      (fix lex (l l' : list value) {struct l} : result bool :=
         match l, l' with
         | _, [] => Ok true
         | [], _ :: _ => Ok false
         | x :: xs, y :: ys => if eq x y then lex xs ys else ge x y
         end) l l'
  | _, _ =>
      match exact_of a, exact_of b with
      | Some Num.NaN, Some _ | Some _, Some Num.NaN => Ok false
      | Some x, Some y =>
          Ok (match Num.exact_cmp x y with Lt => false | _ => true end)
      | _, _ => Raise TypeError
      end
  end.

(** The key under which a value is stored in a dict or a set: equal keys
    are one entry.  Lists and dicts are not hashable. *)
Inductive hkey : Set :=
| HNone
| HStr (s : string)
| HNum (x : Num.exact).

Definition key_of (v : value) : result hkey :=
  match v with
  | VNone => Ok HNone
  | VStr s => Ok (HStr s)
  | VList _ | VDict _ => Raise TypeError
  | _ => match exact_of v with
         | Some x => Ok (HNum x)
         | None => Raise TypeError
         end
  end.

Definition hkey_eqb (a b : hkey) : bool :=
  match a, b with
  | HNone, HNone => true
  | HStr s, HStr t => String.eqb s t
  | HNum x, HNum y => Num.exact_eqb x y
  | _, _ => false
  end.

(** The code points of a [str], each with its UTF-8 bytes. *)
Definition continuation (c : ascii) : bool :=
  let n := N_of_ascii c in ((128 <=? n) && (n <? 192))%N.

Fixpoint chars (s : string) : list string :=
  match s with
  | EmptyString => []
  | String c rest =>
      let cs := chars rest in
      match rest with
      | String c' _ =>
          if continuation c' then
            match cs with
            | first :: others => String c first :: others
            | [] => [String c EmptyString]
            end
          else String c EmptyString :: cs
      | EmptyString => [String c EmptyString]
      end
  end.

(** [list(v)], as [extend] and [for] consume an iterable. *)
Definition iterate (v : value) : result (list value) :=
  match v with
  | VList l => Ok l
  | VStr s => Ok (map VStr (chars s))
  | VDict d => Ok (map (fun kv => VStr (fst kv)) d)
  | _ => Raise TypeError
  end.

(** [v.get(k, default)]: only a dict has [get]. *)
Definition get (v : value) (k : string) (default : value) : result value :=
  match v with
  | VDict d => Ok (dict_get d k default)
  | _ => Raise AttributeError
  end.

(** [v[k]] for a [str] key. *)
Definition item (v : value) (k : string) : result value :=
  match v with
  | VDict d => dict_item d k
  | _ => Raise TypeError
  end.

(** [d.get(key, default)] for a key of any kind: the keys of [d] are
    [str], and a list or a dict cannot be hashed. *)
Definition lookup (d : dict) (key : value) (default : value) : result value :=
  (k <- key_of key ;;
   match k with
   | HStr s => Ok (dict_get d s default)
   | _ => Ok default
   end)%py.

(** [sep.join(l)] *)
Fixpoint join (sep : string) (l : list string) : string :=
  match l with
  | [] => EmptyString
  | [s] => s
  | s :: rest => (s ++ sep ++ join sep rest)%string
  end.

Fixpoint strs (l : list value) : result (list string) :=
  match l with
  | [] => Ok []
  | VStr s :: rest => (ss <- strs rest ;; Ok (s :: ss))%py
  | _ :: _ => Raise TypeError
  end.

(** The strings of a list, in their order. *)
Definition strings (l : list value) : list string :=
  flat_map (fun v => match v with VStr s => [s] | _ => [] end) l.

(** The digits of an [int] as text: more than [max_str_digits] of them
    are a ValueError. *)
Definition max_str_digits : Z := 4300.

Definition int_str (n : Z) : result string :=
  if (max_str_digits
      <? Z.of_nat (String.length (FloatRepr.string_of_Z (Z.abs n))))%Z
  then Raise ValueError
  else Ok (FloatRepr.string_of_Z n).

Section Text.

(** [repr] of a [str] follows the Unicode character database, and
    [float] of a [str] the grammar of float literals: both are taken
    as given.  [None] stands for ValueError. *)
Variable repr_of_str : string -> string.
Variable float_of_str : string -> option float.

(** [repr(v)] *)
Fixpoint repr (v : value) : result string :=
  match v with
  | VNone => Ok "None"%string
  | VBool b => Ok (if b then "True" else "False")%string
  | VInt n => int_str n
  | VFloat x => Ok (FloatRepr.repr x)
  | VStr s => Ok (repr_of_str s)
  | VList l =>
      (parts <-
         (fix each (l : list value) : result (list string) :=
            match l with
            | [] => Ok []
            | x :: xs => s <- repr x ;; ss <- each xs ;; Ok (s :: ss)
            end) l ;;
       Ok (String.append "[" (String.append (join ", " parts) "]")))%py
  | VDict d =>
      (parts <-
         (fix each (d : list (string * value)) : result (list string) :=
            match d with
            | [] => Ok []
            | (k, x) :: r =>
                s <- repr x ;;
                ss <- each r ;;
                Ok (String.append (repr_of_str k) (String.append ": " s)
                      :: ss)
            end) d ;;
       Ok (String.append "{" (String.append (join ", " parts) "}")))%py
  end.

(** [str(v)] *)
Definition str_of (v : value) : result string :=
  match v with
  | VStr s => Ok s
  | _ => repr v
  end.

(** [float(v)] *)
Definition float_of (v : value) : result PrimFloat.float :=
  match v with
  | VStr s => match float_of_str s with
              | Some x => Ok x
              | None => Raise ValueError
              end
  | _ => match as_float v with
         | Some r => r
         | None => Raise TypeError
         end
  end.

(** [a / b] on floats *)
Definition truediv (x y : PrimFloat.float) : result PrimFloat.float :=
  if (y =? 0)%float then Raise ZeroDivisionError else Ok (x / y)%float.

End Text.

End Py.

(** [for x in l: a = f(a, x)], stopping at the first exception. *)
Fixpoint foldM {A B : Type} (f : A -> B -> result A) (l : list B) (a : A)
  : result A :=
  match l with
  | [] => Ok a
  | x :: l' => bind (f a x) (foldM f l')
  end.

Fixpoint mapM {A B : Type} (f : A -> result B) (l : list A) : result (list B) :=
  match l with
  | [] => Ok []
  | x :: l' => (y <- f x ;; ys <- mapM f l' ;; Ok (y :: ys))%py
  end.

(** ** [config.py] *)

Module Config.
Definition BASE_API_URL : string := "https://sidebar.stract.to/api".
Definition TOKEN : string := "ProcessoSeletivoStract2025".
End Config.

(** ** The HTTP exchange *)

Module Http.

Record request : Type := Request {
  url : string;
  params : value;
  headers : list (string * string)
}.

(** [json] is [None] when [response.json()] raises. *)
Record response : Type := Response {
  status_code : Z;
  json : option value
}.

End Http.

(** ** [api/views.py]: the fetchers *)

Module Fetch.

Import Http.

Section Upstream.

(** The upstream service: [requests.get] answers a request from the
    state of the world and moves it on, or raises. *)
Variable world : Type.
Variable requests_get : request -> world -> result response * world.

(** The state of a run: the world and the requests sent so far. *)
Record net : Type := Net {
  upstream : world;
  sent : list request
}.

(** A computation on the network; [None] when a loop is out of fuel. *)
Definition M (A : Type) : Type := net -> option (result A * net).

Definition ret {A : Type} (a : A) : M A := fun n => Some (Ok a, n).

Definition lift {A : Type} (r : result A) : M A := fun n => Some (r, n).

Definition bindM {A B : Type} (m : M A) (k : A -> M B) : M B :=
  fun n =>
    match m n with
    | None => None
    | Some (Raise e, n') => Some (Raise e, n')
    | Some (Ok a, n') => k a n'
    end.

Notation "x <- m ;; k" := (bindM m (fun x => k))
  (at level 61, m at next level, right associativity).
Notation "' p <- m ;; k" := (bindM m (fun p => k))
  (at level 61, p pattern, m at next level, right associativity).

(** [for x in l: a = f(a, x)] on the network *)
Fixpoint for_each {A B : Type} (f : A -> B -> M A) (l : list B) (a : A)
  : M A :=
  match l with
  | [] => ret a
  | x :: l' => a' <- f a x ;; for_each f l' a'
  end.

Definition fetch_api (endpoint : string) (params : value)
           (use_bearer : bool) : M value :=
  fun n =>
    let base_url := Config.BASE_API_URL in
    let url := String.append base_url endpoint in
    let headers :=
      [("Accept", "application/json"); ("User-Agent", "Flask-App")]%string in
    let headers :=
      if use_bearer then
        let token := Config.TOKEN in
        if Py.truthy (VStr token)
        then headers
               ++ [("Authorization"%string, String.append "Bearer " token)]
        else headers
      else headers in
    let req := Request url params headers in
    let '(r, w) := requests_get req (upstream n) in
    let n' := Net w (sent n ++ [req]) in
    match r with
    | Raise e => Some (Raise e, n')
    | Ok response =>
        if (status_code response =? 200)%Z then
          match json response with
          | Some data => Some (Ok data, n')
          | None => Some (Ok VNone, n')
          end
        else Some (Ok VNone, n')
    end.

(** ["platforms" in data] *)
Definition contains (data : value) (k : string) : result bool :=
  match data with
  | VDict d => Ok (dict_mem d k)
  | VList l => Ok (existsb (fun x => Py.eq x (VStr k)) l)
  | VStr s => Ok (match index 0 k s with Some _ => true | None => false end)
  | _ => Raise TypeError
  end.

Definition get_platforms : M value :=
  data <- fetch_api "/platforms" VNone true ;;
  if Py.truthy data then
    has <- lift (contains data "platforms") ;;
    if has : bool then lift (Py.item data "platforms") else ret (VList [])
  else ret (VList []).

Fixpoint get_accounts_loop (fuel : nat) (platform : value)
         (accounts : list value) (page : Z) : M (list value) :=
  match fuel with
  | O => fun _ => None
  | S fuel' =>
      let params := VDict [("platform", platform); ("page", VInt page)]%string in
      data <- fetch_api "/accounts" params true ;;
      if negb (Py.truthy data) then ret accounts else
      new_accounts <- lift (Py.get data "accounts" (VList [])) ;;
      if negb (Py.truthy new_accounts) then ret accounts else
      items <- lift (Py.iterate new_accounts) ;;
      let accounts := accounts ++ items in
      pagination <- lift (Py.get data "pagination" (VDict [])) ;;
      current <- lift (Py.get pagination "current" (VInt 1)) ;;
      total <- lift (Py.get pagination "total" (VInt 1)) ;;
      stop <- lift (Py.ge current total) ;;
      if stop : bool then ret accounts
      else get_accounts_loop fuel' platform accounts (page + 1)
  end.

Definition get_accounts (fuel : nat) (platform : value) : M (list value) :=
  get_accounts_loop fuel platform [] 1.

Fixpoint get_fields_loop (fuel : nat) (platform : value)
         (fields : list value) (page : Z) : M (list value) :=
  match fuel with
  | O => fun _ => None
  | S fuel' =>
      let params := VDict [("platform", platform); ("page", VInt page)]%string in
      data <- fetch_api "/fields" params true ;;
      if negb (Py.truthy data) then ret fields else
      new_fields <- lift (Py.get data "fields" (VList [])) ;;
      if negb (Py.truthy new_fields) then ret fields else
      items <- lift (Py.iterate new_fields) ;;
      let fields := fields ++ items in
      pagination <- lift (Py.get data "pagination" (VDict [])) ;;
      current <- lift (Py.get pagination "current" (VInt 1)) ;;
      total <- lift (Py.get pagination "total" (VInt 1)) ;;
      stop <- lift (Py.ge current total) ;;
      if stop : bool then ret fields
      else get_fields_loop fuel' platform fields (page + 1)
  end.

Definition get_fields (fuel : nat) (platform : value) : M (list value) :=
  fields <- get_fields_loop fuel platform [] 1 ;;
  lift (mapM (fun field => Py.item field "value") fields).

Fixpoint get_insights_loop (fuel : nat) (platform account : value)
         (account_token : value) (fields_str : string)
         (insights : list value) (page : Z) : M (list value) :=
  match fuel with
  | O => fun _ => None
  | S fuel' =>
      let params :=
        VDict [("platform", platform); ("account", account);
               ("token", account_token); ("fields", VStr fields_str);
               ("page", VInt page)]%string in
      data <- fetch_api "/insights" params true ;;
      if negb (Py.truthy data) then ret insights else
      new_insights <- lift (Py.get data "insights" (VList [])) ;;
      if negb (Py.truthy new_insights) then ret insights else
      items <- lift (Py.iterate new_insights) ;;
      let insights := insights ++ items in
      pagination <- lift (Py.get data "pagination" (VDict [])) ;;
      current <- lift (Py.get pagination "current" (VInt 1)) ;;
      total <- lift (Py.get pagination "total" (VInt 1)) ;;
      stop <- lift (Py.ge current total) ;;
      if stop : bool then ret insights
      else get_insights_loop fuel' platform account account_token
             fields_str insights (page + 1)
  end.

Definition get_insights (fuel : nat) (platform account : value)
           (fields : list value) (account_token : value) : M (list value) :=
  fields_str <- lift (ss <- Py.strs fields ;; Ok (Py.join "," ss))%py ;;
  get_insights_loop fuel platform account account_token fields_str [] 1.

(** The paginator as the specification words it: call the endpoint with
    the page merged into the fixed parameters; stop on no data; stop when
    the named array is absent or empty; append the items; stop when
    [pagination.current >= pagination.total], each 1 when missing; or else
    go on with the next page. *)
Fixpoint paginate (fuel : nat) (endpoint : string) (fixed : dict)
         (array : string) (items : list value) (page : Z) : M (list value) :=
  match fuel with
  | O => fun _ => None
  | S fuel' =>
      data <- fetch_api endpoint (VDict (fixed ++ [("page"%string, VInt page)]))
                true ;;
      if negb (Py.truthy data) then ret items else
      extracted <- lift (Py.get data array (VList [])) ;;
      if negb (Py.truthy extracted) then ret items else
      new_items <- lift (Py.iterate extracted) ;;
      pagination <- lift (Py.get data "pagination" (VDict [])) ;;
      current <- lift (Py.get pagination "current" (VInt 1)) ;;
      total <- lift (Py.get pagination "total" (VInt 1)) ;;
      stop <- lift (Py.ge current total) ;;
      if stop : bool then ret (items ++ new_items)
      else paginate fuel' endpoint fixed array (items ++ new_items) (page + 1)
  end.

(** A response that carries no [pagination] key. *)
Definition lacks_pagination (data : value) : bool :=
  match data with
  | VDict d => negb (dict_mem d "pagination")
  | _ => true
  end.

(** [insight[k] = v] *)
Definition setitem (insight : value) (k : string) (v : value) : result row :=
  match insight with
  | VDict d => Ok (dict_set d k v)
  | _ => Raise TypeError
  end.

Definition get_insights_for_platform (fuel : nat) (platform : value)
  : M (list row * list value) :=
  accounts <- get_accounts fuel platform ;;
  fields <- get_fields fuel platform ;;
  all_insights <-
    for_each
      (fun all_insights account =>
         account_id <- lift (Py.get account "id" VNone) ;;
         account_token <- lift (Py.get account "token" VNone) ;;
         account_name <- lift (Py.get account "name" VNone) ;;
         insights <- get_insights fuel platform account_id fields
                       account_token ;;
         for_each
           (fun all_insights insight =>
              insight <- lift (setitem insight "Account" account_name) ;;
              let insight := dict_set insight "Platform" platform in
              ret (all_insights ++ [insight]))
           insights all_insights)
      accounts [] ;;
  ret (all_insights, fields).

End Upstream.

End Fetch.

(** ** [api/views.py]: the aggregators *)

Module Aggregate.

Import Py.

(** The dict [aggregated]: group key to aggregated row, in insertion
    order.  Keys that are equal in Python are one entry. *)
Definition groups : Type := list (hkey * row).

Fixpoint groups_find (g : groups) (k : hkey) : option row :=
  match g with
  | [] => None
  | (k', r) :: g' => if hkey_eqb k' k then Some r else groups_find g' k
  end.

(** [k in aggregated] *)
Definition groups_mem (g : groups) (k : hkey) : bool :=
  match groups_find g k with
  | Some _ => true
  | None => false
  end.

(** [aggregated[k]] *)
Definition groups_item (g : groups) (k : hkey) : result row :=
  match groups_find g k with
  | Some r => Ok r
  | None => Raise KeyError
  end.

(** [aggregated[k] = r] *)
Fixpoint groups_set (g : groups) (k : hkey) (r : row) : groups :=
  match g with
  | [] => [(k, r)]
  | (k', r') :: g' =>
      if hkey_eqb k' k then (k', r) :: g' else (k', r') :: groups_set g' k r
  end.

(** [list(aggregated.values())] *)
Definition groups_values (g : groups) : list row := map snd g.

(** [aggregated[k][field] += value]; the row is updated in place. *)
Definition add_to (aggregated : groups) (k : hkey) (field : string)
           (value : value) : result groups :=
  (agg_row <- groups_item aggregated k ;;
   old <- dict_item agg_row field ;;
   new <- add old value ;;
   Ok (groups_set aggregated k (dict_set agg_row field new)))%py.

Definition aggregate_by_account (insights : list row) (fields : list string)
  : result (list row) :=
  (aggregated <-
     foldM
       (fun aggregated row =>
          let account := dict_get row "Account" VNone in
          k <- key_of account ;;
          let aggregated :=
            if negb (groups_mem aggregated k) then
              let agg_row :=
                [("Platform", dict_get row "Platform" VNone);
                 ("Account", account)]%string in
              let agg_row :=
                fold_left
                  (fun agg_row field =>
                     let value := dict_get row field VNone in
                     dict_set agg_row field
                       (if is_number value then VInt 0 else VStr ""))
                  fields agg_row in
              groups_set aggregated k agg_row
            else aggregated in
          foldM
            (fun aggregated field =>
               let value := dict_get row field VNone in
               if is_number value then add_to aggregated k field value
               else Ok aggregated)
            fields aggregated)
       insights [] ;;
   Ok (groups_values aggregated))%py.

Definition aggregate_by_platform (insights : list row)
           (all_fields : list string) : result (list row) :=
  (aggregated <-
     foldM
       (fun aggregated row =>
          let platform := dict_get row "Platform" VNone in
          k <- key_of platform ;;
          let aggregated :=
            if negb (groups_mem aggregated k) then
              let agg_row := [("Platform", platform)]%string in
              let agg_row :=
                fold_left
                  (fun agg_row field =>
                     if String.eqb field "Platform" then agg_row else
                     let value := dict_get row field (VStr "") in
                     dict_set agg_row field
                       (if is_number value then VInt 0 else VStr ""))
                  all_fields agg_row in
              groups_set aggregated k agg_row
            else aggregated in
          foldM
            (fun aggregated field =>
               if String.eqb field "Platform" then Ok aggregated else
               let value := dict_get row field (VStr "") in
               if is_number value then add_to aggregated k field value
               else Ok aggregated)
            all_fields aggregated)
       insights [] ;;
   Ok (groups_values aggregated))%py.

End Aggregate.

(** ** [api/views.py]: the CSV writer *)

Module Csv.

Definition comma : ascii := ","%char.
Definition quotechar : ascii := "034"%char.
Definition CR : ascii := "013"%char.
Definition LF : ascii := "010"%char.
Definition lineterminator : string := String CR (String LF EmptyString).

Fixpoint any_char (p : ascii -> bool) (s : string) : bool :=
  match s with
  | EmptyString => false
  | String c s' => p c || any_char p s'
  end.

(** A field is quoted when it holds the delimiter, the quote character
    or a character of the line terminator. *)
Definition special (c : ascii) : bool :=
  Ascii.eqb c comma || Ascii.eqb c quotechar || Ascii.eqb c CR
  || Ascii.eqb c LF.

Fixpoint double_quotes (s : string) : string :=
  match s with
  | EmptyString => EmptyString
  | String c s' =>
      if Ascii.eqb c quotechar
      then String c (String c (double_quotes s'))
      else String c (double_quotes s')
  end.

Definition field (s : string) : string :=
  if any_char special s
  then String quotechar (double_quotes s ++ String quotechar EmptyString)
  else s.

Section Writer.

Variable repr_of_str : string -> string.

(** The text of a cell: [None] is empty, a [str] is itself, anything
    else goes through [str()]. *)
Definition text (v : value) : result string :=
  match v with
  | VNone => Ok EmptyString
  | VStr s => Ok s
  | _ => Py.str_of repr_of_str v
  end.

(** The record of the texts of its cells: a record that would be empty,
    one empty field, is written as a pair of quotes. *)
Definition record (texts : list string) : string :=
  let rec := Py.join "," (map field texts) in
  let rec :=
    match texts with
    | [] => rec
    | _ :: _ =>
        if String.eqb rec EmptyString
        then String quotechar (String quotechar EmptyString)
        else rec
    end in
  (rec ++ lineterminator)%string.

(** [writer.writerow] *)
Definition writerow (cells : list value) : result string :=
  (texts <- mapM text cells ;; Ok (record texts))%py.

(** A dict with keys of any hashable kind, in insertion order. *)
Definition hdict : Type := list (Py.hkey * value).

Fixpoint hdict_find (h : hdict) (k : Py.hkey) : option value :=
  match h with
  | [] => None
  | (k', v) :: h' => if Py.hkey_eqb k' k then Some v else hdict_find h' k
  end.

Fixpoint hdict_set (h : hdict) (k : Py.hkey) (v : value) : hdict :=
  match h with
  | [] => [(k, v)]
  | (k', v') :: h' =>
      if Py.hkey_eqb k' k then (k', v) :: h' else (k', v') :: hdict_set h' k v
  end.

(** [DictWriter.writeheader]: the row [dict(zip(fieldnames, fieldnames))]
    is written under the field names; the writer takes a cell and
    writes its text before it takes the next. *)
Definition writeheader (fieldnames : list value) : result string :=
  (header <-
     foldM
       (fun header name => k <- Py.key_of name ;; Ok (hdict_set header k name))
       fieldnames [] ;;
   texts <-
     mapM
       (fun key =>
          k <- Py.key_of key ;;
          text (match hdict_find header k with
                | Some v => v
                | None => VStr ""
                end))
       fieldnames ;;
   Ok (record texts))%py.

(** [DictWriter.writerow] with [extrasaction='ignore'] *)
Definition dict_writerow (fieldnames : list value) (rowdict : row)
  : result string :=
  (texts <-
     mapM (fun key => v <- Py.lookup rowdict key (VStr "") ;; text v)
       fieldnames ;;
   Ok (record texts))%py.

Definition generate_csv (rows : list row) (fieldnames : list value)
  : result string :=
  (output <- writeheader fieldnames ;;
   foldM
     (fun output row =>
        line <- dict_writerow fieldnames row ;;
        Ok (output ++ line)%string)
     rows output)%py.

End Writer.

End Csv.

(** ** [api/views.py]: [get_all_insights] *)

Module Insights.

Import Http Fetch.

Definition CPC : string := "Cost per Click".

Section CostPerClick.

Variable float_of_str : string -> option float.

Definition is_ga4 (row : row) : bool :=
  Py.eq (dict_get row "Platform" VNone) (VStr "ga4").

(** [row.get(lower) or row.get(upper) or 0] *)
Definition operand (row : row) (lower upper : string) : value :=
  Py.or_else (Py.or_else (dict_get row lower VNone) (dict_get row upper VNone))
             (VInt 0).

(** The value stored under "Cost per Click" for a ga4 row. *)
Definition cost_per_click (row : row) : value :=
  let spend := operand row "spend" "Spend" in
  let clicks := operand row "clicks" "Clicks" in
  match
    (if Py.truthy clicks then
       (x <- Py.float_of float_of_str spend ;;
        y <- Py.float_of float_of_str clicks ;;
        q <- Py.truediv x y ;;
        Ok (VFloat q))%py
     else Ok (VInt 0))
  with
  | Ok v => v
  | Raise _ => VInt 0
  end.

(** The loop over [insights_all] that closes [get_all_insights]; the
    rows are updated in place and the field list grows at most once. *)
Fixpoint derive (insights_all : list row) (all_fields : list value)
  : list row * list value :=
  match insights_all with
  | [] => ([], all_fields)
  | row :: rest =>
      if is_ga4 row then
        let row := dict_set row CPC (cost_per_click row) in
        let all_fields :=
          if negb (existsb (fun name => Py.eq name (VStr CPC)) all_fields)
          then all_fields ++ [VStr CPC] else all_fields in
        let '(rest', all_fields') := derive rest all_fields in
        (row :: rest', all_fields')
      else
        let '(rest', all_fields') := derive rest all_fields in
        (row :: rest', all_fields')
  end.

End CostPerClick.

Section Pipeline.

Variable world : Type.
Variable requests_get : request -> world -> result response * world.
Variable float_of_str : string -> option float.
Variable repr_of_str : string -> string.

(** [list(s)] for the set [s] built by adding the given values in
    order: one value for each key, in the order of the hash table. *)
Variable set_iter : list value -> list value.

Local Abbreviation M := (Fetch.M world).
Notation "x <- m ;; k" := (bindM m (fun x => k))
  (at level 61, m at next level, right associativity).
Notation "' p <- m ;; k" := (bindM m (fun p => k))
  (at level 61, p pattern, m at next level, right associativity).

(** [all_fields.update(fields)] hashes every code it adds. *)
Definition get_all_insights (fuel : nat) : M (list row * list value) :=
  platforms <- get_platforms requests_get ;;
  platforms <- lift (Py.iterate platforms) ;;
  '(insights_all, added) <-
    for_each
      (fun '(insights_all, added) platform_obj =>
         platform_value <- lift (Py.get platform_obj "value" VNone) ;;
         '(ins, fields) <-
           get_insights_for_platform requests_get fuel platform_value ;;
         _ <- lift (mapM Py.key_of fields) ;;
         ret (insights_all ++ ins, added ++ fields))
      platforms ([], []) ;;
  let all_fields := set_iter added in
  let all_fields := [VStr "Platform"; VStr "Account"] ++ all_fields in
  ret (derive float_of_str insights_all all_fields).

(** ** [api/routes.py]

    The aggregators take their field list as a list of strings.  A field
    that is no string is the key of no row: the loops of an aggregator
    find nothing under it and store the empty string for it, which is
    also what the writer reads where a row lacks the key.  So the routes
    hand the strings of their field list to the aggregator and the whole
    list to the writer.  In the platform routes every field is a string
    once there is a row, since [get_insights] has joined them. *)

Inductive reply : Type :=
| Csv (body : string)
| NotFound (message : string).

Definition platform_report (fuel : nat) (platform : string) : M reply :=
  '(insights, fields) <-
    get_insights_for_platform requests_get fuel (VStr platform) ;;
  match insights with
  | [] =>
      ret (NotFound
             (String.append "Plataforma "
                (String.append platform " não encontrada ou sem dados.")))
  | _ =>
      let fieldnames := [VStr "Platform"; VStr "Account"] ++ fields in
      csv_data <- lift (Csv.generate_csv repr_of_str insights fieldnames) ;;
      ret (Csv csv_data)
  end.

Definition platform_summary (fuel : nat) (platform : string) : M reply :=
  '(insights, fields) <-
    get_insights_for_platform requests_get fuel (VStr platform) ;;
  match insights with
  | [] =>
      ret (NotFound
             (String.append "Plataforma "
                (String.append platform " não encontrada ou sem dados.")))
  | _ =>
      aggregated <-
        lift (Aggregate.aggregate_by_account insights (Py.strings fields)) ;;
      let fieldnames := [VStr "Platform"; VStr "Account"] ++ fields in
      csv_data <- lift (Csv.generate_csv repr_of_str aggregated fieldnames) ;;
      ret (Csv csv_data)
  end.

Definition geral_report (fuel : nat) : M reply :=
  '(insights, all_fields) <- get_all_insights fuel ;;
  match insights with
  | [] => ret (NotFound "Nenhum dado encontrado.")
  | _ =>
      csv_data <- lift (Csv.generate_csv repr_of_str insights all_fields) ;;
      ret (Csv csv_data)
  end.

Definition geral_summary (fuel : nat) : M reply :=
  '(insights, all_fields) <- get_all_insights fuel ;;
  match insights with
  | [] => ret (NotFound "Nenhum dado encontrado.")
  | _ =>
      aggregated <-
        lift (Aggregate.aggregate_by_platform insights
                (Py.strings all_fields)) ;;
      csv_data <- lift (Csv.generate_csv repr_of_str aggregated all_fields) ;;
      ret (Csv csv_data)
  end.

End Pipeline.

End Insights.

(** ** Groups, first encounters and sums: the vocabulary of the properties *)

Module Grouping.

Import Py Aggregate.

(** The number a row holds under a field, if it holds one. *)
Definition number_at (r : row) (field : string) : option value :=
  match dict_find r field with
  | Some v => if is_number v then Some v else None
  | None => None
  end.

(** The keys of a list in the order of their first occurrence. *)
Fixpoint first_seen (ks : list hkey) : list hkey :=
  match ks with
  | [] => []
  | k :: ks' => k :: filter (fun k' => negb (hkey_eqb k k')) (first_seen ks')
  end.

(** Python's [sum]: additions from the left, starting at the int 0. *)
Definition py_sum (vs : list value) : result value := foldM add vs (VInt 0).

(** What the rows add to a field that occurs [c] times in the field list:
    every number they hold under it, [c] times over, row by row. *)
Definition contributions (field : string) (c : nat) (rows : list row)
  : list value :=
  flat_map
    (fun r => match number_at r field with
              | Some v => repeat v c
              | None => []
              end)
    rows.

(** A boolean counted as the integer it is. *)
Definition as_01 (v : value) : value :=
  match v with
  | VBool b => VInt (Num.Z_of_bool b)
  | _ => v
  end.

Section Shape.

(** The two aggregators are one loop: they differ in the field of the
    group key, in the row a group starts from, in the default of
    [row.get] and in the fields they go through. *)
Variable key_field : string.
Variable start : row -> value -> row.
Variable default : value.
Variable fields : list string.

Definition key_of_row (r : row) : result hkey :=
  key_of (dict_get r key_field VNone).

Definition keys (insights : list row) : list hkey :=
  flat_map
    (fun r => match key_of_row r with Ok k => [k] | Raise _ => [] end)
    insights.

(** The rows of a group. *)
Definition group (k : hkey) (insights : list row) : list row :=
  filter
    (fun r => match key_of_row r with
              | Ok k' => hkey_eqb k' k
              | Raise _ => false
              end)
    insights.

(** The row a group is seeded with. *)
Definition seed (r : row) : row :=
  fold_left
    (fun agg_row field =>
       dict_set agg_row field
         (if is_number (dict_get r field default) then VInt 0 else VStr ""))
    fields (start r (dict_get r key_field VNone)).

(** One row added to the aggregated row of its group. *)
Definition accumulate (agg_row : row) (r : row) : result row :=
  foldM
    (fun agg_row field =>
       let value := dict_get r field default in
       if is_number value then
         (old <- dict_item agg_row field ;;
          new <- add old value ;;
          Ok (dict_set agg_row field new))%py
       else Ok agg_row)
    fields agg_row.

Definition step (aggregated : groups) (r : row) : result groups :=
  (k <- key_of_row r ;;
   let aggregated :=
     if negb (groups_mem aggregated k)
     then groups_set aggregated k (seed r) else aggregated in
   foldM
     (fun aggregated field =>
        let value := dict_get r field default in
        if is_number value then add_to aggregated k field value
        else Ok aggregated)
     fields aggregated)%py.

Definition run (insights : list row) : result groups := foldM step insights [].

End Shape.

Definition start_account (r : row) (account : value) : row :=
  [("Platform", dict_get r "Platform" VNone); ("Account", account)]%string.

Definition start_platform (r : row) (platform : value) : row :=
  [("Platform", platform)]%string.

Definition not_platform (field : string) : bool :=
  negb (String.eqb field "Platform").

End Grouping.

Unset Implicit Arguments.

(** ** What a group's row holds *)

Module Words.

Import Py Aggregate Grouping.

Section Rows.

Variable key_field : string.
Variable start : row -> value -> row.
Variable default : value.
Variable fields : list string.

(** The row of a group is the seed of the group's first row with every
    row of the group added in order. *)
Definition summary (insights : list row) (kr : hkey * row) : Prop :=
  exists first rest,
    group key_field (fst kr) insights = first :: rest
    /\ foldM (accumulate default fields) (first :: rest)
         (seed key_field start default fields first)
       = Ok (snd kr).

(** What the loop leaves in a group's row: under a field that the first
    row holds a number for, the sum of what the rows contribute; under any
    other field the empty string, and then no row holds a number for it;
    and as keys those of the starting row and the fields. *)
Definition settled (insights : list row) (k : hkey) (agg_row : row) : Prop :=
  exists first rest,
    group key_field k insights = first :: rest
    /\ (forall f,
           In f fields ->
           match number_at first f with
           | Some _ =>
               exists total,
                 py_sum (contributions f (count_occ string_dec fields f)
                           (first :: rest)) = Ok total
                 /\ dict_find agg_row f = Some total
           | None =>
               dict_find agg_row f = Some (VStr "")
               /\ contributions f (count_occ string_dec fields f)
                    (first :: rest) = []
           end)
    /\ (forall name,
           dict_mem agg_row name
           = dict_mem (start first (dict_get first key_field VNone)) name
             || existsb (String.eqb name) fields).

End Rows.

(** A name that the CSV writer leaves unquoted. *)
Definition plain (s : string) : bool := negb (Csv.any_char Csv.special s).

(** The text of the records, one after the other. *)
Definition lines (records : list (list string)) : string :=
  fold_right (fun cells rest => String.append (Csv.record cells) rest)
    EmptyString records.

(** Two rows that hold the same under every field name. *)
Definition agree (fieldnames : list string) (r r' : row) : Prop :=
  forall key, In key fieldnames -> dict_find r key = dict_find r' key.

End Words.

(** ** Rows used as examples *)

Module Examples.

Definition spend10 : row :=
  [("Account", VStr "a"); ("spend", VInt 10); ("Campaign", VStr "A")]%string.

Definition spend20 : row :=
  [("Account", VStr "a"); ("spend", VInt 20); ("Campaign", VStr "B")]%string.

Definition text_x : row := [("Account", VStr "a"); ("x", VStr "t")]%string.

Definition number_x : row := [("Account", VStr "a"); ("x", VInt 5)]%string.

Definition flag (b : bool) : row :=
  [("Platform", VStr "ga4"); ("Account", VStr "a"); ("ok", VBool b)]%string.

Definition ga4_100_50 : row :=
  [("Platform", VStr "ga4"); ("spend", VInt 100); ("clicks", VInt 50)]%string.

Definition ga4_100_0 : row :=
  [("Platform", VStr "ga4"); ("spend", VInt 100); ("clicks", VInt 0)]%string.

Definition ga4_upper : row :=
  [("Platform", VStr "ga4"); ("spend", VInt 0); ("Spend", VInt 100);
   ("clicks", VStr ""); ("Clicks", VInt 50)]%string.

Definition ga4_no_spend : row :=
  [("Platform", VStr "ga4"); ("spend", VInt 0); ("Spend", VFloat 0);
   ("clicks", VInt 50)]%string.

Definition ga4_account_row : row :=
  [("Platform", VStr "ga4"); ("Account", VStr "A"); ("spend", VInt 10)]%string.

End Examples.

(** ** The end-to-end scenario *)

Module Scenario.

Import Http Fetch Insights.

Section Documents.

Variable account_id : value.
Variable account_name : string.

Definition platforms_doc : value :=
  VDict [("platforms",
          VList [VDict [("text", VStr "Google Analytics 4");
                        ("value", VStr "ga4")]])]%string.

Definition accounts_doc : value :=
  VDict [("accounts",
          VList [VDict [("id", account_id); ("name", VStr account_name);
                        ("token", VStr "T1")]])]%string.

Definition fields_doc : value :=
  VDict [("fields",
          VList [VDict [("text", VStr "Spend"); ("value", VStr "spend")];
                 VDict [("text", VStr "Clicks"); ("value", VStr "clicks")]])]%string.

Definition insights_doc : value :=
  VDict [("insights",
          VList [VDict [("spend", VInt 100); ("clicks", VInt 50)]])]%string.

(** A line of plain cells. *)
Definition line (cells : list string) : string :=
  String.append (Py.join "," cells) Csv.lineterminator.

Definition spend_first : string :=
  String.append
    (line ["Platform"; "Account"; "spend"; "clicks"; "Cost per Click"]%string)
    (line ["ga4"; Csv.field account_name; "100"; "50"; "2.0"]%string).

(** The row of the scenario as [get_insights_for_platform] leaves it. *)
Definition the_row : row :=
  [("spend", VInt 100); ("clicks", VInt 50); ("Account", VStr account_name);
   ("Platform", VStr "ga4")]%string.

Definition clicks_first : string :=
  String.append
    (line ["Platform"; "Account"; "clicks"; "spend"; "Cost per Click"]%string)
    (line ["ga4"; Csv.field account_name; "50"; "100"; "2.0"]%string).

(** An upstream that answers each endpoint with its document, whatever the
    parameters and the state of the world. *)
Definition stub (req : request) (w : unit) : result response * unit :=
  let at_ endpoint := String.eqb (url req)
                        (String.append Config.BASE_API_URL endpoint) in
  let doc :=
    if at_ "/platforms"%string then Some platforms_doc
    else if at_ "/accounts"%string then Some accounts_doc
    else if at_ "/fields"%string then Some fields_doc
    else if at_ "/insights"%string then Some insights_doc
    else None in
  (Ok (Response 200 doc), w).

(** The same upstream with other insights. *)
Definition stub_with (insights : list value) (req : request) (w : unit)
  : result response * unit :=
  if String.eqb (url req) (String.append Config.BASE_API_URL "/insights")
  then (Ok (Response 200 (Some (VDict [("insights"%string, VList insights)]))),
        w)
  else stub req w.

End Documents.

Section Answers.

Variable world : Type.
Variable requests_get : request -> world -> result response * world.

(** The upstream answers an endpoint with status 200 and a document. *)
Definition answers (endpoint : string) (doc : value) : Prop :=
  forall req w,
    url req = String.append Config.BASE_API_URL endpoint ->
    fst (requests_get req w) = Ok (Response 200 (Some doc)).

(** The computation ends with a value, from any state of the network. *)
Definition returns {A : Type} (m : M world A) (a : A) : Prop :=
  forall n, exists n', m n = Some (Ok a, n').

End Answers.

Arguments answers {world} requests_get endpoint doc.
Arguments returns {world A} m a.

(** Two values that are one key of a set or a dict. *)
Definition same_key (a b : value) : bool :=
  match Py.key_of a, Py.key_of b with
  | Ok k, Ok k' => Py.hkey_eqb k k'
  | _, _ => false
  end.

(** The values a set holds after they were added in order: the first of
    every key. *)
Fixpoint distinct (l : list value) : list value :=
  match l with
  | [] => []
  | v :: l' => v :: filter (fun v' => negb (same_key v v')) (distinct l')
  end.

(** What [list(s)] may be for a set [s]: its values in some order. *)
Definition set_order (set_iter : list value -> list value) : Prop :=
  forall l, Permutation (set_iter l) (distinct l).

Definition no_float (s : string) : option float := None.
Definition ascii_repr (s : string) : string :=
  String "'" (String.append s "'").

Definition insertion_order (l : list value) : list value := distinct l.
Definition reverse_order (l : list value) : list value := rev (distinct l).

(** The network after the first request for accounts to the stub. *)
Definition after_one_fetch : net unit :=
  match
    fetch_api (stub (VStr "1") "Acme") "/accounts"
      (VDict [("platform", VStr "ga4"); ("page", VInt 1)]%string) true
      (Net tt [])
  with
  | Some (_, n) => n
  | None => Net tt []
  end.

End Scenario.

(** ** The aggregators on a store of objects

    The same two functions with their arguments as references: the rows
    are dict objects of a store, the field list and the list of rows are
    list objects, and every read and write goes through the store.  The
    dict [aggregated] is private to a call and stays a local value.
    [StoreFacts.aggregate_by_account_on_store] and
    [StoreFacts.aggregate_by_platform_on_store] relate them to the
    functions on values of [Aggregate]. *)

Module Store.

Import Py.

Definition addr : Type := nat.

Inductive obj : Type :=
| ODict (d : dict)
| ONames (l : list string)
| ORefs (l : list addr).

Definition store : Type := list obj.

Fixpoint update (s : store) (a : addr) (o : obj) : store :=
  match s, a with
  | [], _ => []
  | _ :: s', O => o :: s'
  | x :: s', S a' => x :: update s' a' o
  end.

(** A computation on the store; the store survives an exception. *)
Definition ST (A : Type) : Type := store -> result A * store.

Definition ret {A : Type} (a : A) : ST A := fun s => (Ok a, s).

Definition lift {A : Type} (r : result A) : ST A := fun s => (r, s).

Definition bindS {A B : Type} (m : ST A) (k : A -> ST B) : ST B :=
  fun s =>
    match m s with
    | (Ok a, s') => k a s'
    | (Raise e, s') => (Raise e, s')
    end.

Notation "x <- m ;; k" := (bindS m (fun x => k))
  (at level 61, m at next level, right associativity).

Fixpoint for_each {A B : Type} (f : A -> B -> ST A) (l : list B) (a : A)
  : ST A :=
  match l with
  | [] => ret a
  | x :: l' => a' <- f a x ;; for_each f l' a'
  end.

(** A new object. *)
Definition alloc (o : obj) : ST addr :=
  fun s => (Ok (List.length s), s ++ [o]).

(** [row.get(k, default)] *)
Definition row_get (row : addr) (k : string) (default : value) : ST value :=
  fun s =>
    match nth_error s row with
    | Some (ODict d) => (Ok (dict_get d k default), s)
    | _ => (Raise AttributeError, s)
    end.

(** [agg_row[k]] *)
Definition dict_load (agg_row : addr) (k : string) : ST value :=
  fun s =>
    match nth_error s agg_row with
    | Some (ODict d) => (dict_item d k, s)
    | _ => (Raise TypeError, s)
    end.

(** [agg_row[k] = v] *)
Definition dict_store (agg_row : addr) (k : string) (v : value) : ST unit :=
  fun s =>
    match nth_error s agg_row with
    | Some (ODict d) => (Ok tt, update s agg_row (ODict (dict_set d k v)))
    | _ => (Raise TypeError, s)
    end.

(** [for field in fields] *)
Definition names_of (fields : addr) : ST (list string) :=
  fun s =>
    match nth_error s fields with
    | Some (ONames l) => (Ok l, s)
    | _ => (Raise TypeError, s)
    end.

(** [for row in insights] *)
Definition refs_of (insights : addr) : ST (list addr) :=
  fun s =>
    match nth_error s insights with
    | Some (ORefs l) => (Ok l, s)
    | _ => (Raise TypeError, s)
    end.

(** The dict [aggregated]: group key to the reference of its row. *)
Definition groups : Type := list (hkey * addr).

Fixpoint groups_find (g : groups) (k : hkey) : option addr :=
  match g with
  | [] => None
  | (k', a) :: g' => if hkey_eqb k' k then Some a else groups_find g' k
  end.

Definition groups_mem (g : groups) (k : hkey) : bool :=
  match groups_find g k with
  | Some _ => true
  | None => false
  end.

Definition groups_item (g : groups) (k : hkey) : result addr :=
  match groups_find g k with
  | Some a => Ok a
  | None => Raise KeyError
  end.

Fixpoint groups_set (g : groups) (k : hkey) (a : addr) : groups :=
  match g with
  | [] => [(k, a)]
  | (k', a') :: g' =>
      if hkey_eqb k' k then (k', a) :: g' else (k', a') :: groups_set g' k a
  end.

Definition aggregate_by_account (insights fields : addr) : ST addr :=
  rows <- refs_of insights ;;
  aggregated <-
    for_each
      (fun aggregated row =>
         account <- row_get row "Account" VNone ;;
         k <- lift (key_of account) ;;
         aggregated <-
           (if negb (groups_mem aggregated k) then
              platform <- row_get row "Platform" VNone ;;
              agg_row <-
                alloc (ODict [("Platform", platform); ("Account", account)]%string) ;;
              names <- names_of fields ;;
              _ <- for_each
                     (fun _ field =>
                        value <- row_get row field VNone ;;
                        dict_store agg_row field
                          (if is_number value then VInt 0 else VStr ""))
                     names tt ;;
              ret (groups_set aggregated k agg_row)
            else ret aggregated) ;;
         names <- names_of fields ;;
         _ <- for_each
                (fun _ field =>
                   value <- row_get row field VNone ;;
                   if is_number value then
                     agg_row <- lift (groups_item aggregated k) ;;
                     old <- dict_load agg_row field ;;
                     new <- lift (add old value) ;;
                     dict_store agg_row field new
                   else ret tt)
                names tt ;;
         ret aggregated)
      rows [] ;;
  alloc (ORefs (map snd aggregated)).

Definition aggregate_by_platform (insights all_fields : addr) : ST addr :=
  rows <- refs_of insights ;;
  aggregated <-
    for_each
      (fun aggregated row =>
         platform <- row_get row "Platform" VNone ;;
         k <- lift (key_of platform) ;;
         aggregated <-
           (if negb (groups_mem aggregated k) then
              agg_row <- alloc (ODict [("Platform", platform)]%string) ;;
              names <- names_of all_fields ;;
              _ <- for_each
                     (fun _ field =>
                        if String.eqb field "Platform" then ret tt else
                        value <- row_get row field (VStr "") ;;
                        dict_store agg_row field
                          (if is_number value then VInt 0 else VStr ""))
                     names tt ;;
              ret (groups_set aggregated k agg_row)
            else ret aggregated) ;;
         names <- names_of all_fields ;;
         _ <- for_each
                (fun _ field =>
                   if String.eqb field "Platform" then ret tt else
                   value <- row_get row field (VStr "") ;;
                   if is_number value then
                     agg_row <- lift (groups_item aggregated k) ;;
                     old <- dict_load agg_row field ;;
                     new <- lift (add old value) ;;
                     dict_store agg_row field new
                   else ret tt)
                names tt ;;
         ret aggregated)
      rows [] ;;
  alloc (ORefs (map snd aggregated)).

(** The object at an address is a dict. *)
Definition is_dict (s : store) (a : addr) : Prop :=
  exists d, nth_error s a = Some (ODict d).

(** A later store: the objects below [b] are as they were, no object is
    gone and a dict is still a dict. *)
Definition grows (b : nat) (s s' : store) : Prop :=
  firstn b s' = firstn b s
  /\ List.length s <= List.length s'
  /\ forall a, is_dict s a -> is_dict s' a.

(** From a store of at least [b] objects that satisfies [P], the
    computation leaves the objects below [b] alone and its result
    satisfies [Q]. *)
Definition hoare {A : Type} (b : nat) (P : store -> Prop) (m : ST A)
           (Q : A -> store -> Prop) : Prop :=
  forall s,
    b <= List.length s -> P s ->
    grows b s (snd (m s)) /\ forall a, fst (m s) = Ok a -> Q a (snd (m s)).

(** The references of [aggregated] are distinct dicts made after the
    first [b] objects. *)
Definition fresh (b : nat) (g : groups) (s : store) : Prop :=
  NoDup (map snd g)
  /\ Forall (fun a => b <= a /\ is_dict s a) (map snd g).

(** An assertion that holds on in every later store. *)
Definition stable (b : nat) (P : store -> Prop) : Prop :=
  forall s s', grows b s s' -> P s -> P s'.

(** For the comparison with the aggregators on values: the two inner
    loops under a name, the one that seeds a new row and the one that adds
    a row of the input to the row of its group. *)
Definition seeding (default : value) (row a : addr) (names : list string)
  : ST unit :=
  for_each
    (fun _ field =>
       bindS (row_get row field default)
         (fun value =>
            dict_store a field (if is_number value then VInt 0 else VStr "")))
    names tt.

Definition adding (default : value) (row : addr) (gh : groups) (k : hkey)
           (names : list string) : ST unit :=
  for_each
    (fun _ field =>
       bindS (row_get row field default)
         (fun value =>
            if is_number value then
              bindS (lift (groups_item gh k))
                (fun agg_row =>
                   bindS (dict_load agg_row field)
                     (fun old =>
                        bindS (lift (add old value))
                          (fun new => dict_store agg_row field new)))
            else ret tt))
    names tt.

(** What follows the allocation of the row [a] of a new group, and what
    follows for every row; [sd] and [ad] are the two inner loops. *)
Definition start_group (fields : addr) (k : hkey) (a : addr)
           (sd : list string -> ST unit) (gh : groups) : ST groups :=
  bindS (names_of fields)
    (fun l => bindS (sd l) (fun _ => ret (groups_set gh k a))).

Definition finish (fields : addr) (ad : groups -> list string -> ST unit)
           (gh : groups) : ST groups :=
  bindS (names_of fields) (fun l => bindS (ad gh l) (fun _ => ret gh)).

(** The store holds the dicts [ds] at the references [refs]. *)
Definition holds (s : store) (refs : list addr) (ds : list dict) : Prop :=
  Forall2 (fun a d => nth_error s a = Some (ODict d)) refs ds.

(** A group on the store and a group on values: one key, and the reference
    is to the row of the other. *)
Definition linked (s : store) (x : hkey * dict) (y : hkey * addr) : Prop :=
  fst x = fst y /\ nth_error s (snd y) = Some (ODict (snd x)).

(** [aggregated] on the store stands for [aggregated] on values: the same
    keys in the same order, every reference to the dict of its key; the
    references are distinct and none is below [b]. *)
Definition sim (b : nat) (s : store) (g : Aggregate.groups) (gh : groups)
  : Prop :=
  Forall2 (linked s) g gh
  /\ NoDup (map snd gh) /\ Forall (le b) (map snd gh).

(** The rows of the input: references below [b] to dicts. *)
Definition inputs (b : nat) (s : store) (rows : list addr) (ds : list dict)
  : Prop :=
  Forall2 (fun a d => a < b /\ nth_error s a = Some (ODict d)) rows ds.

(** A store with two rows of one account, their list and a field list. *)
Definition two_rows : store :=
  [ORefs [1; 2]; ODict Examples.spend10; ODict Examples.spend20;
   ONames ["spend"; "Campaign"]%string].

End Store.

(** * More of the code

    Vocabulary for the properties stated below. *)

(** ** What goes over the wire *)

Module Wire.

Import Http Fetch.

(** The four endpoints of the upstream service. *)
Definition endpoints : list string :=
  ["/platforms"; "/accounts"; "/fields"; "/insights"]%string.

(** The headers of a request that carries the global token. *)
Definition bearer_headers : list (string * string) :=
  [("Accept", "application/json"); ("User-Agent", "Flask-App");
   ("Authorization", String.append "Bearer " Config.TOKEN)]%string.

(** A request to one of the four endpoints under the configured base, with
    the global token in its header. *)
Definition to_upstream (req : request) : Prop :=
  headers req = bearer_headers
  /\ exists endpoint,
      In endpoint endpoints
      /\ url req = String.append Config.BASE_API_URL endpoint.

(** Whenever the computation ends, in a value or in an exception, the
    requests it sent come after those sent before and all satisfy [P].
    (A run that is out of fuel has no end, and no log.) *)
Definition sends_only {world A : Type} (P : request -> Prop)
           (m : M world A) : Prop :=
  forall n r n',
    m n = Some (r, n') ->
    exists new, sent n' = sent n ++ new /\ Forall P new.

End Wire.

(** ** An upstream that answers in pages *)

Module Paging.

Import Http Fetch.

(** A page as the upstream sends it: the items under [array] and the two
    counters. *)
Definition page_doc (array : string) (items : list value) (current total : Z)
  : value :=
  VDict [(array, VList items);
         ("pagination"%string,
          VDict [("current", VInt current); ("total", VInt total)]%string)].

(** The parameters of the request for a page. *)
Definition page_params (fixed : dict) (page : nat) : value :=
  VDict (fixed ++ [("page"%string, VInt (Z.of_nat page))]).

Section Upstream.

Variable world : Type.
Variable requests_get : request -> world -> result response * world.

(** The upstream holds [pages] for an endpoint: asked for a page of them,
    the first being page 1, it answers with that page and the counters. *)
Definition serves (endpoint : string) (fixed : dict) (array : string)
           (pages : list (list value)) : Prop :=
  forall i items req w,
    nth_error pages i = Some items ->
    url req = String.append Config.BASE_API_URL endpoint ->
    params req = page_params fixed (S i) ->
    fst (requests_get req w)
    = Ok (Response 200
            (Some (page_doc array items (Z.of_nat (S i))
                     (Z.of_nat (List.length pages))))).

(** The upstream answers every request to an endpoint with a page that is
    not empty and counters that announce a further one. *)
Definition always_more (endpoint array : string) : Prop :=
  forall req w,
    url req = String.append Config.BASE_API_URL endpoint ->
    exists items current total,
      items <> [] /\ (current < total)%Z
      /\ fst (requests_get req w)
         = Ok (Response 200 (Some (page_doc array items current total))).

End Upstream.

Arguments serves {world} requests_get endpoint fixed array pages.
Arguments always_more {world} requests_get endpoint array.

(** An upstream that serves [pages], whatever the endpoint. *)
Definition book (array : string) (pages : list (list value)) (req : request)
           (w : unit) : result response * unit :=
  match params req with
  | VDict d =>
      match dict_get d "page" VNone with
      | VInt page =>
          match nth_error pages (Z.to_nat (page - 1)) with
          | Some items =>
              (Ok (Response 200
                     (Some (page_doc array items page
                              (Z.of_nat (List.length pages))))), w)
          | None => (Ok (Response 404 None), w)
          end
      | _ => (Ok (Response 404 None), w)
      end
  | _ => (Ok (Response 404 None), w)
  end.

(** An upstream whose every page announces the next. *)
Definition endless (array : string) (req : request) (w : unit)
  : result response * unit :=
  (Ok (Response 200 (Some (page_doc array [VNone] 1 2))), w).

End Paging.

(** ** An upstream that fails *)

Module Outage.

Import Http Fetch.

(** The request [fetch_api] sends with the global token. *)
Definition the_request (endpoint : string) (params : value) : request :=
  Request (String.append Config.BASE_API_URL endpoint) params
    Wire.bearer_headers.

(** What [fetch_api] makes of a response: its JSON document when the
    status is 200 and the body decodes, [None] otherwise. *)
Definition payload (resp : response) : value :=
  if (status_code resp =? 200)%Z then
    match json resp with
    | Some data => data
    | None => VNone
    end
  else VNone.

Section Upstream.

Variable world : Type.
Variable requests_get : request -> world -> result response * world.

(** The upstream answers, but never with a document that counts: the
    status is not 200, the body does not decode, or the document is
    falsy. *)
Definition silent : Prop :=
  forall req w,
    exists resp,
      fst (requests_get req w) = Ok resp /\ Py.truthy (payload resp) = false.

End Upstream.

Arguments silent {world} requests_get.

(** An upstream that answers 503 to everything. *)
Definition unavailable (req : request) (w : unit) : result response * unit :=
  (Ok (Response 503 None), w).

(** An upstream that cannot be reached. *)
Definition unreachable (req : request) (w : unit) : result response * unit :=
  (Raise RequestException, w).

End Outage.

(** ** The policy of a fetch loop on its first page *)

Module Policy.

Import Http Fetch Paging Outage.

Section Upstream.

Variable world : Type.
Variable requests_get : request -> world -> result response * world.

(** [run] sends the request for page 1 and decides on the answer:
    without data, and with the array absent or empty, it returns what
    [post] makes of no items; with items and counters
    [current >= total], each 1 when missing, it returns what [post] makes
    of the items; with counters [current < total] it goes on from page 2
    with the items, as the paginator of the specification does with the
    fuel that is left; and on an answer without a pagination key it ends
    one way or another, after that one request. *)
Definition first_page_policy (fuel : nat) (run : M world (list value))
           (endpoint : string) (fixed : dict) (array : string)
           (post : list value -> result (list value)) : Prop :=
  forall n resp w,
    requests_get (the_request endpoint (page_params fixed 1)) (upstream n)
    = (Ok resp, w) ->
    let n1 := Net w (sent n ++ [the_request endpoint (page_params fixed 1)]) in
    let data := payload resp in
    (Py.truthy data = false -> run n = Some (post [], n1))
    /\ (forall d,
           data = VDict d ->
           Py.truthy (dict_get d array (VList [])) = false ->
           run n = Some (post [], n1))
    /\ (forall d p items stop,
           data = VDict d -> d <> [] ->
           Py.truthy (dict_get d array (VList [])) = true ->
           Py.iterate (dict_get d array (VList [])) = Ok items ->
           dict_get d "pagination" (VDict []) = VDict p ->
           Py.ge (dict_get p "current" (VInt 1)) (dict_get p "total" (VInt 1))
           = Ok stop ->
           run n
           = if stop then Some (post items, n1)
             else bindM
                    (paginate requests_get fuel endpoint fixed array items 2)
                    (fun items => lift (post items)) n1)
    /\ (lacks_pagination data = true -> exists r, run n = Some (r, n1)).

End Upstream.

Arguments first_page_policy {world} requests_get fuel run endpoint fixed
  array post.

End Policy.

(** ** One computation for every element of a list *)

Module Gather.

Import Fetch.

(** The results of [f] on the elements of a list, in their order, each
    run on the network the one before left. *)
Fixpoint traverse {world A B : Type} (f : A -> M world B) (l : list A)
  : M world (list B) :=
  match l with
  | [] => ret []
  | x :: l' =>
      bindM (f x) (fun y => bindM (traverse f l') (fun ys => ret (y :: ys)))
  end.

End Gather.

(** ** The Cost per Click as the specification words it *)

Module Quotient.

Section Quotient.

Variable float_of_str : string -> option float.

(** Spend divided by clicks as floats when clicks is truthy and not
    zero; the int 0 when clicks is falsy or zero, and when a conversion
    fails. *)
Definition ratio (spend clicks : value) : value :=
  if Py.truthy clicks then
    match Py.float_of float_of_str spend, Py.float_of float_of_str clicks with
    | Ok x, Ok y => if (y =? 0)%float then VInt 0 else VFloat (x / y)
    | _, _ => VInt 0
    end
  else VInt 0.

End Quotient.

(** The operand read under two keys: the value under the first when it
    is truthy, the value under the second when only that is truthy, and
    the int 0 when both are falsy. *)
Definition falls_through (row : row) (lower upper : string) (v : value)
  : Prop :=
  (Py.truthy (dict_get row lower VNone) = true ->
   v = dict_get row lower VNone)
  /\ (Py.truthy (dict_get row lower VNone) = false ->
      Py.truthy (dict_get row upper VNone) = true ->
      v = dict_get row upper VNone)
  /\ (Py.truthy (dict_get row lower VNone) = false ->
      Py.truthy (dict_get row upper VNone) = false ->
      v = VInt 0).

End Quotient.

Module Labels.

Import Http.

(** The parameters of a request for insights: the account's token
    travels in the query, next to the comma-joined field codes. *)
Definition insights_query (platform account account_token : value)
           (names : list string) (req : request) : Prop :=
  url req = String.append Config.BASE_API_URL "/insights"
  /\ exists page,
      params req
      = VDict [("platform", platform); ("account", account);
               ("token", account_token);
               ("fields", VStr (Py.join "," names));
               ("page", VInt page)]%string.

(** What [get_insights_for_platform] makes of an insight of an account:
    the name of the account goes under "Account" and the platform under
    "Platform", over whatever the upstream sent under these names. *)
Definition relabel (platform account_name : value) (insight : value)
  : result row :=
  (insight <- Fetch.setitem insight "Account" account_name ;;
   Ok (dict_set insight "Platform" platform))%py.

(** A row that carries the platform and the name of one of the
    accounts. *)
Definition labelled (platform : value) (accounts : list value) (row : row)
  : Prop :=
  dict_find row "Platform" = Some platform
  /\ exists account account_name,
      In account accounts
      /\ Py.get account "name" VNone = Ok account_name
      /\ dict_find row "Account" = Some account_name.

Section Upstream.

Variable world : Type.
Variable requests_get : request -> world -> result response * world.

(** The name of an account and the insights fetched for it. *)
Definition insights_of_account (fuel : nat) (platform : value)
           (fields : list value) (account : value)
  : Fetch.M world (value * list value) :=
  Fetch.bindM (Fetch.lift (Py.get account "id" VNone)) (fun account_id =>
  Fetch.bindM (Fetch.lift (Py.get account "token" VNone))
    (fun account_token =>
  Fetch.bindM (Fetch.lift (Py.get account "name" VNone))
    (fun account_name =>
  Fetch.bindM
    (Fetch.get_insights requests_get fuel platform account_id fields
       account_token)
    (fun insights => Fetch.ret (account_name, insights))))).

End Upstream.

Arguments insights_of_account {world} requests_get fuel platform fields
  account.

End Labels.

Module Sums.

Import Py Aggregate Grouping.

Section Rows.

Variable key_field : string.
Variable fields : list string.

(** Every row has a value under the key field that can be a key. *)
Definition keyed (insights : list row) : Prop :=
  Forall (fun r => exists k, key_of_row key_field r = Ok k) insights.

(** The numbers of every group under a field that counts [c] times can
    be added: when the first row of a group holds a number under the
    field, the sum of what the rows of the group contribute exists; when
    it holds none, no row of the group contributes. *)
Definition addable_at (f : string) (c : nat) (insights : list row) : Prop :=
  forall k first rest,
    group key_field k insights = first :: rest ->
    match number_at first f with
    | Some _ =>
        exists total, py_sum (contributions f c (first :: rest)) = Ok total
    | None => contributions f c (first :: rest) = []
    end.

(** So under every field of the list, counted as often as it occurs. *)
Definition addable (insights : list row) : Prop :=
  forall f,
    In f fields -> addable_at f (count_occ string_dec fields f) insights.

(** Every aggregated row holds every field of the list. *)
Definition complete (g : groups) : Prop :=
  Forall (fun kr => forall f, In f fields -> dict_mem (snd kr) f = true) g.

End Rows.

End Sums.

Module Columns.

(** The int 0 or a float: what "Cost per Click" may be. *)
Definition tame (v : value) : Prop := v = VInt 0 \/ exists q, v = VFloat q.

End Columns.

(** ** Reading a CSV text back

    The reader of the dialect the writer writes in: fields are separated
    by commas and records ended by CR LF; a field in double quotes may
    hold commas, line ends and, doubled, the quote itself; an empty line
    is a record without fields. *)

Module Reader.

Inductive state : Set :=
| RecordStart
| FieldStart
| Plain
| Quoted
| QuoteSeen
| LineEnd.

Definition snoc (s : string) (c : ascii) : string :=
  String.append s (String c EmptyString).

(** The records of a text, read character by character: [cur] is the
    field being read, [fields] the fields of the record being read and
    [recs] the records read so far. *)
Fixpoint scan (s : string) (st : state) (cur : string) (fields : list string)
         (recs : list (list string)) : list (list string) :=
  match s with
  | EmptyString =>
      match st with
      | RecordStart => recs
      | LineEnd => recs ++ [fields]
      | _ => recs ++ [fields ++ [cur]]
      end
  | String c s' =>
      match st with
      | RecordStart | FieldStart =>
          if Ascii.eqb c Csv.quotechar then
            scan s' Quoted EmptyString fields recs
          else if Ascii.eqb c Csv.comma then
            scan s' FieldStart EmptyString (fields ++ [EmptyString]) recs
          else if Ascii.eqb c Csv.CR then
            scan s' LineEnd EmptyString
              (match st with
               | RecordStart => []
               | _ => fields ++ [EmptyString]
               end) recs
          else scan s' Plain (String c EmptyString) fields recs
      | Plain =>
          if Ascii.eqb c Csv.comma then
            scan s' FieldStart EmptyString (fields ++ [cur]) recs
          else if Ascii.eqb c Csv.CR then
            scan s' LineEnd EmptyString (fields ++ [cur]) recs
          else scan s' Plain (snoc cur c) fields recs
      | Quoted =>
          if Ascii.eqb c Csv.quotechar then scan s' QuoteSeen cur fields recs
          else scan s' Quoted (snoc cur c) fields recs
      | QuoteSeen =>
          if Ascii.eqb c Csv.quotechar then
            scan s' Quoted (snoc cur c) fields recs
          else if Ascii.eqb c Csv.comma then
            scan s' FieldStart EmptyString (fields ++ [cur]) recs
          else if Ascii.eqb c Csv.CR then
            scan s' LineEnd EmptyString (fields ++ [cur]) recs
          else scan s' Plain (snoc cur c) fields recs
      | LineEnd => scan s' RecordStart EmptyString [] (recs ++ [fields])
      end
  end.

Definition read (s : string) : list (list string) :=
  scan s RecordStart EmptyString [] [].

(** What a comma or a CR does at the end of a field. *)
Definition finish (d : ascii) (rest cur : string) (fields : list string)
           (recs : list (list string)) : list (list string) :=
  if Ascii.eqb d Csv.comma then
    scan rest FieldStart EmptyString (fields ++ [cur]) recs
  else scan rest LineEnd EmptyString (fields ++ [cur]) recs.

End Reader.
(** * Properties *)

(** ** Grouping and sums *)

Module GroupFacts.

Import Py Aggregate Grouping Words Examples.

Lemma bind_Ok {A B : Type} (r : result A) (k : A -> result B) (b : B) :
  bind r k = Ok b -> exists a, r = Ok a /\ k a = Ok b.
Proof.
  destruct r as [a | e]; simpl; intros H; [eauto | discriminate].
Qed.

Lemma foldM_app {A B : Type} (f : A -> B -> result A) (l l' : list B) (a : A) :
  foldM f (l ++ l') a = bind (foldM f l a) (foldM f l').
Proof.
  revert a; induction l as [| x l IH]; intros a; simpl; [reflexivity |].
  destruct (f a x); simpl; auto.
Qed.

Lemma hkey_eqb_eq (a b : hkey) : hkey_eqb a b = true <-> a = b.
Proof.
  destruct a as [| s | x], b as [| t | y]; simpl;
    try (split; [discriminate | discriminate]); try tauto.
  - rewrite String.eqb_eq. split; congruence.
  - destruct x as [m e | s |], y as [m' e' | s' |]; simpl;
      try (split; [discriminate | discriminate]); try tauto.
    + rewrite andb_true_iff, !Z.eqb_eq. split; [intros []; congruence |].
      intros H; injection H; auto.
    + rewrite Bool.eqb_true_iff. split; congruence.
Qed.

Lemma hkey_eqb_refl (a : hkey) : hkey_eqb a a = true.
Proof. apply hkey_eqb_eq; reflexivity. Qed.

Lemma hkey_eqb_neq (a b : hkey) : hkey_eqb a b = false <-> a <> b.
Proof.
  rewrite <- hkey_eqb_eq. destruct (hkey_eqb a b); split; congruence.
Qed.

Lemma dict_find_set_same (d : dict) (k : string) (v : value) :
  dict_find (dict_set d k v) k = Some v.
Proof.
  induction d as [| [k' v'] d IH]; simpl.
  - now rewrite String.eqb_refl.
  - destruct (String.eqb k' k) eqn:E; simpl; rewrite E; auto.
Qed.

Lemma dict_find_set_other (d : dict) (k k' : string) (v : value) :
  k <> k' -> dict_find (dict_set d k v) k' = dict_find d k'.
Proof.
  intros Hne. induction d as [| [k0 v0] d IH]; simpl.
  - destruct (String.eqb_spec k k'); congruence.
  - destruct (String.eqb_spec k0 k) as [-> |]; simpl.
    + destruct (String.eqb_spec k k'); congruence.
    + now rewrite IH.
Qed.

Lemma dict_mem_set (d : dict) (k k' : string) (v : value) :
  dict_mem (dict_set d k v) k' = String.eqb k k' || dict_mem d k'.
Proof.
  unfold dict_mem. destruct (String.eqb_spec k k') as [-> | Hne]; simpl.
  - now rewrite dict_find_set_same.
  - now rewrite dict_find_set_other.
Qed.

Lemma groups_find_set_same (g : groups) (k : hkey) (r : row) :
  groups_find (groups_set g k r) k = Some r.
Proof.
  induction g as [| [k' r'] g IH]; simpl.
  - now rewrite hkey_eqb_refl.
  - destruct (hkey_eqb k' k) eqn:E; simpl; rewrite E; auto.
Qed.

Lemma groups_set_set (g : groups) (k : hkey) (r r' : row) :
  groups_set (groups_set g k r) k r' = groups_set g k r'.
Proof.
  induction g as [| [k0 r0] g IH]; simpl.
  - now rewrite hkey_eqb_refl.
  - destruct (hkey_eqb k0 k) eqn:E; simpl; rewrite E; congruence.
Qed.

Lemma groups_set_id (g : groups) (k : hkey) (r : row) :
  groups_find g k = Some r -> groups_set g k r = g.
Proof.
  induction g as [| [k0 r0] g IH]; simpl; [discriminate |].
  destruct (hkey_eqb k0 k) eqn:E; intros H.
  - congruence.
  - now rewrite IH.
Qed.

Lemma groups_set_absent (g : groups) (k : hkey) (r : row) :
  groups_find g k = None -> groups_set g k r = g ++ [(k, r)].
Proof.
  induction g as [| [k0 r0] g IH]; simpl; [reflexivity |].
  destruct (hkey_eqb k0 k) eqn:E; intros H; [discriminate |].
  now rewrite IH.
Qed.

Lemma groups_set_keys (g : groups) (k : hkey) (r r' : row) :
  groups_find g k = Some r -> map fst (groups_set g k r') = map fst g.
Proof.
  induction g as [| [k0 r0] g IH]; simpl; [discriminate |].
  destruct (hkey_eqb k0 k) eqn:E; intros H; simpl; [reflexivity |].
  now rewrite IH.
Qed.

Lemma groups_find_In (g : groups) (k : hkey) (r : row) :
  groups_find g k = Some r -> In (k, r) g.
Proof.
  induction g as [| [k0 r0] g IH]; simpl; [discriminate |].
  destruct (hkey_eqb k0 k) eqn:E; intros H.
  - apply hkey_eqb_eq in E. left. congruence.
  - right. auto.
Qed.

Lemma groups_find_None (g : groups) (k : hkey) :
  groups_find g k = None <-> ~ In k (map fst g).
Proof.
  induction g as [| [k0 r0] g IH]; simpl; [tauto |].
  destruct (hkey_eqb k0 k) eqn:E.
  - apply hkey_eqb_eq in E. split; [discriminate | tauto].
  - apply hkey_eqb_neq in E. rewrite IH. tauto.
Qed.

Lemma first_seen_In (k : hkey) (ks : list hkey) :
  In k (first_seen ks) <-> In k ks.
Proof.
  induction ks as [| k0 ks IH]; simpl; [tauto |].
  rewrite filter_In, IH, negb_true_iff, hkey_eqb_neq.
  destruct (hkey_eqb k0 k) eqn:E.
  - apply hkey_eqb_eq in E. tauto.
  - apply hkey_eqb_neq in E. tauto.
Qed.

Lemma first_seen_NoDup (ks : list hkey) : NoDup (first_seen ks).
Proof.
  induction ks as [| k0 ks IH]; simpl; constructor.
  - rewrite filter_In, negb_true_iff, hkey_eqb_neq. tauto.
  - now apply NoDup_filter.
Qed.

Lemma first_seen_snoc (ks : list hkey) (k : hkey) :
  first_seen (ks ++ [k])
  = if existsb (hkey_eqb k) ks then first_seen ks else first_seen ks ++ [k].
Proof.
  induction ks as [| k0 ks IH]; simpl; [reflexivity |].
  rewrite IH. destruct (hkey_eqb k k0) eqn:E0; simpl.
  - destruct (existsb (hkey_eqb k) ks); [reflexivity |].
    rewrite filter_app. simpl.
    apply hkey_eqb_eq in E0. subst k0. rewrite hkey_eqb_refl. simpl.
    now rewrite app_nil_r.
  - destruct (existsb (hkey_eqb k) ks); [reflexivity |].
    rewrite filter_app. simpl.
    assert (hkey_eqb k0 k = false) as ->.
    { apply hkey_eqb_neq. apply hkey_eqb_neq in E0. congruence. }
    reflexivity.
Qed.

Lemma existsb_hkey (k : hkey) (ks : list hkey) :
  existsb (hkey_eqb k) ks = true <-> In k ks.
Proof.
  rewrite existsb_exists. split.
  - intros (x & Hin & E). apply hkey_eqb_eq in E. now subst.
  - intros H. exists k. split; [assumption | apply hkey_eqb_refl].
Qed.

Lemma groups_set_In (g : groups) (k : hkey) (a a' : row) :
  NoDup (map fst g) -> groups_find g k = Some a ->
  forall kr, In kr (groups_set g k a') ->
             kr = (k, a') \/ (In kr g /\ fst kr <> k).
Proof.
  induction g as [| [k0 r0] g IH]; simpl; [discriminate |].
  intros Hnd Hfind kr Hin. inversion Hnd as [| ? ? Hnot Hnd']; subst.
  destruct (hkey_eqb k0 k) eqn:E.
  - apply hkey_eqb_eq in E. subst k0. destruct Hin as [<- | Hin]; [now left |].
    right. split; [now right |].
    intros <-. apply Hnot. apply in_map_iff. now exists kr.
  - apply hkey_eqb_neq in E. destruct Hin as [<- | Hin].
    + right. split; [now left | assumption].
    + destruct (IH Hnd' Hfind kr Hin) as [-> | [H1 H2]]; [now left |].
      right. split; [now right | assumption].
Qed.

Lemma contributions_cons (f : string) (c : nat) (r : row) (rows : list row) :
  contributions f c (r :: rows)
  = contributions f c [r] ++ contributions f c rows.
Proof. unfold contributions. simpl. now rewrite app_nil_r. Qed.

Lemma contributions_numbers (f : string) (c : nat) (rows : list row) :
  Forall (fun x => is_number x = true) (contributions f c rows).
Proof.
  induction rows as [| r rows IH]; [constructor |].
  rewrite contributions_cons. apply Forall_app. split; [| exact IH].
  unfold contributions, number_at. simpl. rewrite app_nil_r.
  destruct (dict_find r f) as [v |]; [| constructor].
  destruct (is_number v) eqn:E; [| constructor].
  apply Forall_forall. intros x Hx. apply repeat_spec in Hx. now subst.
Qed.

Section ShapeFacts.

Variable key_field : string.
Variable start : row -> value -> row.
Variable default : value.
Variable fields : list string.

Local Abbreviation accumulate := (accumulate default fields).
Local Abbreviation seed := (seed key_field start default fields).
Local Abbreviation step := (step key_field start default fields).
Local Abbreviation run := (run key_field start default fields).
Local Abbreviation group := (group key_field).
Local Abbreviation keys := (keys key_field).
Local Abbreviation key_of_row := (key_of_row key_field).
Local Abbreviation summary := (summary key_field start default fields).
Local Abbreviation settled := (settled key_field start fields).

(** Adding a row to the dict of groups is adding it to the row of its
    group. *)
Lemma add_row_accumulate (r : row) (k : hkey) :
  forall (fs : list string) (g : groups) (a : row),
    groups_find g k = Some a ->
    foldM
      (fun aggregated field =>
         let value := dict_get r field default in
         if is_number value then add_to aggregated k field value
         else Ok aggregated)
      fs g
    = bind (Grouping.accumulate default fs a r)
        (fun a' => Ok (groups_set g k a')).
Proof.
  unfold Grouping.accumulate.
  induction fs as [| f fs IH]; intros g a Hfind; simpl.
  - now rewrite groups_set_id.
  - destruct (is_number (dict_get r f default)) eqn:En.
    + unfold add_to, groups_item. rewrite Hfind. simpl.
      destruct (dict_item a f) as [old | e]; simpl; [| reflexivity].
      destruct (add old (dict_get r f default)) as [new | e]; simpl;
        [| reflexivity].
      rewrite (IH _ (dict_set a f new)) by apply groups_find_set_same.
      destruct (foldM _ fs (dict_set a f new)); simpl; [| reflexivity].
      now rewrite groups_set_set.
    + simpl. now apply IH.
Qed.

Lemma step_new (g : groups) (r : row) (k : hkey) :
  key_of_row r = Ok k -> groups_find g k = None ->
  step g r = bind (accumulate (seed r) r) (fun a => Ok (g ++ [(k, a)])).
Proof.
  intros Hk Hnone. unfold Grouping.step. fold key_of_row. rewrite Hk. simpl.
  unfold groups_mem. rewrite Hnone. simpl.
  rewrite (add_row_accumulate r k fields _ (seed r))
    by apply groups_find_set_same.
  destruct (accumulate (seed r) r); simpl; [| reflexivity].
  rewrite groups_set_set. now rewrite groups_set_absent.
Qed.

Lemma step_old (g : groups) (r : row) (k : hkey) (a : row) :
  key_of_row r = Ok k -> groups_find g k = Some a ->
  step g r = bind (accumulate a r) (fun a' => Ok (groups_set g k a')).
Proof.
  intros Hk Hsome. unfold Grouping.step. fold key_of_row. rewrite Hk. simpl.
  unfold groups_mem. rewrite Hsome. simpl.
  now apply add_row_accumulate.
Qed.

Lemma keys_snoc (pre : list row) (r : row) (k : hkey) :
  key_of_row r = Ok k -> keys (pre ++ [r]) = keys pre ++ [k].
Proof.
  intros Hk. unfold Grouping.keys. rewrite flat_map_app. simpl.
  fold key_of_row. now rewrite Hk.
Qed.

Lemma group_snoc (pre : list row) (r : row) (k k' : hkey) :
  key_of_row r = Ok k ->
  group k' (pre ++ [r]) = group k' pre ++ (if hkey_eqb k k' then [r] else []).
Proof.
  intros Hk. unfold Grouping.group. rewrite filter_app. simpl.
  fold key_of_row. rewrite Hk. now destruct (hkey_eqb k k').
Qed.

Lemma group_nil (pre : list row) (k : hkey) :
  ~ In k (keys pre) -> group k pre = [].
Proof.
  intros Hnot. induction pre as [| r pre IH]; [reflexivity |].
  unfold Grouping.group, Grouping.keys in *. simpl in *. fold key_of_row in *.
  destruct (key_of_row r) as [k' | e].
  - destruct (hkey_eqb k' k) eqn:E.
    + apply hkey_eqb_eq in E. subst. exfalso. apply Hnot. now left.
    + apply IH. intros H. apply Hnot. now right.
  - apply IH. assumption.
Qed.

Lemma run_groups (insights : list row) :
  forall g, run insights = Ok g ->
            map fst g = first_seen (keys insights)
            /\ Forall (summary insights) g.
Proof.
  unfold Grouping.run.
  induction insights as [| r pre IH] using rev_ind; intros g' Hrun.
  - simpl in Hrun. injection Hrun as <-. split; [reflexivity | constructor].
  - rewrite foldM_app in Hrun. apply bind_Ok in Hrun as (g & Hpre & Hstep).
    simpl in Hstep. apply bind_Ok in Hstep as (g1 & Hstep & Hg1).
    injection Hg1 as ->. destruct (IH g Hpre) as [Hkeys Hall].
    destruct (key_of_row r) as [k | e] eqn:Hk.
    2:{ unfold Grouping.step in Hstep. fold key_of_row in Hstep.
        rewrite Hk in Hstep. discriminate. }
    rewrite (keys_snoc pre r k Hk), first_seen_snoc.
    rewrite Forall_forall in Hall.
    destruct (groups_find g k) as [a |] eqn:Hfind.
    + rewrite (step_old g r k a Hk Hfind) in Hstep.
      apply bind_Ok in Hstep as (a' & Hacc & Hg'). injection Hg' as <-.
      assert (In k (keys pre)) as Hin.
      { apply first_seen_In. rewrite <- Hkeys. apply in_map_iff.
        exists (k, a). split; [reflexivity | now apply groups_find_In]. }
      apply existsb_hkey in Hin as Hex. rewrite Hex. split.
      * rewrite <- Hkeys. now apply groups_set_keys with (r := a).
      * apply Forall_forall. intros kr Hkr.
        apply groups_set_In with (a := a) in Hkr;
          [| rewrite Hkeys; apply first_seen_NoDup | assumption].
        destruct Hkr as [-> | [Hold Hne]].
        -- destruct (Hall (k, a) (groups_find_In _ _ _ Hfind))
             as (first & rest & Hgrp & Hsum).
           exists first, (rest ++ [r]). cbn [fst snd] in *.
           rewrite (group_snoc pre r k k Hk), hkey_eqb_refl, Hgrp. split;
             [reflexivity |].
           rewrite app_comm_cons, foldM_app, Hsum. simpl. now rewrite Hacc.
        -- destruct (Hall kr Hold) as (first & rest & Hgrp & Hsum).
           exists first, rest. rewrite (group_snoc pre r k (fst kr) Hk).
           assert (hkey_eqb k (fst kr) = false) as ->.
           { apply hkey_eqb_neq. congruence. }
           rewrite app_nil_r. now split.
    + rewrite (step_new g r k Hk Hfind) in Hstep.
      apply bind_Ok in Hstep as (a' & Hacc & Hg'). injection Hg' as <-.
      assert (~ In k (keys pre)) as Hnot.
      { rewrite <- first_seen_In, <- Hkeys. now apply groups_find_None. }
      destruct (existsb (hkey_eqb k) (keys pre)) eqn:Hex.
      { apply existsb_hkey in Hex. contradiction. }
      split.
      * rewrite map_app, Hkeys. reflexivity.
      * apply Forall_forall. intros kr Hkr. apply in_app_or in Hkr.
        destruct Hkr as [Hold | [<- | []]].
        -- destruct (Hall kr Hold) as (first & rest & Hgrp & Hsum).
           exists first, rest. rewrite (group_snoc pre r k (fst kr) Hk).
           assert (hkey_eqb k (fst kr) = false) as ->.
           { apply hkey_eqb_neq. intros E. apply Hnot.
             apply first_seen_In. rewrite <- Hkeys. apply in_map_iff.
             exists kr. now split. }
           rewrite app_nil_r. now split.
        -- exists r, []. simpl.
           rewrite (group_snoc pre r k k Hk), hkey_eqb_refl.
           rewrite (group_nil pre k Hnot). split; [reflexivity |].
           simpl. now rewrite Hacc.
Qed.

Hypothesis default_text : is_number default = false.

Lemma number_at_get (r : row) (f : string) :
  number_at r f
  = if is_number (dict_get r f default) then Some (dict_get r f default)
    else None.
Proof.
  unfold number_at, dict_get. destruct (dict_find r f) as [v |].
  - reflexivity.
  - now rewrite default_text.
Qed.

Lemma seed_find_fold (r : row) (f : string) :
  forall (fs : list string) (d : dict),
    In f fs
    \/ dict_find d f
       = Some (if is_number (dict_get r f default) then VInt 0 else VStr "") ->
    dict_find
      (fold_left
         (fun agg_row field =>
            dict_set agg_row field
              (if is_number (dict_get r field default) then VInt 0
               else VStr ""))
         fs d) f
    = Some (if is_number (dict_get r f default) then VInt 0 else VStr "").
Proof.
  induction fs as [| g fs IH]; intros d H; simpl.
  - destruct H as [[] | H]. exact H.
  - apply IH. destruct (string_dec g f) as [-> | Hne].
    + right. apply dict_find_set_same.
    + destruct H as [[? | H] | H]; [contradiction | now left |].
      right. now rewrite dict_find_set_other.
Qed.

Lemma seed_find (r : row) (f : string) :
  In f fields ->
  dict_find (seed r) f
  = Some (if is_number (dict_get r f default) then VInt 0 else VStr "").
Proof. intros H. apply seed_find_fold. now left. Qed.

Lemma seed_mem_fold (r : row) (k : string) :
  forall (fs : list string) (d : dict),
    dict_mem
      (fold_left
         (fun agg_row field =>
            dict_set agg_row field
              (if is_number (dict_get r field default) then VInt 0
               else VStr ""))
         fs d) k
    = dict_mem d k || existsb (String.eqb k) fs.
Proof.
  induction fs as [| g fs IH]; intros d; simpl.
  - now rewrite orb_false_r.
  - rewrite IH, dict_mem_set, (String.eqb_sym k g).
    destruct (String.eqb g k), (dict_mem d k); reflexivity.
Qed.

Lemma accumulate_mem (r : row) (k : string) :
  forall (fs : list string) (a a' : row),
    Grouping.accumulate default fs a r = Ok a' -> dict_mem a' k = dict_mem a k.
Proof.
  unfold Grouping.accumulate.
  induction fs as [| g fs IH]; intros a a' H; simpl in H.
  - now injection H as <-.
  - destruct (is_number (dict_get r g default)).
    + apply bind_Ok in H as (a1 & H1 & H). apply bind_Ok in H1 as (old & Ho & H1).
      apply bind_Ok in H1 as (new & Hn & H1). injection H1 as <-.
      rewrite (IH _ _ H), dict_mem_set.
      destruct (String.eqb_spec g k) as [<- |]; [| reflexivity].
      unfold dict_item in Ho. unfold dict_mem.
      now destruct (dict_find a g).
    + simpl in H. now apply IH.
Qed.

(** One row adds its number to a field once for each occurrence of the
    field in the list, and leaves the field alone when it holds none. *)
Lemma accumulate_field (r : row) (f : string) :
  forall (fs : list string) (a a' : row) (v : value),
    Grouping.accumulate default fs a r = Ok a' ->
    dict_find a f = Some v ->
    exists v',
      dict_find a' f = Some v'
      /\ foldM add (contributions f (count_occ string_dec fs f) [r]) v = Ok v'.
Proof.
  unfold Grouping.accumulate, contributions. simpl.
  rewrite (number_at_get r f).
  induction fs as [| g fs IH]; intros a a' v H Hv; simpl in H.
  - injection H as <-. exists v. split; [assumption |].
    simpl. now destruct (is_number (dict_get r f default)).
  - simpl count_occ. destruct (string_dec g f) as [-> | Hne].
    + destruct (is_number (dict_get r f default)) eqn:En.
      * apply bind_Ok in H as (a1 & H1 & H).
        apply bind_Ok in H1 as (old & Ho & H1).
        apply bind_Ok in H1 as (new & Hn & H1). injection H1 as <-.
        unfold dict_item in Ho. rewrite Hv in Ho. injection Ho as <-.
        destruct (IH _ _ new H (dict_find_set_same a f new)) as (v' & Hf & Hs).
        exists v'. split; [assumption |]. simpl. rewrite Hn. simpl.
        exact Hs.
      * simpl in H. destruct (IH _ _ v H Hv) as (v' & Hf & Hs).
        exists v'. now split.
    + destruct (is_number (dict_get r g default)) eqn:Eg.
      * apply bind_Ok in H as (a1 & H1 & H).
        apply bind_Ok in H1 as (old & Ho & H1).
        apply bind_Ok in H1 as (new & Hn & H1). injection H1 as <-.
        apply (IH _ _ v H). now rewrite dict_find_set_other.
      * simpl in H. now apply (IH _ _ v H).
Qed.

Lemma accumulate_rows (f : string) :
  forall (rows : list row) (a a' : row) (v : value),
    foldM accumulate rows a = Ok a' ->
    dict_find a f = Some v ->
    exists v',
      dict_find a' f = Some v'
      /\ foldM add (contributions f (count_occ string_dec fields f) rows) v
         = Ok v'.
Proof.
  induction rows as [| r rows IH]; intros a a' v H Hv; simpl in H.
  - injection H as <-. exists v. now split.
  - apply bind_Ok in H as (a1 & H1 & H).
    destruct (accumulate_field r f fields a a1 v H1 Hv) as (v1 & Hf1 & Hs1).
    destruct (IH a1 a' v1 H Hf1) as (v' & Hf & Hs).
    exists v'. split; [assumption |].
    rewrite contributions_cons, foldM_app, Hs1. exact Hs.
Qed.

Lemma text_stays (vs : list value) (v : value) :
  Forall (fun x => is_number x = true) vs ->
  foldM add vs (VStr "") = Ok v -> vs = [] /\ v = VStr "".
Proof.
  destruct vs as [| x vs]; simpl; intros Hall H.
  - injection H as <-. now split.
  - inversion Hall as [| ? ? Hx _]; subst.
    destruct x; simpl in Hx; try discriminate; simpl in H; discriminate.
Qed.

(** The row of a group, field by field. *)
Lemma summary_field (insights : list row) (k : hkey) (agg_row : row)
      (first : row) (rest : list row) (f : string) :
  group k insights = first :: rest ->
  foldM accumulate (first :: rest) (seed first) = Ok agg_row ->
  In f fields ->
  match number_at first f with
  | Some _ =>
      exists total,
        py_sum (contributions f (count_occ string_dec fields f) (first :: rest))
        = Ok total
        /\ dict_find agg_row f = Some total
  | None =>
      dict_find agg_row f = Some (VStr "")
      /\ contributions f (count_occ string_dec fields f) (first :: rest) = []
  end.
Proof.
  intros Hgrp Hsum Hin.
  pose proof (seed_find first f Hin) as Hseed.
  destruct (accumulate_rows f (first :: rest) _ _ _ Hsum Hseed)
    as (v & Hf & Hs).
  rewrite number_at_get.
  destruct (is_number (dict_get first f default)).
  - exists v. now split.
  - apply text_stays in Hs as [Hnil ->]; [now split |].
    apply contributions_numbers.
Qed.

Lemma accumulate_rows_mem (name : string) :
  forall (rows : list row) (a a' : row),
    foldM accumulate rows a = Ok a' -> dict_mem a' name = dict_mem a name.
Proof.
  induction rows as [| r rows IH]; intros a a' H; simpl in H.
  - now injection H as <-.
  - apply bind_Ok in H as (a1 & H1 & H).
    rewrite (IH _ _ H). now apply accumulate_mem with (r := r) (fs := fields).
Qed.

Lemma run_settled (insights : list row) (g : groups) :
  run insights = Ok g ->
  Forall2 (settled insights) (first_seen (keys insights)) (groups_values g).
Proof.
  intros Hrun. destruct (run_groups insights g Hrun) as [Hkeys Hall].
  rewrite <- Hkeys. unfold groups_values. clear Hkeys Hrun.
  induction Hall as [| [k agg_row] g (first & rest & Hgrp & Hsum) _ IH];
    simpl; constructor; [| exact IH].
  cbn [fst snd] in Hgrp, Hsum. exists first, rest. split; [exact Hgrp |].
  split.
  - intros f Hin.
    exact (summary_field insights k agg_row first rest f Hgrp Hsum Hin).
  - intros name. rewrite (accumulate_rows_mem name (first :: rest) _ _ Hsum).
    apply seed_mem_fold.
Qed.

End ShapeFacts.

Lemma foldM_ext {A B : Type} (f g : A -> B -> result A) (l : list B) :
  (forall a x, f a x = g a x) -> forall a, foldM f l a = foldM g l a.
Proof.
  intros H. induction l as [| x l IH]; intros a; simpl; [reflexivity |].
  rewrite H. destruct (g a x); simpl; auto.
Qed.

Lemma fold_left_unless {A B : Type} (p : B -> bool) (f : A -> B -> A)
      (l : list B) :
  forall a,
    fold_left (fun a x => if p x then a else f a x) l a
    = fold_left f (filter (fun x => negb (p x)) l) a.
Proof.
  induction l as [| x l IH]; intros a; simpl; [reflexivity |].
  destruct (p x); simpl; apply IH.
Qed.

Lemma foldM_unless {A B : Type} (p : B -> bool) (f : A -> B -> result A)
      (l : list B) :
  forall a,
    foldM (fun a x => if p x then Ok a else f a x) l a
    = foldM f (filter (fun x => negb (p x)) l) a.
Proof.
  induction l as [| x l IH]; intros a; simpl; [reflexivity |].
  destruct (p x); simpl; [apply IH |].
  destruct (f a x); simpl; auto.
Qed.

Lemma aggregate_by_account_run (insights : list row) (fields : list string) :
  aggregate_by_account insights fields
  = bind (run "Account" start_account VNone fields insights)
      (fun g => Ok (groups_values g)).
Proof. reflexivity. Qed.

Lemma aggregate_by_platform_run (insights : list row) (all_fields : list string) :
  aggregate_by_platform insights all_fields
  = bind (run "Platform" start_platform (VStr "")
            (filter not_platform all_fields) insights)
      (fun g => Ok (groups_values g)).
Proof.
  unfold aggregate_by_platform, run. f_equal.
  apply foldM_ext. intros g r. unfold step, key_of_row.
  destruct (key_of (dict_get r "Platform" VNone)) as [k | e]; simpl;
    [| reflexivity].
  unfold seed, start_platform, not_platform.
  rewrite (fold_left_unless (fun field => String.eqb field "Platform")
             (fun agg_row field =>
                dict_set agg_row field
                  (if is_number (dict_get r field (VStr "")) then VInt 0
                   else VStr ""))).
  apply (foldM_unless (fun field => String.eqb field "Platform")
           (fun aggregated field =>
              if is_number (dict_get r field (VStr ""))
              then add_to aggregated k field (dict_get r field (VStr ""))
              else Ok aggregated)).
Qed.

Local Open Scope string_scope.

Lemma py_sum_as_01 (vs : list value) : py_sum (map as_01 vs) = py_sum vs.
Proof.
  unfold py_sum. generalize (VInt 0) as acc.
  induction vs as [| x vs IH]; intros acc; simpl; [reflexivity |].
  assert (add acc (as_01 x) = add acc x) as ->.
  { destruct x; try reflexivity. }
  destruct (add acc x); simpl; auto.
Qed.

Lemma count_occ_not_platform (all_fields : list string) (f : string) :
  f <> "Platform" ->
  count_occ string_dec (filter not_platform all_fields) f
  = count_occ string_dec all_fields f.
Proof.
  intros Hne. induction all_fields as [| g l IH]; [reflexivity |].
  cbn [filter]. destruct (not_platform g) eqn:E.
  - cbn [count_occ]. destruct (string_dec g f); now rewrite IH.
  - rewrite count_occ_cons_neq; [exact IH |].
    unfold not_platform in E. apply negb_false_iff, String.eqb_eq in E.
    congruence.
Qed.

Lemma In_not_platform (all_fields : list string) (f : string) :
  In f all_fields -> f <> "Platform" -> In f (filter not_platform all_fields).
Proof.
  intros Hin Hne. apply filter_In. split; [assumption |].
  unfold not_platform. now destruct (String.eqb_spec f "Platform").
Qed.

Lemma existsb_not_platform (all_fields : list string) (name : string) :
  String.eqb "Platform" name || existsb (String.eqb name) (filter not_platform all_fields)
  = String.eqb name "Platform" || existsb (String.eqb name) all_fields.
Proof.
  rewrite (String.eqb_sym "Platform" name).
  destruct (String.eqb_spec name "Platform") as [-> | Hne]; simpl; [reflexivity |].
  induction all_fields as [| g l IH]; simpl; [reflexivity |].
  unfold not_platform at 1.
  destruct (String.eqb_spec g "Platform") as [-> | Hg]; simpl.
  - destruct (String.eqb_spec name "Platform"); [contradiction | exact IH].
  - now rewrite IH.
Qed.

(** C1, as amended.  Whenever [aggregate_by_account] returns, its rows
    are the groups of the [Account] values in the order of their first
    encounter, one row each.  Under a field of the list that the first row
    of the group holds a number for (an int, a float or a bool, never a
    string of digits) the row holds the sum, from the left and from 0, of
    the numbers the rows of the group hold under it, each counted as many
    times as the field occurs in the list: once in a list without repeats.
    Under a field that the first row holds text or nothing for, the row
    holds the empty string. *)
Theorem aggregate_by_account_sums (insights : list row) (fields : list string)
        (out : list row) :
  aggregate_by_account insights fields = Ok out ->
  Forall2
    (fun k agg_row =>
       exists first rest,
         group "Account" k insights = first :: rest
         /\ forall field,
             In field fields ->
             match number_at first field with
             | Some _ =>
                 exists total,
                   py_sum (contributions field
                             (count_occ string_dec fields field)
                             (first :: rest)) = Ok total
                   /\ dict_find agg_row field = Some total
             | None => dict_find agg_row field = Some (VStr "")
             end)
    (first_seen (keys "Account" insights)) out.
Proof.
  rewrite aggregate_by_account_run. intros H.
  apply bind_Ok in H as (g & Hrun & Hout). injection Hout as <-.
  apply run_settled in Hrun; [| reflexivity].
  eapply Forall2_impl; [| exact Hrun].
  intros k agg_row (first & rest & Hgrp & Hfields & _).
  exists first, rest. split; [exact Hgrp |].
  intros field Hin. specialize (Hfields field Hin).
  destruct (number_at first field); [exact Hfields | apply Hfields].
Qed.

(** The rows of the specification's example: spend 10 and 20 give 30, the
    campaigns A and B give the empty string. *)
Lemma aggregate_by_account_sums_witness :
  Forall2
    (fun k agg_row =>
       exists first rest,
         group "Account" k [spend10; spend20] = first :: rest
         /\ forall field,
             In field ["spend"; "Campaign"] ->
             match number_at first field with
             | Some _ =>
                 exists total,
                   py_sum (contributions field
                             (count_occ string_dec ["spend"; "Campaign"] field)
                             (first :: rest)) = Ok total
                   /\ dict_find agg_row field = Some total
             | None => dict_find agg_row field = Some (VStr "")
             end)
    (first_seen (keys "Account" [spend10; spend20]))
    [[("Platform", VNone); ("Account", VStr "a"); ("spend", VInt 30);
      ("Campaign", VStr "")]].
Proof.
  exact (aggregate_by_account_sums [spend10; spend20] ["spend"; "Campaign"]
           _ eq_refl).
Defined.

(** C1 as it is stated fails on a field list that names a field twice:
    spend 10 and 20 give 60, and their sum is 30. *)
Lemma repeated_field_counts_twice :
  exists agg_row,
    aggregate_by_account [spend10; spend20] ["spend"; "spend"] = Ok [agg_row]
    /\ dict_find agg_row "spend" = Some (VInt 60)
    /\ py_sum (contributions "spend" 1 [spend10; spend20]) = Ok (VInt 30).
Proof. eexists. repeat split. Qed.

(** C3.  A field seeded as text is left alone by later text, and a number
    after a number is added, but a number that follows text in the same
    group is added to the empty string: the call raises TypeError. *)
Theorem aggregate_by_account_mixed_raises :
  aggregate_by_account [text_x] ["x"]
  = Ok [[("Platform", VNone); ("Account", VStr "a"); ("x", VStr "")]]
  /\ aggregate_by_account [number_x; text_x] ["x"]
     = Ok [[("Platform", VNone); ("Account", VStr "a"); ("x", VInt 5)]]
  /\ aggregate_by_account [text_x; number_x] ["x"] = Raise TypeError
  /\ aggregate_by_platform [text_x; number_x] ["x"] = Raise TypeError.
Proof. repeat split. Qed.

(** C8, as amended.  In both aggregators a boolean under a field counts
    as the integer 1 or 0: when the first row of a group holds a boolean
    under a field of the list, the row of the group holds the sum, from
    the left and from the int 0, of the numbers of the group under that
    field with every boolean taken as 1 or 0, each counted as many times
    as the field occurs in the list: once in a list without repeats.
    [aggregate_by_platform] goes past the field named Platform, which is
    left out. *)
Theorem booleans_are_summed (insights : list row) (fields : list string) :
  (forall out,
      aggregate_by_account insights fields = Ok out ->
      Forall2
        (fun k agg_row =>
           exists first rest,
             group "Account" k insights = first :: rest
             /\ forall field b,
                 In field fields ->
                 dict_find first field = Some (VBool b) ->
                 exists total,
                   py_sum (map as_01
                             (contributions field
                                (count_occ string_dec fields field)
                                (first :: rest))) = Ok total
                   /\ dict_find agg_row field = Some total)
        (first_seen (keys "Account" insights)) out)
  /\ (forall out,
         aggregate_by_platform insights fields = Ok out ->
         Forall2
           (fun k agg_row =>
              exists first rest,
                group "Platform" k insights = first :: rest
                /\ forall field b,
                    In field fields -> field <> "Platform" ->
                    dict_find first field = Some (VBool b) ->
                    exists total,
                      py_sum (map as_01
                                (contributions field
                                   (count_occ string_dec fields field)
                                   (first :: rest))) = Ok total
                      /\ dict_find agg_row field = Some total)
           (first_seen (keys "Platform" insights)) out).
Proof.
  split; intros out H.
  - rewrite aggregate_by_account_run in H.
    apply bind_Ok in H as (g & Hrun & Hout). injection Hout as <-.
    apply run_settled in Hrun; [| reflexivity].
    eapply Forall2_impl; [| exact Hrun].
    intros k agg_row (first & rest & Hgrp & Hfields & _).
    exists first, rest. split; [exact Hgrp |].
    intros field b Hin Hb. specialize (Hfields field Hin).
    unfold number_at in Hfields. rewrite Hb in Hfields. simpl in Hfields.
    now rewrite py_sum_as_01.
  - rewrite aggregate_by_platform_run in H.
    apply bind_Ok in H as (g & Hrun & Hout). injection Hout as <-.
    apply run_settled in Hrun; [| reflexivity].
    eapply Forall2_impl; [| exact Hrun].
    intros k agg_row (first & rest & Hgrp & Hfields & _).
    exists first, rest. split; [exact Hgrp |].
    intros field b Hin Hne Hb.
    specialize (Hfields field (In_not_platform _ _ Hin Hne)).
    unfold number_at in Hfields. rewrite Hb in Hfields. simpl in Hfields.
    rewrite py_sum_as_01. now rewrite <- (count_occ_not_platform fields field Hne).
Qed.

(** Three rows of one account under a field the list names twice: True,
    False and True count 4. *)
Lemma booleans_are_summed_witness :
  Forall2
    (fun k agg_row =>
       exists first rest,
         group "Account" k [flag true; flag false; flag true] = first :: rest
         /\ forall field b,
             In field ["ok"; "ok"] ->
             dict_find first field = Some (VBool b) ->
             exists total,
               py_sum (map as_01
                         (contributions field
                            (count_occ string_dec ["ok"; "ok"] field)
                            (first :: rest))) = Ok total
               /\ dict_find agg_row field = Some total)
    (first_seen (keys "Account" [flag true; flag false; flag true]))
    [[("Platform", VStr "ga4"); ("Account", VStr "a"); ("ok", VInt 4)]].
Proof.
  exact (proj1 (booleans_are_summed [flag true; flag false; flag true]
                  ["ok"; "ok"])
           _ eq_refl).
Defined.

(** C8 as it is stated fails twice.  On the field named Platform in
    [aggregate_by_platform] a boolean stays the boolean, where the sum
    from 0 is the int 1.  And under a field that the list names twice one
    True adds 2. *)
Lemma booleans_need_not_add_one :
  aggregate_by_platform [[("Platform", VBool true)]] ["Platform"]
  = Ok [[("Platform", VBool true)]]
  /\ py_sum (map as_01 (contributions "Platform" 1 [[("Platform", VBool true)]]))
     = Ok (VInt 1)
  /\ aggregate_by_account [flag true] ["ok"; "ok"]
     = Ok [[("Platform", VStr "ga4"); ("Account", VStr "a"); ("ok", VInt 2)]]
  /\ aggregate_by_platform [flag true] ["ok"; "ok"]
     = Ok [[("Platform", VStr "ga4"); ("ok", VInt 2)]].
Proof. repeat split. Qed.

End GroupFacts.

(** ** The CSV writer *)

Module CsvFacts.

Import Py Words.

Local Open Scope string_scope.

Lemma append_assoc (a b c : string) : (a ++ b) ++ c = a ++ (b ++ c).
Proof. induction a as [| x a IH]; simpl; [reflexivity | now rewrite IH]. Qed.

Lemma append_nil_r (a : string) : a ++ "" = a.
Proof. induction a as [| x a IH]; simpl; [reflexivity | now rewrite IH]. Qed.

Lemma mapM_Ok {A B : Type} (f : A -> B) (l : list A) :
  mapM (fun x => Ok (f x)) l = Ok (map f l).
Proof.
  induction l as [| x l IH]; cbn [mapM map bind]; [reflexivity |].
  now rewrite IH.
Qed.

Lemma mapM_map {A B C : Type} (g : A -> B) (f : B -> result C) (l : list A) :
  mapM f (map g l) = mapM (fun x => f (g x)) l.
Proof.
  induction l as [| x l IH]; cbn [mapM map]; [reflexivity |].
  now rewrite IH.
Qed.

Lemma mapM_ext_in {A B : Type} (f g : A -> result B) (l : list A) :
  (forall x, In x l -> f x = g x) -> mapM f l = mapM g l.
Proof.
  induction l as [| x l IH]; intros H; cbn [mapM]; [reflexivity |].
  rewrite (H x (or_introl eq_refl)), IH; [reflexivity |].
  intros y Hy. apply H. now right.
Qed.

Lemma mapM_cons {A B : Type} (f : A -> result B) (x : A) (l : list A)
      (ys : list B) :
  mapM f (x :: l) = Ok ys ->
  exists y ys', ys = y :: ys' /\ f x = Ok y /\ mapM f l = Ok ys'.
Proof.
  cbn [mapM]. destruct (f x) as [y | e]; cbn [bind]; [| discriminate].
  destruct (mapM f l) as [ys' | e]; cbn [bind]; [| discriminate].
  intros H. injection H as <-. eauto.
Qed.

Lemma mapM_Forall2 {A B : Type} (f : A -> result B) (l : list A)
      (ys : list B) :
  mapM f l = Ok ys <-> Forall2 (fun x y => f x = Ok y) l ys.
Proof.
  revert ys. induction l as [| x l IH]; intros ys; split.
  - intros H. injection H as <-. constructor.
  - intros H. inversion H. reflexivity.
  - intros H. apply mapM_cons in H as (y & ys' & -> & Hy & Hys).
    constructor; [exact Hy | now apply IH].
  - intros H. inversion H as [| ? y ? ys' Hy Hys]; subst.
    cbn [mapM]. rewrite Hy. cbn [bind].
    apply IH in Hys. now rewrite Hys.
Qed.

Lemma mapM_raises {A B : Type} (f : A -> result B) (l : list A) (e : exn) :
  mapM f l = Raise e -> exists x, In x l /\ f x = Raise e.
Proof.
  induction l as [| x l IH]; cbn [mapM]; [discriminate |].
  destruct (f x) as [y | e'] eqn:Hx; cbn [bind].
  - destruct (mapM f l) as [ys | e'']; cbn [bind]; [discriminate |].
    intros H. injection H as ->.
    destruct (IH eq_refl) as (z & Hz & Hfz). exists z. split; [now right | exact Hfz].
  - intros H. injection H as ->. exists x. split; [now left | exact Hx].
Qed.

Lemma hdict_find_set_same (h : Csv.hdict) (k : hkey) (v : value) :
  Csv.hdict_find (Csv.hdict_set h k v) k = Some v.
Proof.
  induction h as [| [k' v'] h IH]; cbn [Csv.hdict_set Csv.hdict_find].
  - now rewrite GroupFacts.hkey_eqb_refl.
  - destruct (hkey_eqb k' k) eqn:E; cbn [Csv.hdict_find]; now rewrite E.
Qed.

Lemma hdict_find_set_other (h : Csv.hdict) (k k' : hkey) (v : value) :
  k <> k' ->
  Csv.hdict_find (Csv.hdict_set h k v) k' = Csv.hdict_find h k'.
Proof.
  intros Hne. induction h as [| [k0 v0] h IH];
    cbn [Csv.hdict_set Csv.hdict_find].
  - apply GroupFacts.hkey_eqb_neq in Hne. now rewrite Hne.
  - destruct (hkey_eqb k0 k) eqn:E; cbn [Csv.hdict_find].
    + apply GroupFacts.hkey_eqb_eq in E. subst k0.
      apply GroupFacts.hkey_eqb_neq in Hne. now rewrite Hne.
    + now rewrite IH.
Qed.

(** The key of a value stored in the header is the key it is stored
    under. *)
Local Abbreviation keyed_by_value h :=
  (forall k v, Csv.hdict_find h k = Some v -> key_of v = Ok k).

Lemma header_build (fieldnames : list value) :
  forall h h',
    foldM (fun header name =>
             (k <- key_of name ;; Ok (Csv.hdict_set header k name))%py)
      fieldnames h
    = Ok h' ->
    keyed_by_value h ->
    keyed_by_value h'
    /\ (forall k, Csv.hdict_find h k <> None -> Csv.hdict_find h' k <> None)
    /\ Forall
         (fun name =>
            exists k, key_of name = Ok k /\ Csv.hdict_find h' k <> None)
         fieldnames.
Proof.
  induction fieldnames as [| name l IH]; intros h h' H Hh; cbn [foldM] in H.
  - injection H as <-. repeat split; [exact Hh | auto | constructor].
  - destruct (key_of name) as [k | e] eqn:Hk; cbn [bind] in H;
      [| discriminate].
    assert (Hset : keyed_by_value (Csv.hdict_set h k name)).
    { intros k' v Hfind.
      destruct (GroupFacts.hkey_eqb_eq k k') as [_ Heq].
      destruct (hkey_eqb k k') eqn:E.
      - apply GroupFacts.hkey_eqb_eq in E. subst k'.
        rewrite hdict_find_set_same in Hfind. now injection Hfind as <-.
      - apply GroupFacts.hkey_eqb_neq in E.
        rewrite hdict_find_set_other in Hfind by exact E. now apply Hh. }
    destruct (IH _ _ H Hset) as (Hkeyed & Hmono & Hall).
    split; [exact Hkeyed |]. split.
    + intros k' Hin. apply Hmono.
      destruct (hkey_eqb k k') eqn:E.
      * apply GroupFacts.hkey_eqb_eq in E. subst k'.
        now rewrite hdict_find_set_same.
      * apply GroupFacts.hkey_eqb_neq in E.
        now rewrite hdict_find_set_other.
    + constructor; [| exact Hall].
      exists k. split; [exact Hk |]. apply Hmono.
      now rewrite hdict_find_set_same.
Qed.

Section WriterFacts.

Variable repr_of_str : string -> string.

Local Abbreviation text := (Csv.text repr_of_str).
Local Abbreviation writerow := (Csv.writerow repr_of_str).
Local Abbreviation writeheader := (Csv.writeheader repr_of_str).
Local Abbreviation dict_writerow := (Csv.dict_writerow repr_of_str).
Local Abbreviation generate_csv := (Csv.generate_csv repr_of_str).

(** The header holds, for every field name, a cell of the same key. *)
Lemma writeheader_cells (fieldnames : list value) (out : string) :
  writeheader fieldnames = Ok out ->
  exists cells,
    writerow cells = Ok out
    /\ Forall2 (fun name cell => key_of cell = key_of name) fieldnames cells.
Proof.
  unfold Csv.writeheader. intros H.
  apply GroupFacts.bind_Ok in H as (header & Hbuild & H).
  destruct (header_build fieldnames [] header Hbuild) as (Hkeyed & _ & Hall).
  { intros k v Hfind. discriminate. }
  set (cell_of := fun name =>
                    match key_of name with
                    | Ok k => match Csv.hdict_find header k with
                              | Some v => v
                              | None => VStr ""
                              end
                    | Raise _ => VStr ""
                    end).
  exists (map cell_of fieldnames). split.
  - unfold Csv.writerow. rewrite mapM_map.
    erewrite mapM_ext_in; [exact H |].
    intros name Hin. rewrite Forall_forall in Hall.
    destruct (Hall name Hin) as (k & Hk & _).
    unfold cell_of. now rewrite Hk.
  - clear H Hbuild. induction Hall as [| name l (k & Hk & Hin) _ IH];
      cbn [map]; constructor; [| exact IH].
    unfold cell_of. rewrite Hk.
    destruct (Csv.hdict_find header k) as [v |] eqn:Hv; [| contradiction].
    now apply Hkeyed.
Qed.

Lemma same_string (s : string) (cell : value) :
  key_of cell = key_of (VStr s) -> cell = VStr s.
Proof.
  destruct cell as [| b | n | x | t | l | d]; cbn; try discriminate.
  now intros [= ->].
Qed.

Lemma same_strings (names : list string) (cells : list value) :
  Forall2 (fun name cell => key_of cell = key_of name) (map VStr names) cells ->
  cells = map VStr names.
Proof.
  revert cells. induction names as [| s names IH]; intros cells H;
    inversion H as [| ? cell ? cells' Hc Hcs]; subst; [reflexivity |].
  cbn [map]. f_equal; [now apply same_string | now apply IH].
Qed.

Lemma text_VStr (s : string) : text (VStr s) = Ok s.
Proof. reflexivity. Qed.

Lemma writerow_names (names : list string) :
  writerow (map VStr names) = Ok (Csv.record names).
Proof.
  unfold Csv.writerow. rewrite mapM_map. cbn [Csv.text].
  rewrite mapM_Ok, map_id. reflexivity.
Qed.

Lemma key_of_names (names : list string) :
  forall h,
    exists h',
      foldM (fun header name =>
               (k <- key_of name ;; Ok (Csv.hdict_set header k name))%py)
        (map VStr names) h
      = Ok h'.
Proof.
  induction names as [| s names IH]; intros h; cbn [map foldM].
  - now exists h.
  - cbn [key_of bind]. apply IH.
Qed.

Lemma writeheader_names (names : list string) :
  writeheader (map VStr names) = Ok (Csv.record names).
Proof.
  destruct (writeheader (map VStr names)) as [out | e] eqn:H.
  - apply writeheader_cells in H as (cells & Hrow & Hsame).
    apply same_strings in Hsame. subst cells.
    rewrite writerow_names in Hrow. now symmetry.
  - exfalso. unfold Csv.writeheader in H.
    destruct (key_of_names names []) as [h Hh]. rewrite Hh in H.
    cbn [bind] in H.
    destruct (header_build _ _ _ Hh) as (Hkeyed & _ & Hall).
    { intros k v Hfind. discriminate. }
    destruct (mapM _ (map VStr names)) as [texts | e'] eqn:Ht;
      cbn [bind] in H; [discriminate |].
    apply mapM_raises in Ht as (name & Hin & Hname).
    rewrite Forall_forall in Hall. destruct (Hall name Hin) as (k & Hk & Hf).
    rewrite Hk in Hname. cbn [bind] in Hname.
    destruct (Csv.hdict_find h k) as [v |] eqn:Hv; [| contradiction].
    apply Hkeyed in Hv. apply in_map_iff in Hin as (s & <- & _).
    rewrite <- Hk in Hv. apply same_string in Hv. subst v. discriminate.
Qed.

(** The texts of the cells of a row under the field names. *)
Lemma dict_writerow_names (names : list string) (rowdict : row) :
  dict_writerow (map VStr names) rowdict
  = (texts <- mapM (fun key => text (dict_get rowdict key (VStr ""))) names ;;
     Ok (Csv.record texts))%py.
Proof. unfold Csv.dict_writerow. now rewrite mapM_map. Qed.

Lemma fold_lines (f : row -> result string) (rows : list row) :
  forall output,
    foldM (fun output row => (line <- f row ;; Ok (output ++ line))%py)
      rows output
    = (ls <- mapM f rows ;;
       Ok (output ++ fold_right String.append "" ls))%py.
Proof.
  induction rows as [| r rows IH]; intros output; cbn [foldM mapM bind].
  - cbn. now rewrite append_nil_r.
  - destruct (f r) as [line | e]; cbn [bind]; [| reflexivity].
    rewrite IH. destruct (mapM f rows) as [ls | e]; cbn [bind];
      [| reflexivity].
    cbn [fold_right]. now rewrite append_assoc.
Qed.

Lemma mapM_bind {A B C : Type} (f : A -> result B) (g : B -> C)
      (l : list A) :
  mapM (fun x => (y <- f x ;; Ok (g y))%py) l
  = (ys <- mapM f l ;; Ok (map g ys))%py.
Proof.
  induction l as [| x l IH]; cbn [mapM bind map]; [reflexivity |].
  destruct (f x) as [y | e]; cbn [bind]; [| reflexivity].
  rewrite IH. now destruct (mapM f l).
Qed.

Lemma lines_records (records : list (list string)) :
  fold_right String.append "" (map Csv.record records) = lines records.
Proof.
  induction records as [| r records IH]; cbn; [reflexivity |].
  now rewrite IH.
Qed.

(** The outcome of [generate_csv] under field names that are strings. *)
Lemma generate_csv_names (rows : list row) (fieldnames : list string) :
  generate_csv rows (map VStr fieldnames)
  = (records <-
       mapM (fun row =>
               mapM (fun key => text (dict_get row key (VStr ""))) fieldnames)
         rows ;;
     Ok (lines (fieldnames :: records)))%py.
Proof.
  unfold Csv.generate_csv. rewrite writeheader_names. cbn [bind].
  rewrite fold_lines.
  erewrite mapM_ext_in; [| intros r _; apply dict_writerow_names].
  rewrite mapM_bind.
  match goal with
  | |- _ = bind ?m _ => change (mapM _ rows) with m; destruct m as [records | e]
  end; cbn [bind]; [| reflexivity].
  now rewrite lines_records.
Qed.

(** Whatever the field names, the text starts with the header. *)
Lemma generate_csv_header (rows : list row) (fieldnames : list value)
      (body : string) :
  generate_csv rows fieldnames = Ok body ->
  exists header tail,
    writeheader fieldnames = Ok header /\ body = header ++ tail.
Proof.
  unfold Csv.generate_csv. intros H.
  apply GroupFacts.bind_Ok in H as (header & Hh & H).
  rewrite fold_lines in H.
  apply GroupFacts.bind_Ok in H as (ls & _ & H). injection H as <-.
  eauto.
Qed.

Lemma field_plain (s : string) : plain s = true -> Csv.field s = s.
Proof.
  unfold plain, Csv.field. now destruct (Csv.any_char Csv.special s).
Qed.

Lemma join_empty (l : list string) :
  join "," l = "" -> l = [] \/ l = [""].
Proof.
  destruct l as [| s [| t l]]; simpl; intros H; auto.
  - right. now subst.
  - destruct s; simpl in H; discriminate.
Qed.

Lemma record_plain (cells : list string) :
  Forall (fun s => plain s = true) cells -> cells <> [""] ->
  Csv.record cells = join "," cells ++ Csv.lineterminator.
Proof.
  intros Hplain Hne. unfold Csv.record.
  assert (map Csv.field cells = cells) as ->.
  { rewrite <- (map_id cells) at 2. apply map_ext_in.
    intros s Hs. apply field_plain. rewrite Forall_forall in Hplain. auto. }
  destruct cells as [| s cells]; [reflexivity |].
  destruct (String.eqb_spec (join "," (s :: cells)) "") as [E |];
    [| reflexivity].
  apply join_empty in E as [E | E]; congruence.
Qed.

(** [repr] raises for an int that is too long, and for nothing else. *)
Lemma repr_raises :
  forall (v : value) (e : exn),
    Py.repr repr_of_str v = Raise e -> e = ValueError.
Proof.
  fix IH 1. intros [| b | n | x | s | l | d] e; cbn [Py.repr];
    try discriminate.
  - unfold int_str. destruct (_ <? _)%Z; [now intros [= <-] | discriminate].
  - match goal with
    | |- bind (?each l) _ = _ -> _ =>
        assert (Hl : forall e', each l = Raise e' -> e' = ValueError)
    end.
    { induction l as [| x xs IHl]; intros e'; [discriminate |].
      destruct (Py.repr repr_of_str x) as [sx | ex] eqn:Hx; cbn [bind].
      - match goal with
        | |- bind ?r _ = _ -> _ => destruct r eqn:Hr
        end; cbn [bind]; [discriminate |].
        intros [= <-]. now apply IHl.
      - intros [= <-]. exact (IH x ex Hx). }
    match goal with
    | |- bind ?r _ = _ -> _ => destruct r
    end; cbn [bind]; [discriminate |].
    intros [= <-]. now apply Hl.
  - match goal with
    | |- bind (?each d) _ = _ -> _ =>
        assert (Hd : forall e', each d = Raise e' -> e' = ValueError)
    end.
    { induction d as [| [k x] xs IHd]; intros e'; [discriminate |].
      destruct (Py.repr repr_of_str x) as [sx | ex] eqn:Hx; cbn [bind].
      - match goal with
        | |- bind ?r _ = _ -> _ => destruct r eqn:Hr
        end; cbn [bind]; [discriminate |].
        intros [= <-]. now apply IHd.
      - intros [= <-]. exact (IH x ex Hx). }
    match goal with
    | |- bind ?r _ = _ -> _ => destruct r
    end; cbn [bind]; [discriminate |].
    intros [= <-]. now apply Hd.
Qed.

Lemma text_raises (v : value) (e : exn) :
  text v = Raise e -> e = ValueError.
Proof.
  destruct v; cbn [Csv.text Py.str_of]; try discriminate;
    apply repr_raises.
Qed.

Lemma generate_csv_agree (fieldnames : list string) (rows rows' : list row) :
  Forall2 (agree fieldnames) rows rows' ->
  generate_csv rows' (map VStr fieldnames)
  = generate_csv rows (map VStr fieldnames).
Proof.
  intros H. rewrite !generate_csv_names.
  assert (mapM (fun row =>
                  mapM (fun key => text (dict_get row key (VStr "")))
                    fieldnames) rows'
          = mapM (fun row =>
                    mapM (fun key => text (dict_get row key (VStr "")))
                      fieldnames) rows) as ->; [| reflexivity].
  induction H as [| r r' rows rows' Hr _ IH]; cbn [mapM]; [reflexivity |].
  rewrite IH.
  assert (mapM (fun key => text (dict_get r' key (VStr ""))) fieldnames
          = mapM (fun key => text (dict_get r key (VStr ""))) fieldnames)
    as ->; [| reflexivity].
  apply mapM_ext_in. intros k Hk. unfold dict_get. now rewrite (Hr k Hk).
Qed.

Lemma generate_csv_raises (fieldnames : list string) (rows : list row)
      (e : exn) :
  generate_csv rows (map VStr fieldnames) = Raise e -> e = ValueError.
Proof.
  rewrite generate_csv_names.
  match goal with
  | |- bind ?m _ = _ -> _ => destruct m as [records | e'] eqn:H
  end; cbn [bind]; [discriminate |].
  intros [= <-]. apply mapM_raises in H as (r & _ & H).
  apply mapM_raises in H as (key & _ & H). exact (text_raises _ _ H).
Qed.


End WriterFacts.

Lemma plain_names :
  Forall (fun s => plain s = true) ["Platform"; "Account"; "spend"].
Proof. repeat constructor. Qed.

Lemma not_the_empty_name : ["Platform"; "Account"; "spend"] <> [""].
Proof. discriminate. Qed.



End CsvFacts.
(** ** Cost per Click *)

Module CostFacts.

Import Py Insights Examples GroupFacts.

Local Open Scope string_scope.

Lemma dict_get_set_same (d : dict) (k : string) (v dflt : value) :
  dict_get (dict_set d k v) k dflt = v.
Proof. unfold dict_get. now rewrite dict_find_set_same. Qed.

Lemma dict_get_set_other (d : dict) (k k' : string) (v dflt : value) :
  k <> k' -> dict_get (dict_set d k v) k' dflt = dict_get d k' dflt.
Proof. intros H. unfold dict_get. now rewrite dict_find_set_other. Qed.

Section CostFacts.

Variable float_of_str : string -> option float.

Local Abbreviation cost_per_click := (cost_per_click float_of_str).
Local Abbreviation derive := (derive float_of_str).
Local Abbreviation float_of := (Py.float_of float_of_str).
Local Abbreviation has_CPC :=
  (existsb (fun name => Py.eq name (VStr CPC))).

Lemma has_CPC_app (l : list value) : has_CPC (l ++ [VStr CPC])%list = true.
Proof.
  rewrite existsb_app. cbn [existsb Py.eq]. rewrite String.eqb_refl.
  apply orb_true_r.
Qed.

Lemma derive_cons (rest : list row) (row : row) (all_fields : list value) :
  derive (row :: rest) all_fields
  = if is_ga4 row then
      (dict_set row CPC (cost_per_click row)
         :: fst (derive rest
                   (if negb (has_CPC all_fields)
                    then (all_fields ++ [VStr CPC])%list else all_fields)),
       snd (derive rest
              (if negb (has_CPC all_fields)
               then (all_fields ++ [VStr CPC])%list else all_fields)))
    else (row :: fst (derive rest all_fields), snd (derive rest all_fields)).
Proof.
  cbn [Insights.derive]. destruct (is_ga4 row).
  - now destruct (Insights.derive float_of_str rest _).
  - now destruct (Insights.derive float_of_str rest all_fields).
Qed.

Lemma derive_rows (insights_all : list row) :
  forall all_fields,
    fst (derive insights_all all_fields)
    = map (fun row =>
             if is_ga4 row then dict_set row CPC (cost_per_click row) else row)
        insights_all.
Proof.
  induction insights_all as [| row rest IH]; intros all_fields;
    [reflexivity |].
  rewrite derive_cons. cbn [map].
  destruct (is_ga4 row); cbn [fst]; now rewrite IH.
Qed.

Lemma derive_fields (insights_all : list row) :
  forall all_fields,
    snd (derive insights_all all_fields)
    = if existsb is_ga4 insights_all && negb (has_CPC all_fields)
      then (all_fields ++ [VStr CPC])%list else all_fields.
Proof.
  induction insights_all as [| row rest IH]; intros all_fields;
    [reflexivity |].
  rewrite derive_cons. cbn [existsb].
  destruct (is_ga4 row); cbn [snd orb]; rewrite IH; [| reflexivity].
  destruct (has_CPC all_fields) eqn:E; cbn [negb].
  - rewrite E. cbn [negb]. now rewrite !andb_false_r.
  - rewrite has_CPC_app. cbn [negb andb]. now rewrite andb_false_r.
Qed.

(** The pass does not change what it reads. *)
Lemma is_ga4_set (row : row) (v : value) :
  is_ga4 (dict_set row CPC v) = is_ga4 row.
Proof.
  unfold is_ga4. now rewrite dict_get_set_other by discriminate.
Qed.

Lemma operand_set (row : row) (v : value) (lower upper : string) :
  CPC <> lower -> CPC <> upper ->
  operand (dict_set row CPC v) lower upper = operand row lower upper.
Proof.
  intros Hl Hu. unfold operand.
  now rewrite !dict_get_set_other by assumption.
Qed.

Lemma cost_per_click_set (row : row) (v : value) :
  cost_per_click (dict_set row CPC v) = cost_per_click row.
Proof.
  unfold Insights.cost_per_click.
  now rewrite !operand_set by discriminate.
Qed.

Lemma existsb_is_ga4_derive (insights_all : list row)
      (all_fields : list value) :
  existsb is_ga4 (fst (derive insights_all all_fields))
  = existsb is_ga4 insights_all.
Proof.
  rewrite derive_rows. induction insights_all as [| row rest IH];
    [reflexivity |].
  cbn [map existsb]. rewrite IH. f_equal.
  destruct (is_ga4 row) eqn:E; [| exact E]. now rewrite is_ga4_set.
Qed.

(** Every ga4 row that leaves the pass holds its Cost per Click. *)
Lemma derive_holds (insights_all : list row) (all_fields : list value) :
  Forall
    (fun row =>
       is_ga4 row = true -> dict_find row CPC = Some (cost_per_click row))
    (fst (derive insights_all all_fields)).
Proof.
  rewrite derive_rows. apply Forall_map, Forall_forall. intros row _.
  destruct (is_ga4 row) eqn:E; [| congruence].
  intros _. now rewrite dict_find_set_same, cost_per_click_set.
Qed.

(** The value by cases. *)
Lemma cost_per_click_cases (row : row) :
  let spend := operand row "spend" "Spend" in
  let clicks := operand row "clicks" "Clicks" in
  (truthy clicks = false -> cost_per_click row = VInt 0)
  /\ (forall x y,
         truthy clicks = true -> float_of spend = Ok x ->
         float_of clicks = Ok y ->
         cost_per_click row = if (y =? 0)%float then VInt 0 else VFloat (x / y))
  /\ (forall e,
         truthy clicks = true ->
         float_of spend = Raise e \/ float_of clicks = Raise e ->
         cost_per_click row = VInt 0).
Proof.
  intros spend clicks. unfold Insights.cost_per_click.
  fold spend clicks. split; [| split].
  - intros ->. reflexivity.
  - intros x y Ht Hx Hy. rewrite Ht, Hx. cbn [bind]. rewrite Hy.
    cbn [bind]. unfold truediv. now destruct (y =? 0)%float.
  - intros e Ht [H | H]; rewrite Ht; [now rewrite H |].
    destruct (float_of spend); cbn [bind]; [now rewrite H | reflexivity].
Qed.

(** The rows of the specification: 100 by 50 is 2.0, 100 by 0 is 0. *)
Lemma cost_per_click_examples :
  cost_per_click ga4_100_50 = VFloat 2 /\ cost_per_click ga4_100_0 = VInt 0.
Proof. split; reflexivity. Qed.

End CostFacts.

End CostFacts.
(** ** The paginated fetches *)

Module FetchFacts.

Import Http Fetch Paging Outage Policy.

Section FetchFacts.

Variable world : Type.
Variable requests_get : request -> world -> result response * world.

Local Abbreviation fetch_api := (fetch_api requests_get).
Local Abbreviation paginate := (paginate requests_get).

Lemma bindM_run {A B : Type} (m : M world A) (k : A -> M world B)
      (n n1 : net world) (r : result A) :
  m n = Some (r, n1) ->
  bindM m k n
  = match r with Ok a => k a n1 | Raise e => Some (Raise e, n1) end.
Proof. intros H. unfold bindM. now rewrite H. Qed.

Lemma bindM_ret {A B : Type} (a : A) (k : A -> M world B) (n : net world) :
  bindM (ret a) k n = k a n.
Proof. reflexivity. Qed.

Lemma bindM_assoc {A B C : Type} (m : M world A) (f : A -> M world B)
      (g : B -> M world C) (n : net world) :
  bindM (bindM m f) g n = bindM m (fun x => bindM (f x) g) n.
Proof. unfold bindM. now destruct (m n) as [[[a | e] n1] |]. Qed.

Lemma fetch_api_unfold (endpoint : string) (params : value) (n : net world) :
  fetch_api endpoint params true n
  = Some (match fst (requests_get (the_request endpoint params) (upstream n)) with
          | Ok resp => Ok (payload resp)
          | Raise e => Raise e
          end,
          Net (snd (requests_get (the_request endpoint params) (upstream n)))
            (sent n ++ [the_request endpoint params])).
Proof.
  unfold Fetch.fetch_api, the_request, payload, Wire.bearer_headers.
  cbn [Py.truthy String.eqb negb app].
  destruct (requests_get _ (upstream n)) as [[resp | e] w]; cbn [fst snd];
    [| reflexivity].
  destruct (status_code resp =? 200)%Z; [| reflexivity].
  now destruct (json resp).
Qed.

Lemma get_accounts_loop_paginate (fuel : nat) :
  forall platform accounts page n,
    get_accounts_loop requests_get fuel platform accounts page n
    = paginate fuel "/accounts" [("platform"%string, platform)] "accounts"
        accounts page n.
Proof.
  induction fuel as [| fuel IH]; intros platform accounts page n;
    [reflexivity |].
  cbn [get_accounts_loop Fetch.paginate app]. unfold bindM, lift, ret.
  destruct (fetch_api _ _ _ n) as [[[data | e] n1] |]; try reflexivity.
  destruct (negb (Py.truthy data)); [reflexivity |].
  destruct (Py.get data "accounts" (VList [])) as [new |]; [| reflexivity].
  destruct (negb (Py.truthy new)); [reflexivity |].
  destruct (Py.iterate new) as [items |]; [| reflexivity].
  destruct (Py.get data "pagination" (VDict [])) as [pg |]; [| reflexivity].
  destruct (Py.get pg "current" (VInt 1)) as [cur |]; [| reflexivity].
  destruct (Py.get pg "total" (VInt 1)) as [tot |]; [| reflexivity].
  destruct (Py.ge cur tot) as [[|] |]; try reflexivity.
  apply IH.
Qed.

Lemma get_fields_loop_paginate (fuel : nat) :
  forall platform fields page n,
    get_fields_loop requests_get fuel platform fields page n
    = paginate fuel "/fields" [("platform"%string, platform)] "fields"
        fields page n.
Proof.
  induction fuel as [| fuel IH]; intros platform fields page n;
    [reflexivity |].
  cbn [get_fields_loop Fetch.paginate app]. unfold bindM, lift, ret.
  destruct (fetch_api _ _ _ n) as [[[data | e] n1] |]; try reflexivity.
  destruct (negb (Py.truthy data)); [reflexivity |].
  destruct (Py.get data "fields" (VList [])) as [new |]; [| reflexivity].
  destruct (negb (Py.truthy new)); [reflexivity |].
  destruct (Py.iterate new) as [items |]; [| reflexivity].
  destruct (Py.get data "pagination" (VDict [])) as [pg |]; [| reflexivity].
  destruct (Py.get pg "current" (VInt 1)) as [cur |]; [| reflexivity].
  destruct (Py.get pg "total" (VInt 1)) as [tot |]; [| reflexivity].
  destruct (Py.ge cur tot) as [[|] |]; try reflexivity.
  apply IH.
Qed.

Lemma get_insights_loop_paginate (fuel : nat) :
  forall platform account account_token fields_str insights page n,
    get_insights_loop requests_get fuel platform account account_token
      fields_str insights page n
    = paginate fuel "/insights"
        [("platform", platform); ("account", account);
         ("token", account_token); ("fields", VStr fields_str)]%string
        "insights" insights page n.
Proof.
  induction fuel as [| fuel IH];
    intros platform account account_token fields_str insights page n;
    [reflexivity |].
  cbn [get_insights_loop Fetch.paginate app]. unfold bindM, lift, ret.
  destruct (fetch_api _ _ _ n) as [[[data | e] n1] |]; try reflexivity.
  destruct (negb (Py.truthy data)); [reflexivity |].
  destruct (Py.get data "insights" (VList [])) as [new |]; [| reflexivity].
  destruct (negb (Py.truthy new)); [reflexivity |].
  destruct (Py.iterate new) as [items |]; [| reflexivity].
  destruct (Py.get data "pagination" (VDict [])) as [pg |]; [| reflexivity].
  destruct (Py.get pg "current" (VInt 1)) as [cur |]; [| reflexivity].
  destruct (Py.get pg "total" (VInt 1)) as [tot |]; [| reflexivity].
  destruct (Py.ge cur tot) as [[|] |]; try reflexivity.
  apply IH.
Qed.

Lemma fetch_api_sent (endpoint : string) (params : value) (use_bearer : bool)
      (n n1 : net world) (r : result value) :
  fetch_api endpoint params use_bearer n = Some (r, n1) ->
  exists req,
    sent n1 = sent n ++ [req]
    /\ url req = String.append Config.BASE_API_URL endpoint
    /\ Http.params req = params.
Proof.
  unfold Fetch.fetch_api.
  destruct (requests_get _ (upstream n)) as [[resp | e] w].
  - intros H. eexists.
    destruct (status_code resp =? 200)%Z; [destruct (json resp) |];
      injection H as _ <-; simpl; repeat split.
  - intros H. injection H as _ <-. eexists. simpl. repeat split.
Qed.

Lemma one_is_one : Py.ge (VInt 1) (VInt 1) = Ok true.
Proof. reflexivity. Qed.

(** The paginator of the specification decides on its first page as the
    policy says; what becomes of the items is the caller's. *)
Lemma paginate_first_page (fuel : nat) (endpoint : string) (fixed : dict)
      (array : string) (post : list value -> result (list value)) :
  first_page_policy requests_get fuel
    (bindM (paginate (S fuel) endpoint fixed array [] 1)
       (fun items => lift (post items)))
    endpoint fixed array post.
Proof.
  intros n resp w Hget n1 data.
  assert (Hfetch :
            fetch_api endpoint (page_params fixed 1) true n
            = Some (Ok data, n1)).
  { rewrite fetch_api_unfold, Hget. reflexivity. }
  cbn [Fetch.paginate]. change (VDict (fixed ++ [("page"%string, VInt 1)]))
    with (page_params fixed 1).
  rewrite !bindM_assoc, (bindM_run _ _ _ _ _ Hfetch).
  split; [| split; [| split]].
  - intros ->. reflexivity.
  - intros d Hd Hempty. rewrite Hd.
    destruct (negb (Py.truthy (VDict d))); [reflexivity |].
    rewrite bindM_assoc. unfold lift at 1. unfold bindM at 1.
    cbn [Py.get]. rewrite Hempty. reflexivity.
  - intros d p items stop Hd Hne Hfull Hiter Hpag Hge. rewrite Hd.
    assert (Py.truthy (VDict d) = true) as -> by (now destruct d).
    cbn [negb]. unfold bindM, lift. cbn [Py.get].
    rewrite Hfull, Hiter, Hpag. cbn [negb Py.get]. rewrite Hge.
    now destruct stop.
  - intros Hlacks. unfold bindM, lift, ret.
    destruct (negb (Py.truthy data)); [eexists; reflexivity |].
    destruct data as [| b | z | x | s | l | d];
      try (eexists; reflexivity).
    cbn [Py.get]. destruct (negb (Py.truthy (dict_get d array (VList []))));
      [eexists; reflexivity |].
    destruct (Py.iterate _); [| eexists; reflexivity].
    cbn [lacks_pagination] in Hlacks. apply negb_true_iff in Hlacks.
    assert (dict_get d "pagination" (VDict []) = VDict []) as ->.
    { unfold dict_get. unfold dict_mem in Hlacks.
      now destruct (dict_find d "pagination"). }
    cbn [Py.get dict_get dict_find]. rewrite one_is_one.
    eexists; reflexivity.
Qed.

Lemma get_accounts_paginate (fuel : nat) (platform : value) (n : net world) :
  get_accounts requests_get fuel platform n
  = paginate fuel "/accounts" [("platform"%string, platform)] "accounts"
      [] 1 n.
Proof. apply get_accounts_loop_paginate. Qed.

Lemma get_fields_paginate (fuel : nat) (platform : value) (n : net world) :
  get_fields requests_get fuel platform n
  = bindM
      (paginate fuel "/fields" [("platform"%string, platform)] "fields" [] 1)
      (fun fields => lift (mapM (fun field => Py.item field "value") fields))
      n.
Proof.
  unfold get_fields, bindM. now rewrite get_fields_loop_paginate.
Qed.

Lemma get_insights_paginate (fuel : nat) (platform account : value)
      (fields : list value) (account_token : value) (n : net world) :
  get_insights requests_get fuel platform account fields account_token n
  = bindM (lift (bind (Py.strs fields) (fun ss => Ok (Py.join "," ss))))
      (fun fields_str =>
         paginate fuel "/insights"
           [("platform", platform); ("account", account);
            ("token", account_token); ("fields", VStr fields_str)]%string
           "insights" [] 1)
      n.
Proof.
  unfold get_insights, bindM, lift.
  destruct (bind (Py.strs fields) _) as [s | e]; [| reflexivity].
  apply get_insights_loop_paginate.
Qed.

Lemma policy_ext (fuel : nat) (run run' : M world (list value))
      (endpoint : string) (fixed : dict) (array : string)
      (post : list value -> result (list value)) :
  (forall n, run n = run' n) ->
  first_page_policy requests_get fuel run' endpoint fixed array post ->
  first_page_policy requests_get fuel run endpoint fixed array post.
Proof.
  intros Heq H n resp w Hget. specialize (H n resp w Hget).
  cbv zeta in *. rewrite Heq. exact H.
Qed.

Lemma bindM_lift_Ok {A : Type} (m : M world A) (n : net world) :
  bindM m (fun a => lift (Ok a)) n = m n.
Proof. unfold bindM, lift. now destruct (m n) as [[[a | e] n1] |]. Qed.


End FetchFacts.


End FetchFacts.
(** ** The pipeline *)

Module PipelineFacts.

Import Py Aggregate Grouping Words Examples Http Fetch Insights Scenario.
Import Gather Quotient.
Import GroupFacts CsvFacts CostFacts.

Section ScenarioFacts.

Variable world : Type.
Variable requests_get : request -> world -> result response * world.

Local Abbreviation answers := (answers requests_get).
Local Abbreviation M := (M world).

Lemma returns_ret {A : Type} (a : A) : returns (ret (world := world) a) a.
Proof. intros n. now exists n. Qed.

Lemma returns_lift {A : Type} (a : A) :
  returns (lift (world := world) (Ok a)) a.
Proof. intros n. now exists n. Qed.

Lemma returns_bind {A B : Type} (m : M A) (k : A -> M B) (a : A) (b : B) :
  returns m a -> returns (k a) b -> returns (bindM m k) b.
Proof.
  intros Hm Hk n. destruct (Hm n) as [n1 H1]. destruct (Hk n1) as [n2 H2].
  exists n2. unfold bindM. now rewrite H1.
Qed.

Lemma fetch_answers (endpoint : string) (doc : value) (params : value) :
  answers endpoint doc ->
  returns (fetch_api requests_get endpoint params true) doc.
Proof.
  intros H n. unfold fetch_api.
  specialize (H (Request (String.append Config.BASE_API_URL endpoint) params
                   (if Py.truthy (VStr Config.TOKEN)
                    then [("Accept", "application/json");
                          ("User-Agent", "Flask-App")]%string
                           ++ [("Authorization"%string,
                                String.append "Bearer " Config.TOKEN)]
                    else [("Accept", "application/json");
                          ("User-Agent", "Flask-App")]%string))
                (upstream n) eq_refl).
  destruct (requests_get _ (upstream n)) as [r w]. simpl in H. subst r.
  eexists. reflexivity.
Qed.

Variable float_of_str : string -> option float.
Variable repr_of_str : string -> string.
Variable set_iter : list value -> list value.
Variable account_id : value.
Variable account_name : string.

Hypothesis platforms : answers "/platforms" platforms_doc.
Hypothesis accounts : answers "/accounts" (accounts_doc account_id account_name).
Hypothesis fields : answers "/fields" fields_doc.
Hypothesis insights : answers "/insights" insights_doc.
Hypothesis any_order : set_order set_iter.

Lemma get_platforms_returns :
  returns (get_platforms requests_get)
    (VList [VDict [("text", VStr "Google Analytics 4");
                   ("value", VStr "ga4")]]%string).
Proof.
  unfold get_platforms.
  eapply returns_bind; [apply (fetch_answers _ _ _ platforms) |].
  cbn. apply returns_ret.
Qed.

Lemma get_accounts_returns (fuel : nat) :
  returns (get_accounts requests_get (S fuel) (VStr "ga4"))
    [VDict [("id", account_id); ("name", VStr account_name);
            ("token", VStr "T1")]%string].
Proof.
  unfold get_accounts. cbn [get_accounts_loop].
  eapply returns_bind; [apply (fetch_answers _ _ _ accounts) |].
  cbn. apply returns_ret.
Qed.

Lemma get_fields_returns (fuel : nat) :
  returns (get_fields requests_get (S fuel) (VStr "ga4"))
    [VStr "spend"; VStr "clicks"].
Proof.
  unfold get_fields. cbn [get_fields_loop].
  eapply returns_bind.
  - eapply returns_bind; [apply (fetch_answers _ _ _ fields) |].
    cbn. apply returns_ret.
  - cbn. apply returns_lift.
Qed.

Lemma get_insights_returns (fuel : nat) :
  returns (get_insights requests_get (S fuel) (VStr "ga4") account_id
             [VStr "spend"; VStr "clicks"] (VStr "T1"))
    [VDict [("spend", VInt 100); ("clicks", VInt 50)]%string].
Proof.
  unfold get_insights. cbn [Py.strs bind].
  eapply returns_bind; [apply returns_lift |].
  cbn [get_insights_loop].
  eapply returns_bind; [apply (fetch_answers _ _ _ insights) |].
  cbn. apply returns_ret.
Qed.

Lemma get_insights_for_platform_returns (fuel : nat) :
  returns (get_insights_for_platform requests_get (S fuel) (VStr "ga4"))
    ([the_row account_name], [VStr "spend"; VStr "clicks"]).
Proof.
  unfold get_insights_for_platform.
  eapply returns_bind; [apply get_accounts_returns |].
  eapply returns_bind; [apply get_fields_returns |].
  cbn [for_each].
  eapply returns_bind.
  - eapply returns_bind; [| apply returns_ret].
    eapply returns_bind; [apply returns_lift |].
    eapply returns_bind; [apply returns_lift |].
    eapply returns_bind; [apply returns_lift |].
    cbn [dict_get dict_find String.eqb Ascii.eqb Bool.eqb].
    eapply returns_bind; [apply get_insights_returns |].
    cbn. apply returns_ret.
  - apply returns_ret.
Qed.

Lemma get_all_insights_returns (fuel : nat) :
  returns (get_all_insights requests_get float_of_str set_iter (S fuel))
    (derive float_of_str [the_row account_name]
       ([VStr "Platform"; VStr "Account"]
          ++ set_iter [VStr "spend"; VStr "clicks"])).
Proof.
  unfold get_all_insights.
  eapply returns_bind; [apply get_platforms_returns |].
  eapply returns_bind; [apply returns_lift |].
  cbn [for_each].
  eapply returns_bind.
  - eapply returns_bind; [| apply returns_ret].
    eapply returns_bind; [apply returns_lift |].
    cbn [dict_get dict_find String.eqb Ascii.eqb Bool.eqb].
    eapply returns_bind; [apply get_insights_for_platform_returns |].
    eapply returns_bind; [apply returns_lift |].
    apply returns_ret.
  - apply returns_ret.
Qed.

(** C6, as amended.  With an upstream that answers /platforms with the
    one platform ga4, /accounts with one account, /fields with spend and
    clicks and /insights with the one row of spend 100 and clicks 50, and
    with one step of fuel or more, [geral_report] returns a CSV of two
    records: Platform, Account, the two fields in the order the set of
    field names yields them, and Cost per Click; then ga4, the account
    name, the two values in that order, and 2.0. *)
Theorem geral_report_end_to_end (fuel : nat) (n : net world) :
  exists body n',
    geral_report requests_get float_of_str repr_of_str set_iter (S fuel) n
    = Some (Ok (Csv body), n')
    /\ (body = spend_first account_name \/ body = clicks_first account_name).
Proof.
  destruct (get_all_insights_returns fuel n) as [n' Hall].
  pose proof (any_order [VStr "spend"; VStr "clicks"]) as Hperm.
  change (distinct [VStr "spend"; VStr "clicks"])
    with [VStr "spend"; VStr "clicks"] in Hperm.
  apply Permutation_sym, Permutation_length_2_inv in Hperm.
  unfold geral_report, bindM. rewrite Hall.
  destruct Hperm as [Hl | Hl]; rewrite Hl.
  - exists (spend_first account_name), n'. split; [| now left].
    assert (Csv.generate_csv repr_of_str
              (fst (derive float_of_str [the_row account_name]
                      ([VStr "Platform"; VStr "Account"]
                         ++ [VStr "spend"; VStr "clicks"])))
              (snd (derive float_of_str [the_row account_name]
                      ([VStr "Platform"; VStr "Account"]
                         ++ [VStr "spend"; VStr "clicks"])))
            = Ok (spend_first account_name)) as Hcsv
        by (vm_compute; reflexivity).
    cbn [derive is_ga4 the_row dict_get dict_find String.eqb Ascii.eqb
         Bool.eqb Py.eq] in Hcsv |- *.
    unfold lift. cbn [fst snd] in Hcsv. rewrite Hcsv. reflexivity.
  - exists (clicks_first account_name), n'. split; [| now right].
    assert (Csv.generate_csv repr_of_str
              (fst (derive float_of_str [the_row account_name]
                      ([VStr "Platform"; VStr "Account"]
                         ++ [VStr "clicks"; VStr "spend"])))
              (snd (derive float_of_str [the_row account_name]
                      ([VStr "Platform"; VStr "Account"]
                         ++ [VStr "clicks"; VStr "spend"])))
            = Ok (clicks_first account_name)) as Hcsv
        by (vm_compute; reflexivity).
    cbn [derive is_ga4 the_row dict_get dict_find String.eqb Ascii.eqb
         Bool.eqb Py.eq] in Hcsv |- *.
    unfold lift. cbn [fst snd] in Hcsv. rewrite Hcsv. reflexivity.
Qed.

End ScenarioFacts.

Lemma stub_platforms (account_id : value) (account_name : string) :
  answers (stub account_id account_name) "/platforms" platforms_doc.
Proof. intros req w H. unfold stub. now rewrite H. Qed.

Lemma stub_accounts (account_id : value) (account_name : string) :
  answers (stub account_id account_name) "/accounts"
    (accounts_doc account_id account_name).
Proof. intros req w H. unfold stub. now rewrite H. Qed.

Lemma stub_fields (account_id : value) (account_name : string) :
  answers (stub account_id account_name) "/fields" fields_doc.
Proof. intros req w H. unfold stub. now rewrite H. Qed.

Lemma stub_insights (account_id : value) (account_name : string) :
  answers (stub account_id account_name) "/insights" insights_doc.
Proof. intros req w H. unfold stub. now rewrite H. Qed.

Lemma insertion_order_set : set_order insertion_order.
Proof. intros l. apply Permutation_refl. Qed.

Lemma reverse_order_set : set_order reverse_order.
Proof. intros l. apply Permutation_sym, Permutation_rev. Qed.

(** The scenario on the stub, with the set in insertion order. *)
Lemma geral_report_end_to_end_witness :
  exists body n',
    geral_report (stub (VStr "1") "Acme") no_float ascii_repr insertion_order
      1 (Net tt [])
    = Some (Ok (Csv body), n')
    /\ (body = spend_first "Acme" \/ body = clicks_first "Acme").
Proof.
  exact (geral_report_end_to_end unit (stub (VStr "1") "Acme") no_float
           ascii_repr
           insertion_order (VStr "1") "Acme"
           (stub_platforms _ _) (stub_accounts _ _) (stub_fields _ _)
           (stub_insights _ _) insertion_order_set 0 (Net tt [])).
Defined.

(** C6 as it is stated fails when the set yields clicks before spend, as
    a hash table may: the header is then Platform, Account, clicks, spend,
    Cost per Click. *)
Lemma geral_report_clicks_first :
  set_order reverse_order
  /\ answers (stub (VStr "1") "Acme") "/platforms" platforms_doc
  /\ answers (stub (VStr "1") "Acme") "/accounts"
       (accounts_doc (VStr "1") "Acme")
  /\ answers (stub (VStr "1") "Acme") "/fields" fields_doc
  /\ answers (stub (VStr "1") "Acme") "/insights" insights_doc
  /\ (exists n',
         geral_report (stub (VStr "1") "Acme") no_float ascii_repr
           reverse_order 1 (Net tt [])
         = Some (Ok (Csv (clicks_first "Acme")), n'))
  /\ clicks_first "Acme" <> spend_first "Acme".
Proof.
  split; [apply reverse_order_set |].
  split; [apply stub_platforms |]. split; [apply stub_accounts |].
  split; [apply stub_fields |]. split; [apply stub_insights |].
  split; [eexists; vm_compute; reflexivity | discriminate].
Qed.

Lemma Forall2_right {A B : Type} (R : A -> B -> Prop) (l : list A)
      (l' : list B) (y : B) :
  Forall2 R l l' -> In y l' -> exists x, In x l /\ R x y.
Proof.
  induction 1 as [| a b l l' Hab _ IH]; simpl; [tauto |].
  intros [<- | Hin]; [exists a; auto |].
  destruct (IH Hin) as (x & Hx & HR). exists x. auto.
Qed.

Lemma names_app (l l' : list value) :
  Py.strings (l ++ l') = (Py.strings l ++ Py.strings l')%list.
Proof. unfold Py.strings. apply flat_map_app. Qed.

Lemma names_strings (l : list string) : Py.strings (map VStr l) = l.
Proof.
  induction l as [| s l IH]; [reflexivity |].
  cbn [map]. change (Py.strings (VStr s :: map VStr l))
    with (s :: Py.strings (map VStr l)). now rewrite IH.
Qed.

Lemma eq_to_string (v : value) (s : string) :
  Py.eq v (VStr s)
  = match v with VStr t => String.eqb t s | _ => false end.
Proof.
  destruct v as [| b | z | x | t | vs | d]; try reflexivity; cbn.
  - now destruct (Num.exact_of_Z (Num.Z_of_bool b)).
  - now destruct (Num.exact_of_Z z).
  - now destruct (Num.exact_of_float x).
Qed.

Lemma has_CPC_count (l : list value) :
  existsb (fun name => Py.eq name (VStr CPC)) l = true
  <-> (1 <= count_occ string_dec (Py.strings l) CPC)%nat.
Proof.
  induction l as [| v l IH]; cbn [existsb].
  - cbn. split; [discriminate | lia].
  - change (v :: l) with ([v] ++ l)%list.
    rewrite names_app, count_occ_app, orb_true_iff, IH, eq_to_string.
    destruct v as [| b | z | x | s | vs | d];
      try (cbn; split; [intros [H | H]; [discriminate | exact H] | tauto]).
    cbn. destruct (string_dec s CPC) as [-> | Hne].
    + split; [lia | now left].
    + split; [intros [H | H]; [| exact H] | tauto].
      apply String.eqb_eq in H. contradiction.
Qed.

Lemma names_filter (p : value -> bool) (l : list value) (s : string) :
  (count_occ string_dec (Py.strings (filter p l)) s
   <= count_occ string_dec (Py.strings l) s)%nat.
Proof.
  induction l as [| v l IH]; [reflexivity |].
  cbn [filter]. change (v :: l) with ([v] ++ l)%list.
  rewrite (names_app [v] l), count_occ_app.
  destruct (p v); [| lia].
  change (v :: filter p l) with ([v] ++ filter p l)%list.
  rewrite names_app, count_occ_app. lia.
Qed.

Lemma count_one (v : value) (s : string) :
  count_occ string_dec (Py.strings [v]) s
  = match v with
    | VStr t => if string_dec t s then 1%nat else 0%nat
    | _ => 0%nat
    end.
Proof. now destruct v. Qed.

Lemma names_filter_same (s : string) (l : list value) :
  count_occ string_dec
    (Py.strings (filter (fun v' => negb (same_key (VStr s) v')) l)) s
  = 0%nat.
Proof.
  induction l as [| v l IH]; [reflexivity |].
  cbn [filter]. destruct (same_key (VStr s) v) eqn:E; cbn [negb];
    [exact IH |].
  change (v :: filter (fun v' => negb (same_key (VStr s) v')) l)
    with ([v] ++ filter (fun v' => negb (same_key (VStr s) v')) l)%list.
  rewrite names_app, count_occ_app, IH, count_one.
  destruct v as [| b | z | x | t | vs | d]; try reflexivity.
  destruct (string_dec t s) as [Heq | Hne]; [| reflexivity].
  unfold same_key in E. cbn in E. rewrite Heq, String.eqb_refl in E.
  discriminate.
Qed.

(** A set holds a string at most once. *)
Lemma distinct_once (l : list value) (s : string) :
  (count_occ string_dec (Py.strings (distinct l)) s <= 1)%nat.
Proof.
  induction l as [| v l IH]; [cbn; lia |].
  cbn [distinct].
  change (v :: filter (fun v' => negb (same_key v v')) (distinct l))
    with ([v] ++ filter (fun v' => negb (same_key v v')) (distinct l))%list.
  rewrite names_app, count_occ_app, count_one.
  pose proof (names_filter (fun v' => negb (same_key v v')) (distinct l) s)
    as Hle.
  destruct v as [| b | z | x | t | vs | d]; try lia.
  destruct (string_dec t s) as [Heq | Hne]; [| lia].
  rewrite Heq, names_filter_same. lia.
Qed.

Lemma names_perm (l l' : list value) :
  Permutation l l' -> Permutation (Py.strings l) (Py.strings l').
Proof.
  induction 1 as [| v l l' _ IH | v v' l | l l' l'' _ IH _ IH'].
  - constructor.
  - change (v :: l) with ([v] ++ l)%list.
    change (v :: l') with ([v] ++ l')%list.
    rewrite !names_app. now apply Permutation_app_head.
  - change (v' :: v :: l) with ([v'] ++ [v] ++ l)%list.
    change (v :: v' :: l) with ([v] ++ [v'] ++ l)%list.
    rewrite !names_app, !app_assoc.
    apply Permutation_app_tail, Permutation_app_comm.
  - now transitivity (Py.strings l').
Qed.

Section PipelineFacts.

Variable world : Type.
Variable requests_get : request -> world -> result response * world.
Variable float_of_str : string -> option float.
Variable repr_of_str : string -> string.
Variable set_iter : list value -> list value.

Local Abbreviation visit fuel :=
  (get_insights_for_platform requests_get fuel).

Lemma bindM_Ok {A B : Type} (m : M world A) (k : A -> M world B)
      (n n' : net world) (b : B) :
  bindM m k n = Some (Ok b, n') ->
  exists a n1, m n = Some (Ok a, n1) /\ k a n1 = Some (Ok b, n').
Proof.
  unfold bindM. destruct (m n) as [[[a | e] n1] |]; intros H;
    [eauto | discriminate | discriminate].
Qed.

Lemma lift_Ok {A : Type} (r : result A) (n n' : net world) (a : A) :
  lift r n = Some (Ok a, n') -> r = Ok a /\ n' = n.
Proof. unfold lift. intros H. injection H as -> ->. now split. Qed.

(** The loop over the platforms is a visit to each of them in turn. *)
Lemma platforms_loop (fuel : nat) (objs : list value) :
  forall insights_all added n insights_all' added' n',
    for_each
      (fun '(insights_all, added) platform_obj =>
         bindM (lift (Py.get platform_obj "value" VNone))
           (fun platform_value =>
              bindM (visit fuel platform_value)
                (fun '(ins, fields) =>
                   bindM (lift (mapM Py.key_of fields))
                     (fun _ =>
                        ret (insights_all ++ ins, added ++ fields)%list))))
      objs (insights_all, added) n
    = Some (Ok (insights_all', added'), n') ->
    exists values parts keys,
      mapM (fun platform_obj => Py.get platform_obj "value" VNone) objs
      = Ok values
      /\ traverse (visit fuel) values n = Some (Ok parts, n')
      /\ mapM Py.key_of (List.concat (map snd parts)) = Ok keys
      /\ insights_all' = (insights_all ++ List.concat (map fst parts))%list
      /\ added' = (added ++ List.concat (map snd parts))%list.
Proof.
  induction objs as [| obj objs IH];
    intros insights_all added n insights_all' added' n' H;
    cbn [for_each] in H.
  - injection H as <- <- <-. exists [], [], [].
    cbn. now rewrite !app_nil_r.
  - apply bindM_Ok in H as ([rows1 added1] & n1 & Hbody & H).
    apply bindM_Ok in Hbody as (platform_value & m1 & Hvalue & Hbody).
    apply lift_Ok in Hvalue as [Hvalue ->].
    apply bindM_Ok in Hbody as ([ins fields] & m2 & Hvisit & Hbody).
    apply bindM_Ok in Hbody as (ks & m3 & Hkeys & Hbody).
    apply lift_Ok in Hkeys as [Hkeys ->].
    injection Hbody as <- <- <-.
    destruct (IH _ _ _ _ _ _ H)
      as (values & parts & keys & Hvalues & Htrav & Hhash & -> & ->).
    exists (platform_value :: values), ((ins, fields) :: parts), (ks ++ keys)%list.
    split; [cbn [mapM]; now rewrite Hvalue, Hvalues |].
    split.
    { cbn [traverse]. unfold bindM at 1. rewrite Hvisit.
      unfold bindM at 1. now rewrite Htrav. }
    split.
    { cbn [map List.concat snd]. clear - Hkeys Hhash.
      revert ks Hkeys. induction fields as [| c fields IHf]; intros ks Hkeys.
      - injection Hkeys as <-. exact Hhash.
      - apply mapM_cons in Hkeys as (k & ks' & -> & Hk & Hks).
        cbn [app mapM]. rewrite Hk, (IHf ks' Hks). reflexivity. }
    cbn [map List.concat fst snd]. now rewrite !app_assoc.
Qed.

Lemma mapM_app {A B : Type} (f : A -> result B) (l l' : list A)
      (ys ys' : list B) :
  mapM f l = Ok ys -> mapM f l' = Ok ys' ->
  mapM f (l ++ l') = Ok (ys ++ ys')%list.
Proof.
  revert ys. induction l as [| x l IH]; intros ys H H'.
  - injection H as <-. exact H'.
  - apply mapM_cons in H as (y & ys0 & -> & Hy & Hys).
    cbn [app mapM]. rewrite Hy, (IH ys0 Hys H'). reflexivity.
Qed.

Lemma mapM_app_inv {A B : Type} (f : A -> result B) (l l' : list A)
      (zs : list B) :
  mapM f (l ++ l') = Ok zs ->
  exists ys ys', mapM f l = Ok ys /\ mapM f l' = Ok ys'.
Proof.
  revert zs. induction l as [| x l IH]; intros zs H.
  - exists [], zs. now split.
  - cbn [app] in H. apply mapM_cons in H as (y & zs' & -> & Hy & Hzs).
    destruct (IH zs' Hzs) as (ys & ys' & Hys & Hys').
    exists (y :: ys), ys'. split; [| exact Hys'].
    cbn [mapM]. now rewrite Hy, Hys.
Qed.

(** And the visits, once they have returned codes that can be hashed,
    are the loop. *)
Lemma platforms_visited (fuel : nat) (objs : list value) :
  forall values parts keys insights_all added n n',
    mapM (fun platform_obj => Py.get platform_obj "value" VNone) objs
    = Ok values ->
    traverse (visit fuel) values n = Some (Ok parts, n') ->
    mapM Py.key_of (List.concat (map snd parts)) = Ok keys ->
    for_each
      (fun '(insights_all, added) platform_obj =>
         bindM (lift (Py.get platform_obj "value" VNone))
           (fun platform_value =>
              bindM (visit fuel platform_value)
                (fun '(ins, fields) =>
                   bindM (lift (mapM Py.key_of fields))
                     (fun _ =>
                        ret (insights_all ++ ins, added ++ fields)%list))))
      objs (insights_all, added) n
    = Some (Ok ((insights_all ++ List.concat (map fst parts))%list,
                (added ++ List.concat (map snd parts))%list), n').
Proof.
  induction objs as [| obj objs IH];
    intros values parts keys insights_all added n n' Hvalues Htrav Hkeys.
  - injection Hvalues as <-. cbn [traverse] in Htrav.
    injection Htrav as <- <-. cbn. now rewrite !app_nil_r.
  - apply mapM_cons in Hvalues as (v & vs & -> & Hv & Hvs).
    cbn [traverse] in Htrav.
    apply bindM_Ok in Htrav as ([ins fields] & n1 & Hvisit & Htrav).
    apply bindM_Ok in Htrav as (parts' & n2 & Htrav & Hret).
    injection Hret as <- <-.
    cbn [map List.concat snd] in Hkeys.
    apply mapM_app_inv in Hkeys as (ks & ks' & Hks & Hks').
    cbn [for_each]. unfold bindM at 1. unfold bindM at 1.
    unfold lift at 1. rewrite Hv. unfold bindM at 1. rewrite Hvisit.
    unfold bindM at 1. unfold lift at 1. rewrite Hks. unfold ret at 1.
    rewrite (IH vs parts' ks' _ _ n1 n2 Hvs Htrav Hks').
    cbn [map List.concat fst snd]. now rewrite !app_assoc.
Qed.

(** What [get_all_insights] returns, from what the visits returned. *)
Lemma get_all_insights_parts (fuel : nat) (n n' : net world)
      (rows : list row) (all_fields : list value) :
  get_all_insights requests_get float_of_str set_iter fuel n
  = Some (Ok (rows, all_fields), n') ->
  exists platforms n1 objs values parts keys,
    get_platforms requests_get n = Some (Ok platforms, n1)
    /\ Py.iterate platforms = Ok objs
    /\ mapM (fun platform_obj => Py.get platform_obj "value" VNone) objs
       = Ok values
    /\ traverse (visit fuel) values n1 = Some (Ok parts, n')
    /\ mapM Py.key_of (List.concat (map snd parts)) = Ok keys
    /\ (rows, all_fields)
       = derive float_of_str (List.concat (map fst parts))
           (VStr "Platform" :: VStr "Account"
              :: set_iter (List.concat (map snd parts))).
Proof.
  unfold get_all_insights. intros H.
  apply bindM_Ok in H as (platforms & n1 & Hplatforms & H).
  apply bindM_Ok in H as (objs & n2 & Hobjs & H).
  apply lift_Ok in Hobjs as [Hobjs ->].
  apply bindM_Ok in H as ([insights_all added] & n3 & Hloop & H).
  apply platforms_loop in Hloop
    as (values & parts & keys & Hvalues & Htrav & Hkeys & -> & ->).
  unfold ret in H. injection H as H <-.
  exists platforms, n1, objs, values, parts, keys.
  repeat split; try assumption. now rewrite <- H.
Qed.

Lemma get_all_insights_fields (fuel : nat) (n n' : net world)
      (rows : list row) (all_fields : list value) :
  get_all_insights requests_get float_of_str set_iter fuel n
  = Some (Ok (rows, all_fields), n') ->
  exists rest, all_fields = VStr "Platform" :: VStr "Account" :: rest.
Proof.
  intros H. apply get_all_insights_parts in H
    as (platforms & n1 & objs & values & parts & keys & _ & _ & _ & _ & _ & H).
  apply (f_equal snd) in H. rewrite derive_fields in H. cbn [snd] in H.
  subst all_fields.
  destruct (_ && _); cbn [app]; eexists; reflexivity.
Qed.

(** Every ga4 row that [get_all_insights] returns holds its Cost per
    Click. *)
Lemma get_all_insights_holds (fuel : nat) (n n' : net world)
      (rows : list row) (all_fields : list value) :
  get_all_insights requests_get float_of_str set_iter fuel n
  = Some (Ok (rows, all_fields), n') ->
  Forall
    (fun row =>
       is_ga4 row = true ->
       dict_find row CPC = Some (cost_per_click float_of_str row))
    rows.
Proof.
  intros H. apply get_all_insights_parts in H
    as (platforms & n1 & objs & values & parts & keys & _ & _ & _ & _ & _ & H).
  apply (f_equal fst) in H. cbn [fst] in H. subst rows.
  apply derive_holds.
Qed.

(** C4, as amended.  A row of [aggregate_by_platform] has the key
    Platform and the names of the field list as its keys, so it has an
    Account exactly when the list names it.  The field list of
    [get_all_insights] starts with Platform and Account, so the CSV of
    [geral_summary] starts with the record of a header whose first cells
    are Platform and Account. *)
Theorem platform_summary_keeps_account :
  (forall insights all_fields out,
      aggregate_by_platform insights all_fields = Ok out ->
      Forall
        (fun agg_row =>
           forall name,
             dict_mem agg_row name
             = String.eqb name "Platform" || existsb (String.eqb name) all_fields)
        out)
  /\ (forall fuel n n' body,
         geral_summary requests_get float_of_str repr_of_str set_iter fuel n
         = Some (Ok (Csv body), n') ->
         exists rest tail,
           body
           = String.append
               (Csv.record ("Platform" :: "Account" :: rest)%string)
               tail).
Proof.
  split.
  - intros insights all_fields out H.
    rewrite aggregate_by_platform_run in H.
    apply bind_Ok in H as (g & Hrun & Hout). injection Hout as <-.
    apply run_settled in Hrun; [| reflexivity].
    apply Forall_forall. intros agg_row Hin.
    destruct (Forall2_right _ _ _ _ Hrun Hin)
      as (k & _ & first & rest & _ & _ & Hmem).
    intros name. rewrite Hmem. unfold start_platform, dict_mem at 1.
    cbn [dict_find].
    rewrite <- existsb_not_platform.
    now destruct (String.eqb "Platform" name).
  - intros fuel n n' body H. unfold geral_summary in H.
    apply bindM_Ok in H as ([insights all_fields] & n1 & Hall & H).
    apply get_all_insights_fields in Hall as [rest ->].
    destruct insights as [| r insights]; [discriminate |].
    apply bindM_Ok in H as (aggregated & n2 & _ & H).
    apply bindM_Ok in H as (csv_data & n3 & Hcsv & H).
    apply lift_Ok in Hcsv as [Hcsv ->].
    unfold ret in H. injection H as <- _.
    apply generate_csv_header in Hcsv as (header & tail & Hheader & ->).
    apply writeheader_cells in Hheader as (cells & Hrow & Hsame).
    inversion Hsame as [| ? c1 ? cells1 Hc1 Hsame1]; subst.
    inversion Hsame1 as [| ? c2 ? cells2 Hc2 _]; subst.
    apply same_string in Hc1, Hc2. subst c1 c2.
    unfold Csv.writerow in Hrow. cbn [mapM Csv.text bind] in Hrow.
    destruct (mapM (Csv.text repr_of_str) cells2) as [texts | e];
      cbn [bind] in Hrow; [| discriminate].
    injection Hrow as <-. now exists texts, tail.
Qed.

(** C5.  Every row of the platform "ga4" that [get_all_insights] returns
    holds under "Cost per Click" the quotient of the floats of spend and
    clicks when clicks is truthy and its float is not zero, and the int 0
    when clicks is zero or missing, when its float is zero or when a
    conversion fails.  When there is such a row the field list names
    "Cost per Click" once.  The pass raises nothing: whenever the visits
    to the platforms have returned, with field codes that can be hashed,
    [get_all_insights] returns. *)
Theorem cost_per_click_derived (fuel : nat) (n : net world) :
  set_order set_iter ->
  (forall rows all_fields n',
      get_all_insights requests_get float_of_str set_iter fuel n
      = Some (Ok (rows, all_fields), n') ->
      Forall
        (fun row =>
           is_ga4 row = true ->
           let spend := operand row "spend" "Spend" in
           let clicks := operand row "clicks" "Clicks" in
           (truthy clicks = false -> dict_find row CPC = Some (VInt 0))
           /\ (forall x y,
                  truthy clicks = true ->
                  Py.float_of float_of_str spend = Ok x ->
                  Py.float_of float_of_str clicks = Ok y ->
                  dict_find row CPC
                  = Some (if (y =? 0)%float then VInt 0 else VFloat (x / y)))
           /\ (forall e,
                  truthy clicks = true ->
                  Py.float_of float_of_str spend = Raise e
                  \/ Py.float_of float_of_str clicks = Raise e ->
                  dict_find row CPC = Some (VInt 0)))
        rows
      /\ (existsb is_ga4 rows = true ->
          count_occ string_dec (Py.strings all_fields) CPC = 1%nat))
  /\ (forall platforms n1 objs values parts keys n2,
         get_platforms requests_get n = Some (Ok platforms, n1) ->
         Py.iterate platforms = Ok objs ->
         mapM (fun platform_obj => Py.get platform_obj "value" VNone) objs
         = Ok values ->
         traverse (visit fuel) values n1 = Some (Ok parts, n2) ->
         mapM Py.key_of (List.concat (map snd parts)) = Ok keys ->
         exists rows all_fields,
           get_all_insights requests_get float_of_str set_iter fuel n
           = Some (Ok (rows, all_fields), n2)).
Proof.
  intros Hset. split.
  - intros rows all_fields n' H. split.
    + pose proof (get_all_insights_holds _ _ _ _ _ H) as Hholds.
      eapply Forall_impl; [| exact Hholds].
      intros row Hrow Hga4. specialize (Hrow Hga4).
      destruct (cost_per_click_cases float_of_str row) as (H0 & Hq & He).
      cbv zeta. rewrite Hrow. split; [| split].
      * intros Hc. now rewrite H0.
      * intros x y Hc Hx Hy. now rewrite (Hq x y Hc Hx Hy).
      * intros e Hc Hr. now rewrite (He e Hc Hr).
    + apply get_all_insights_parts in H
        as (platforms & n1 & objs & values & parts & keys
            & _ & _ & _ & _ & _ & H).
      assert (Hrows : rows = fst (derive float_of_str
                                    (List.concat (map fst parts))
                                    (VStr "Platform" :: VStr "Account"
                                       :: set_iter
                                            (List.concat (map snd parts)))))
        by (now rewrite <- H).
      assert (Hfields : all_fields
                        = snd (derive float_of_str
                                 (List.concat (map fst parts))
                                 (VStr "Platform" :: VStr "Account"
                                    :: set_iter
                                         (List.concat (map snd parts)))))
        by (now rewrite <- H).
      clear H. subst rows all_fields.
      rewrite existsb_is_ga4_derive, derive_fields.
      intros ->. cbn [andb].
      set (added := List.concat (map snd parts)).
      assert (Hcount :
                (count_occ string_dec
                   (Py.strings
                      (VStr "Platform" :: VStr "Account" :: set_iter added))
                   CPC <= 1)%nat).
      { change (VStr "Platform" :: VStr "Account" :: set_iter added)
          with ([VStr "Platform"; VStr "Account"] ++ set_iter added)%list.
        rewrite names_app, count_occ_app.
        pose proof (names_perm _ _ (Hset added)) as Hperm.
        rewrite (proj1 (Permutation_count_occ string_dec _ _) Hperm CPC).
        pose proof (distinct_once added CPC). cbn. lia. }
      destruct (existsb _ _) eqn:E; cbn [negb].
      * apply has_CPC_count in E. lia.
      * rewrite names_app, count_occ_app.
        assert (count_occ string_dec
                  (Py.strings
                     (VStr "Platform" :: VStr "Account" :: set_iter added))
                  CPC = 0%nat) as ->.
        { destruct (count_occ string_dec _ CPC) eqn:Hc; [reflexivity |].
          assert (existsb (fun name => Py.eq name (VStr CPC))
                    (VStr "Platform" :: VStr "Account" :: set_iter added)
                  = true) as E'; [| congruence].
          apply has_CPC_count. lia. }
        reflexivity.
  - intros platforms n1 objs values parts keys n2 Hp Hobjs Hvalues Htrav
           Hkeys.
    unfold get_all_insights. unfold bindM at 1. rewrite Hp.
    unfold bindM at 1. unfold lift at 1. rewrite Hobjs.
    unfold bindM at 1.
    rewrite (platforms_visited fuel objs values parts keys [] [] n1 n2
               Hvalues Htrav Hkeys).
    destruct (derive float_of_str _ _) as [rows all_fields].
    now exists rows, all_fields.
Qed.

Lemma operand_falls (row : row) (lower upper : string) :
  falls_through row lower upper (operand row lower upper).
Proof.
  unfold falls_through, operand, or_else. split; [| split].
  - intros Hl. now rewrite !Hl.
  - intros Hl Hu. now rewrite Hl, Hu.
  - intros Hl Hu. now rewrite Hl, Hu.
Qed.

Lemma cost_per_click_ratio (row : row) :
  cost_per_click float_of_str row
  = ratio float_of_str (operand row "spend" "Spend")
      (operand row "clicks" "Clicks").
Proof.
  unfold Insights.cost_per_click, ratio.
  destruct (truthy (operand row "clicks" "Clicks")); [| reflexivity].
  destruct (Py.float_of float_of_str (operand row "spend" "Spend"))
    as [x | e]; cbn [bind]; [| reflexivity].
  destruct (Py.float_of float_of_str (operand row "clicks" "Clicks"))
    as [y | e]; cbn [bind]; [| reflexivity].
  unfold truediv. now destruct (y =? 0)%float.
Qed.

(** C10.  In every row of the platform "ga4" that [get_all_insights]
    returns, the Cost per Click is the quotient, as the specification
    words it, of a numerator and a denominator that fall through: the
    value under "spend" when it is truthy, the value under "Spend" when
    only that is truthy, the int 0 when both are falsy; and so for
    "clicks" and "Clicks". *)
Theorem operand_falls_through (fuel : nat) (n n' : net world)
        (rows : list row) (all_fields : list value) :
  get_all_insights requests_get float_of_str set_iter fuel n
  = Some (Ok (rows, all_fields), n') ->
  Forall
    (fun row =>
       is_ga4 row = true ->
       exists spend clicks,
         dict_find row CPC = Some (ratio float_of_str spend clicks)
         /\ falls_through row "spend" "Spend" spend
         /\ falls_through row "clicks" "Clicks" clicks)
    rows.
Proof.
  intros H. apply get_all_insights_holds in H.
  eapply Forall_impl; [| exact H].
  intros row Hrow Hga4.
  exists (operand row "spend" "Spend"), (operand row "clicks" "Clicks").
  split; [| split; apply operand_falls].
  rewrite (Hrow Hga4). f_equal. apply cost_per_click_ratio.
Qed.

End PipelineFacts.

(** The keys of the aggregated row of one ga4 row. *)
Lemma platform_summary_keeps_account_witness :
  Forall
    (fun agg_row =>
       forall name,
         dict_mem agg_row name
         = String.eqb name "Platform"
           || existsb (String.eqb name) ["Platform"; "Account"; "spend"]%string)
    [[("Platform", VStr "ga4"); ("Account", VStr ""); ("spend", VInt 10)]%string].
Proof.
  exact (proj1 (platform_summary_keeps_account unit (stub (VStr "1") "Acme")
                  no_float ascii_repr insertion_order)
           [ga4_account_row] ["Platform"; "Account"; "spend"]%string _ eq_refl).
Defined.

(** C4 as it is stated fails: with Account on the field list the
    aggregated row has an Account, blanked, and the header names it. *)
Lemma aggregate_by_platform_has_account :
  exists agg_row,
    aggregate_by_platform [ga4_account_row] ["Platform"; "Account"; "spend"]%string
    = Ok [agg_row]
    /\ dict_mem agg_row "Account" = true
    /\ Csv.generate_csv ascii_repr [agg_row]
         [VStr "Platform"; VStr "Account"; VStr "spend"]
       = Ok (String.append (line ["Platform"; "Account"; "spend"]%string)
               (line ["ga4"; ""; "10"]%string)).
Proof. eexists. repeat split. Qed.

(** The scenario: the row of spend 100 and clicks 50 leaves with the
    Cost per Click 2.0, and the field list names the column once. *)
Lemma cost_per_click_derived_witness :
  Forall
    (fun row =>
       is_ga4 row = true ->
       let spend := operand row "spend" "Spend" in
       let clicks := operand row "clicks" "Clicks" in
       (truthy clicks = false -> dict_find row CPC = Some (VInt 0))
       /\ (forall x y,
              truthy clicks = true ->
              Py.float_of no_float spend = Ok x ->
              Py.float_of no_float clicks = Ok y ->
              dict_find row CPC
              = Some (if (y =? 0)%float then VInt 0 else VFloat (x / y)))
       /\ (forall e,
              truthy clicks = true ->
              Py.float_of no_float spend = Raise e
              \/ Py.float_of no_float clicks = Raise e ->
              dict_find row CPC = Some (VInt 0)))
    [[("spend", VInt 100); ("clicks", VInt 50); ("Account", VStr "Acme");
      ("Platform", VStr "ga4"); ("Cost per Click", VFloat 2)]%string]
  /\ (existsb is_ga4
        [[("spend", VInt 100); ("clicks", VInt 50); ("Account", VStr "Acme");
          ("Platform", VStr "ga4"); ("Cost per Click", VFloat 2)]%string]
      = true ->
      count_occ string_dec
        (Py.strings
           [VStr "Platform"; VStr "Account"; VStr "spend"; VStr "clicks";
            VStr "Cost per Click"])
        CPC
      = 1%nat).
Proof.
  refine (proj1 (cost_per_click_derived unit (stub (VStr "1") "Acme")
                   no_float insertion_order 1 (Net tt [])
                   insertion_order_set) _ _ _ _).
  vm_compute. reflexivity.
Defined.

(** A row whose spend is 0 and whose clicks is the empty string, with
    Spend 100 and Clicks 50: the quotient is that of 100 and 50. *)
Lemma operand_falls_through_witness :
  Forall
    (fun row =>
       is_ga4 row = true ->
       exists spend clicks,
         dict_find row CPC = Some (ratio no_float spend clicks)
         /\ falls_through row "spend" "Spend" spend
         /\ falls_through row "clicks" "Clicks" clicks)
    [[("spend", VInt 0); ("Spend", VInt 100); ("clicks", VStr "");
      ("Clicks", VInt 50); ("Account", VStr "Acme");
      ("Platform", VStr "ga4"); ("Cost per Click", VFloat 2)]%string].
Proof.
  refine (operand_falls_through unit
            (stub_with (VStr "1") "Acme"
               [VDict [("spend", VInt 0); ("Spend", VInt 100);
                       ("clicks", VStr ""); ("Clicks", VInt 50)]%string])
            no_float insertion_order 1 (Net tt []) _ _ _ _).
  vm_compute. reflexivity.
Defined.

End PipelineFacts.
(** ** The aggregators leave their arguments alone *)

Module StoreFacts.

Import Py Store.

Lemma length_update (s : store) (a : addr) (o : obj) :
  List.length (update s a o) = List.length s.
Proof.
  revert a; induction s as [| x s IH]; intros [| a]; simpl; auto.
Qed.

Lemma firstn_update (b : nat) (s : store) (a : addr) (o : obj) :
  b <= a -> firstn b (update s a o) = firstn b s.
Proof.
  revert s a; induction b as [| b IH]; intros s a Hba; [reflexivity |].
  destruct s as [| x s]; [reflexivity |].
  destruct a as [| a]; [lia |]. simpl. f_equal. apply IH. lia.
Qed.

Lemma nth_error_update (s : store) (a a' : addr) (o : obj) :
  nth_error (update s a o) a'
  = if Nat.eqb a a' then
      match nth_error s a with Some _ => Some o | None => None end
    else nth_error s a'.
Proof.
  revert a a'; induction s as [| x s IH]; intros [| a] [| a']; simpl; auto.
  - now destruct (Nat.eqb a a').
Qed.

Lemma is_dict_bound (s : store) (a : addr) :
  is_dict s a -> a < List.length s.
Proof.
  intros [d H]. apply nth_error_Some. congruence.
Qed.

Lemma grows_refl (b : nat) (s : store) : grows b s s.
Proof. repeat split; auto. Qed.

Lemma grows_trans (b : nat) (s s' s'' : store) :
  grows b s s' -> grows b s' s'' -> grows b s s''.
Proof.
  intros (H1 & H2 & H3) (H1' & H2' & H3'). repeat split.
  - congruence.
  - lia.
  - auto.
Qed.

Lemma grows_alloc (b : nat) (s : store) (o : obj) :
  b <= List.length s -> grows b s (s ++ [o]).
Proof.
  intros Hb. repeat split.
  - rewrite firstn_app. replace (b - List.length s) with 0 by lia.
    simpl. apply app_nil_r.
  - rewrite length_app. lia.
  - intros a Ha. pose proof (is_dict_bound s a Ha) as Hlt.
    destruct Ha as [d Hd]. exists d. now rewrite nth_error_app1.
Qed.

Lemma grows_update (b : nat) (s : store) (a : addr) (d d' : dict) :
  b <= a -> nth_error s a = Some (ODict d) ->
  grows b s (update s a (ODict d')).
Proof.
  intros Hba Ha. repeat split.
  - now apply firstn_update.
  - rewrite length_update. lia.
  - intros a' [d0 Hd0]. unfold is_dict. rewrite nth_error_update.
    destruct (Nat.eqb_spec a a') as [<- |].
    + rewrite Ha. now exists d'.
    + now exists d0.
Qed.

Lemma fresh_stable (b : nat) (g : groups) : stable b (fresh b g).
Proof.
  intros s s' (_ & _ & Hd) [Hnd Hall]. split; [exact Hnd |].
  eapply Forall_impl; [| exact Hall]. intros a [Hb Ha]. split; auto.
Qed.

Lemma is_dict_stable (b : nat) (a : addr) : stable b (fun s => is_dict s a).
Proof. intros s s' (_ & _ & Hd) H. auto. Qed.

Lemma stable_and (b : nat) (P Q : store -> Prop) :
  stable b P -> stable b Q -> stable b (fun s => P s /\ Q s).
Proof. intros HP HQ s s' Hg [H1 H2]. split; eauto. Qed.

Section Rules.

Variable b : nat.

Lemma hoare_conseq {A : Type} (P P' : store -> Prop) (m : ST A)
      (Q Q' : A -> store -> Prop) :
  (forall s, P' s -> P s) -> (forall a s, Q a s -> Q' a s) ->
  hoare b P m Q -> hoare b P' m Q'.
Proof.
  intros HP HQ H s Hb HP'. destruct (H s Hb (HP s HP')) as [Hg Hq].
  split; auto.
Qed.

Lemma hoare_bind {A B : Type} (P : store -> Prop) (m : ST A)
      (Q : A -> store -> Prop) (k : A -> ST B) (R : B -> store -> Prop) :
  hoare b P m Q -> (forall a, hoare b (Q a) (k a) R) ->
  hoare b P (bindS m k) R.
Proof.
  intros Hm Hk s Hb HP. destruct (Hm s Hb HP) as [Hg Hq].
  unfold bindS. destruct (m s) as [[a | e] s1]; cbn [fst snd] in *.
  - assert (b <= List.length s1) as Hb1 by (destruct Hg as (_ & ? & _); lia).
    destruct (Hk a s1 Hb1 (Hq a eq_refl)) as [Hg2 Hr].
    split; [eapply grows_trans; eauto | exact Hr].
  - split; [exact Hg | discriminate].
Qed.

Lemma hoare_known (P : store -> Prop) (phi : Prop) {A : Type} (m : ST A)
      (Q : A -> store -> Prop) :
  (forall s, P s -> phi) -> (phi -> hoare b P m Q) -> hoare b P m Q.
Proof. intros Hphi H s Hb HP. exact (H (Hphi s HP) s Hb HP). Qed.

Lemma hoare_ret {A : Type} (P : store -> Prop) (a : A) :
  hoare b P (ret a) (fun x s => x = a /\ P s).
Proof.
  intros s Hb HP. split; [apply grows_refl |].
  cbn. intros x Hx. injection Hx as <-. auto.
Qed.

Lemma hoare_lift {A : Type} (P : store -> Prop) (r : result A) :
  hoare b P (lift r) (fun x s => r = Ok x /\ P s).
Proof.
  intros s Hb HP. split; [apply grows_refl |]. cbn. intros x ->. auto.
Qed.

(** A computation that only reads. *)
Lemma hoare_read {A : Type} (P : store -> Prop) (m : ST A) :
  (forall s, snd (m s) = s) -> hoare b P m (fun _ s => P s).
Proof.
  intros Hm s Hb HP. rewrite Hm. split; [apply grows_refl | auto].
Qed.

Lemma row_get_reads (row : addr) (k : string) (default : value) (s : store) :
  snd (row_get row k default s) = s.
Proof. unfold row_get. now destruct (nth_error s row) as [[] |]. Qed.

Lemma dict_load_reads (a : addr) (k : string) (s : store) :
  snd (dict_load a k s) = s.
Proof. unfold dict_load. now destruct (nth_error s a) as [[] |]. Qed.

Lemma names_of_reads (a : addr) (s : store) : snd (names_of a s) = s.
Proof. unfold names_of. now destruct (nth_error s a) as [[] |]. Qed.

Lemma refs_of_reads (a : addr) (s : store) : snd (refs_of a s) = s.
Proof. unfold refs_of. now destruct (nth_error s a) as [[] |]. Qed.

Lemma hoare_dict_store (P : store -> Prop) (a : addr) (k : string) (v : value) :
  b <= a -> stable b P -> hoare b P (dict_store a k v) (fun _ s => P s).
Proof.
  intros Hba HP s Hb Hs. unfold dict_store.
  destruct (nth_error s a) as [[d | l | l] |] eqn:E; cbn [fst snd];
    try (split; [apply grows_refl | discriminate]).
  assert (grows b s (update s a (ODict (dict_set d k v)))) as Hg
      by (eapply grows_update; eauto).
  split; [exact Hg | intros _ _; eauto].
Qed.

Lemma hoare_alloc_row (g : groups) (d : dict) :
  hoare b (fresh b g) (alloc (ODict d))
    (fun a s => (fresh b g s /\ is_dict s a) /\ b <= a /\ ~ In a (map snd g)).
Proof.
  intros s Hb Hf. unfold alloc. cbn [fst snd].
  pose proof (grows_alloc b s (ODict d) Hb) as Hg.
  split; [exact Hg |]. intros a Ha. injection Ha as <-.
  split; [split | split].
  - eapply fresh_stable; eauto.
  - exists d. rewrite nth_error_app2 by lia.
    now rewrite Nat.sub_diag.
  - exact Hb.
  - intros Hin. destruct Hf as [_ Hall]. rewrite Forall_forall in Hall.
    destruct (Hall _ Hin) as [_ Hd]. apply is_dict_bound in Hd. lia.
Qed.

Lemma hoare_for_each {A B : Type} (I : A -> store -> Prop)
      (f : A -> B -> ST A) (l : list B) :
  (forall acc x, In x l -> hoare b (I acc) (f acc x) I) ->
  forall acc, hoare b (I acc) (for_each f l acc) I.
Proof.
  induction l as [| x l IH]; intros Hf acc; cbn [for_each].
  - eapply hoare_conseq; [| | apply hoare_ret].
    + intros s H. exact H.
    + cbn. intros a s [-> H]. exact H.
  - eapply hoare_bind; [apply Hf; now left |].
    intros acc'. apply IH. intros acc0 y Hy. apply Hf. now right.
Qed.

Lemma hoare_read_bind {A B : Type} (P : store -> Prop) (m : ST A)
      (k : A -> ST B) (R : B -> store -> Prop) :
  (forall s, snd (m s) = s) -> (forall a, hoare b P (k a) R) ->
  hoare b P (bindS m k) R.
Proof.
  intros Hm Hk. eapply hoare_bind; [apply hoare_read; exact Hm | exact Hk].
Qed.

Lemma hoare_lift_bind {A B : Type} (P : store -> Prop) (r : result A)
      (k : A -> ST B) (R : B -> store -> Prop) :
  (forall a, r = Ok a -> hoare b P (k a) R) ->
  hoare b P (bindS (lift r) k) R.
Proof.
  intros Hk. eapply hoare_bind; [apply hoare_lift |].
  intros a. apply hoare_known with (phi := r = Ok a); [now intros s [] |].
  intros Hr. eapply hoare_conseq; [| | apply (Hk a Hr)]; cbn; auto.
  now intros s [].
Qed.

Lemma hoare_alloc_bind {B : Type} (g : groups) (d : dict) (k : addr -> ST B)
      (R : B -> store -> Prop) :
  (forall a, b <= a -> ~ In a (map snd g) ->
             hoare b (fun s => fresh b g s /\ is_dict s a) (k a) R) ->
  hoare b (fresh b g) (bindS (alloc (ODict d)) k) R.
Proof.
  intros Hk. eapply hoare_bind; [apply hoare_alloc_row |].
  intros a.
  apply hoare_known with (phi := b <= a /\ ~ In a (map snd g));
    [now intros s [] |].
  intros [Hba Hnew].
  eapply hoare_conseq; [| | apply (Hk a Hba Hnew)]; cbn; auto.
  now intros s [].
Qed.

Lemma hoare_done {A : Type} (P : store -> Prop) (a : A)
      (Q : A -> store -> Prop) :
  (forall s, P s -> Q a s) -> hoare b P (ret a) Q.
Proof.
  intros H. eapply hoare_conseq; [| | apply hoare_ret].
  - intros s Hs. exact Hs.
  - cbn. intros x s [-> Hs]. auto.
Qed.

Lemma refs_item_In (g : groups) (k : hkey) (a : addr) :
  groups_item g k = Ok a -> In a (map snd g).
Proof.
  unfold groups_item. induction g as [| [k' a'] g IH]; cbn; [discriminate |].
  destruct (hkey_eqb k' k); intros H.
  - injection H as <-. now left.
  - right. auto.
Qed.

Lemma refs_set_In (g : groups) (k : hkey) (a x : addr) :
  In x (map snd (groups_set g k a)) -> x = a \/ In x (map snd g).
Proof.
  induction g as [| [k' a'] g IH]; cbn.
  - intros [<- | []]. now left.
  - destruct (hkey_eqb k' k); cbn; intros [<- | H]; auto.
    destruct (IH H); auto.
Qed.

Lemma refs_set_NoDup (g : groups) (k : hkey) (a : addr) :
  NoDup (map snd g) -> ~ In a (map snd g) ->
  NoDup (map snd (groups_set g k a)).
Proof.
  induction g as [| [k' a'] g IH]; cbn; intros Hnd Hnew.
  - constructor; [tauto | constructor].
  - inversion Hnd as [| ? ? Ha' Hnd']; subst.
    destruct (hkey_eqb k' k); cbn; constructor.
    + tauto.
    + exact Hnd'.
    + intros Hin. apply refs_set_In in Hin as [-> | Hin]; tauto.
    + apply IH; tauto.
Qed.

Lemma fresh_set (g : groups) (k : hkey) (a : addr) (s : store) :
  b <= a -> ~ In a (map snd g) -> fresh b g s -> is_dict s a ->
  fresh b (groups_set g k a) s.
Proof.
  intros Hba Hnew [Hnd Hall] Ha. split; [now apply refs_set_NoDup |].
  apply Forall_forall. intros x Hx. rewrite Forall_forall in Hall.
  apply refs_set_In in Hx as [-> | Hx]; auto.
Qed.

(** Seeding a new row writes to that row only. *)
Lemma seeding_safe (g : groups) (a : addr) (names : list string)
      (f : unit -> string -> ST unit) :
  (forall field,
      hoare b (fun s => fresh b g s /\ is_dict s a) (f tt field)
        (fun _ s => fresh b g s /\ is_dict s a)) ->
  hoare b (fun s => fresh b g s /\ is_dict s a) (for_each f names tt)
    (fun _ s => fresh b g s /\ is_dict s a).
Proof.
  intros Hf.
  apply (hoare_for_each (fun _ s => fresh b g s /\ is_dict s a)).
  intros [] field _. apply Hf.
Qed.

Lemma adding_safe (g : groups) (names : list string)
      (f : unit -> string -> ST unit) :
  (forall field, hoare b (fresh b g) (f tt field) (fun _ s => fresh b g s)) ->
  hoare b (fresh b g) (for_each f names tt) (fun _ s => fresh b g s).
Proof.
  intros Hf. apply (hoare_for_each (fun _ s => fresh b g s)).
  intros [] field _. apply Hf.
Qed.

(** [aggregated[k][field] += value] writes to a row of [aggregated]. *)
Lemma add_to_safe (g : groups) (k : hkey) (field : string) (value : value) :
  hoare b (fresh b g)
    (bindS (lift (groups_item g k))
       (fun agg_row =>
          bindS (dict_load agg_row field)
            (fun old =>
               bindS (lift (add old value))
                 (fun new => dict_store agg_row field new))))
    (fun _ s => fresh b g s).
Proof.
  apply hoare_lift_bind. intros agg_row Hitem.
  apply hoare_read_bind; [apply dict_load_reads |]. intros old.
  apply hoare_lift_bind. intros new _.
  apply hoare_known with (phi := b <= agg_row).
  - intros s [_ Hall]. rewrite Forall_forall in Hall.
    now apply Hall, (refs_item_In g k).
  - intros Hba. apply hoare_dict_store; [exact Hba | apply fresh_stable].
Qed.

Lemma alloc_refs_safe (g : groups) :
  hoare b (fresh b g) (alloc (ORefs (map snd g)))
    (fun out s =>
       exists refs,
         nth_error s out = Some (ORefs refs) /\ b <= out /\ NoDup refs
         /\ Forall (fun a => b <= a /\ is_dict s a) refs).
Proof.
  intros s Hb Hf. unfold alloc. cbn [fst snd].
  pose proof (grows_alloc b s (ORefs (map snd g)) Hb) as Hg.
  split; [exact Hg |]. intros out Hout. injection Hout as <-.
  exists (map snd g). split; [| split; [exact Hb |]].
  - rewrite nth_error_app2 by lia. now rewrite Nat.sub_diag.
  - exact (fresh_stable b g s _ Hg Hf).
Qed.

Lemma fresh_nil (s : store) : fresh b [] s.
Proof. split; constructor. Qed.

Lemma aggregate_by_account_safe (insights fields : addr) :
  hoare b (fun _ => True) (aggregate_by_account insights fields)
    (fun out s =>
       exists refs,
         nth_error s out = Some (ORefs refs) /\ b <= out /\ NoDup refs
         /\ Forall (fun a => b <= a /\ is_dict s a) refs).
Proof.
  unfold aggregate_by_account.
  apply hoare_read_bind; [apply refs_of_reads |]. intros rows.
  eapply hoare_bind; [| intros g; apply alloc_refs_safe].
  apply hoare_conseq with (P := fresh b []) (Q := fresh b);
    [intros s Htrue; apply fresh_nil | intros g s H; exact H |].
  apply (hoare_for_each (fresh b)). intros g row Hrow.
  apply hoare_read_bind; [apply row_get_reads |]. intros account.
  apply hoare_lift_bind. intros k _.
  apply hoare_bind with (Q := fun g' s => fresh b g' s).
  - destruct (negb (groups_mem g k)).
    + apply hoare_read_bind; [apply row_get_reads |]. intros platform.
      apply hoare_alloc_bind. intros a Hba Hnew.
      apply hoare_read_bind; [apply names_of_reads |]. intros names.
      eapply hoare_bind.
      * apply seeding_safe. intros field.
        apply hoare_read_bind; [apply row_get_reads |]. intros value.
        apply hoare_dict_store; [exact Hba |].
        apply stable_and; [apply fresh_stable | apply is_dict_stable].
      * intros []. apply hoare_done. intros s [Hf Ha].
        now apply fresh_set.
    + apply hoare_done. auto.
  - intros g'. apply hoare_read_bind; [apply names_of_reads |]. intros names.
    eapply hoare_bind.
    + apply adding_safe. intros field.
      apply hoare_read_bind; [apply row_get_reads |]. intros value.
      destruct (is_number value); [apply add_to_safe | apply hoare_done; auto].
    + intros []. apply hoare_done. auto.
Qed.

Lemma aggregate_by_platform_safe (insights all_fields : addr) :
  hoare b (fun _ => True) (aggregate_by_platform insights all_fields)
    (fun out s =>
       exists refs,
         nth_error s out = Some (ORefs refs) /\ b <= out /\ NoDup refs
         /\ Forall (fun a => b <= a /\ is_dict s a) refs).
Proof.
  unfold aggregate_by_platform.
  apply hoare_read_bind; [apply refs_of_reads |]. intros rows.
  eapply hoare_bind; [| intros g; apply alloc_refs_safe].
  apply hoare_conseq with (P := fresh b []) (Q := fresh b);
    [intros s Htrue; apply fresh_nil | intros g s H; exact H |].
  apply (hoare_for_each (fresh b)). intros g row Hrow.
  apply hoare_read_bind; [apply row_get_reads |]. intros platform.
  apply hoare_lift_bind. intros k _.
  apply hoare_bind with (Q := fun g' s => fresh b g' s).
  - destruct (negb (groups_mem g k)).
    + apply hoare_alloc_bind. intros a Hba Hnew.
      apply hoare_read_bind; [apply names_of_reads |]. intros names.
      eapply hoare_bind.
      * apply seeding_safe. intros field.
        destruct (String.eqb field "Platform"); [apply hoare_done; auto |].
        apply hoare_read_bind; [apply row_get_reads |]. intros value.
        apply hoare_dict_store; [exact Hba |].
        apply stable_and; [apply fresh_stable | apply is_dict_stable].
      * intros []. apply hoare_done. intros s [Hf Ha].
        now apply fresh_set.
    + apply hoare_done. auto.
  - intros g'. apply hoare_read_bind; [apply names_of_reads |]. intros names.
    eapply hoare_bind.
    + apply adding_safe. intros field.
      destruct (String.eqb field "Platform"); [apply hoare_done; auto |].
      apply hoare_read_bind; [apply row_get_reads |]. intros value.
      destruct (is_number value); [apply add_to_safe | apply hoare_done; auto].
    + intros []. apply hoare_done. auto.
Qed.

End Rules.

(** The aggregators on the store do what the aggregators on values do. *)

Lemma update_update (s : store) (a : addr) (o o' : obj) :
  update (update s a o) a o' = update s a o'.
Proof.
  revert a; induction s as [| x s IH]; intros [| a]; simpl; auto.
  now rewrite IH.
Qed.

Lemma update_same (s : store) (a : addr) (o : obj) :
  nth_error s a = Some o -> update s a o = s.
Proof.
  revert a; induction s as [| x s IH]; intros [| a]; simpl; auto.
  - intros H. now injection H as ->.
  - intros H. now rewrite IH.
Qed.

Lemma nth_error_update_eq (s : store) (a : addr) (o o' : obj) :
  nth_error s a = Some o -> nth_error (update s a o') a = Some o'.
Proof.
  intros H. rewrite nth_error_update, Nat.eqb_refl. now rewrite H.
Qed.

Lemma nth_error_update_neq (s : store) (a a' : addr) (o : obj) :
  a <> a' -> nth_error (update s a o) a' = nth_error s a'.
Proof.
  intros H. rewrite nth_error_update.
  now destruct (Nat.eqb_spec a a').
Qed.

Lemma row_get_at (s : store) (row : addr) (d : dict) (k : string)
      (default : value) :
  nth_error s row = Some (ODict d) ->
  row_get row k default s = (Ok (dict_get d k default), s).
Proof. intros H. unfold row_get. now rewrite H. Qed.

Lemma dict_load_at (s : store) (a : addr) (d : dict) (k : string) :
  nth_error s a = Some (ODict d) -> dict_load a k s = (dict_item d k, s).
Proof. intros H. unfold dict_load. now rewrite H. Qed.

Lemma dict_store_at (s : store) (a : addr) (d : dict) (k : string) (v : value) :
  nth_error s a = Some (ODict d) ->
  dict_store a k v s = (Ok tt, update s a (ODict (dict_set d k v))).
Proof. intros H. unfold dict_store. now rewrite H. Qed.

Lemma names_of_at (s : store) (a : addr) (l : list string) :
  nth_error s a = Some (ONames l) -> names_of a s = (Ok l, s).
Proof. intros H. unfold names_of. now rewrite H. Qed.


Lemma bindS_assoc {A B C : Type} (m : ST A) (f : A -> ST B) (g : B -> ST C)
      (s : store) :
  bindS (bindS m f) g s = bindS m (fun x => bindS (f x) g) s.
Proof. unfold bindS. now destruct (m s) as [[a | e] s1]. Qed.

Lemma bindS_run {A B : Type} (m : ST A) (f : A -> ST B) (s : store)
      (r : result A) (s1 : store) :
  m s = (r, s1) ->
  bindS m f s = match r with Ok a => f a s1 | Raise e => (Raise e, s1) end.
Proof. intros H. unfold bindS. now rewrite H. Qed.

Lemma bindS_raise {A B : Type} (m : ST A) (f : A -> ST B) (s : store)
      (e : exn) :
  fst (m s) = Raise e -> fst (bindS m f s) = Raise e.
Proof.
  unfold bindS. destruct (m s) as [[a | e'] s1]; simpl; congruence.
Qed.

Lemma bindS_ret {A B : Type} (a : A) (f : A -> ST B) (s : store) :
  bindS (ret a) f s = f a s.
Proof. reflexivity. Qed.

Lemma bindS_lift {A B : Type} (r : result A) (f : A -> ST B) (s : store) :
  bindS (lift r) f s
  = match r with Ok a => f a s | Raise e => (Raise e, s) end.
Proof. reflexivity. Qed.

Lemma bindS_alloc {B : Type} (o : obj) (f : addr -> ST B) (s : store) :
  bindS (alloc o) f s = f (List.length s) (s ++ [o]).
Proof. reflexivity. Qed.

Lemma bindS_row_get {B : Type} (s : store) (row : addr) (d : dict)
      (k : string) (default : value) (f : value -> ST B) :
  nth_error s row = Some (ODict d) ->
  bindS (row_get row k default) f s = f (dict_get d k default) s.
Proof. intros H. unfold bindS. now rewrite (row_get_at s row d). Qed.

Lemma bindS_dict_load {B : Type} (s : store) (a : addr) (d : dict)
      (k : string) (f : value -> ST B) :
  nth_error s a = Some (ODict d) ->
  bindS (dict_load a k) f s
  = match dict_item d k with Ok v => f v s | Raise e => (Raise e, s) end.
Proof. intros H. unfold bindS. now rewrite (dict_load_at s a d). Qed.

Lemma bindS_dict_store {B : Type} (s : store) (a : addr) (d : dict)
      (k : string) (v : value) (f : unit -> ST B) :
  nth_error s a = Some (ODict d) ->
  bindS (dict_store a k v) f s = f tt (update s a (ODict (dict_set d k v))).
Proof. intros H. unfold bindS. now rewrite (dict_store_at s a d). Qed.

Lemma bindS_names_of {B : Type} (s : store) (a : addr) (l : list string)
      (f : list string -> ST B) :
  nth_error s a = Some (ONames l) -> bindS (names_of a) f s = f l s.
Proof. intros H. unfold bindS. now rewrite (names_of_at s a l). Qed.

Lemma for_each_unless {B : Type} (p : B -> bool) (f : unit -> B -> ST unit)
      (l : list B) :
  forall s,
    for_each (fun u x => if p x then ret tt else f u x) l tt s
    = for_each f (filter (fun x => negb (p x)) l) tt s.
Proof.
  induction l as [| x l IH]; intros s; [reflexivity |].
  cbn [for_each filter]. destruct (p x); cbn [negb].
  - rewrite bindS_ret. apply IH.
  - cbn [for_each]. unfold bindS.
    destruct (f tt x s) as [[[] | e] s1]; [apply IH | reflexivity].
Qed.

Lemma seeding_runs (default : value) (row a : addr) (d_row : dict) :
  row <> a ->
  forall (names : list string) (s : store) (d : dict),
    nth_error s row = Some (ODict d_row) ->
    nth_error s a = Some (ODict d) ->
    seeding default row a names s
    = (Ok tt,
       update s a
         (ODict
            (fold_left
               (fun agg_row field =>
                  dict_set agg_row field
                    (if is_number (dict_get d_row field default) then VInt 0
                     else VStr ""))
               names d))).
Proof.
  intros Hne. unfold seeding.
  induction names as [| f names IH]; intros s d Hrow Ha.
  - cbn. now rewrite update_same.
  - cbn [for_each fold_left]. rewrite bindS_assoc.
    rewrite (bindS_row_get s row d_row) by assumption.
    rewrite (bindS_dict_store s a d) by assumption.
    rewrite (IH _ (dict_set d f
                     (if is_number (dict_get d_row f default) then VInt 0
                      else VStr ""))).
    + now rewrite update_update.
    + rewrite nth_error_update_neq; auto.
    + now apply nth_error_update_eq with (o := ODict d).
Qed.

Lemma adding_runs (default : value) (row a : addr) (d_row : dict)
      (gh : groups) (k : hkey) :
  row <> a -> groups_item gh k = Ok a ->
  forall (names : list string) (s : store) (d : dict),
    nth_error s row = Some (ODict d_row) ->
    nth_error s a = Some (ODict d) ->
    match Grouping.accumulate default names d d_row with
    | Ok d' => adding default row gh k names s = (Ok tt, update s a (ODict d'))
    | Raise e => fst (adding default row gh k names s) = Raise e
    end.
Proof.
  intros Hne Hitem. unfold Grouping.accumulate, adding. rewrite Hitem.
  induction names as [| f names IH]; intros s d Hrow Ha.
  - cbn. now rewrite update_same.
  - cbn [for_each foldM]. rewrite bindS_assoc.
    rewrite (bindS_row_get s row d_row) by assumption.
    destruct (is_number (dict_get d_row f default)).
    + rewrite bindS_assoc, bindS_lift.
      rewrite bindS_assoc, (bindS_dict_load s a d) by assumption.
      destruct (dict_item d f) as [old | e]; cbn [bind]; [| reflexivity].
      rewrite bindS_assoc, bindS_lift.
      destruct (add old (dict_get d_row f default)) as [new | e];
        cbn [bind]; [| reflexivity].
      rewrite (bindS_dict_store s a d) by assumption.
      specialize (IH (update s a (ODict (dict_set d f new)))
                    (dict_set d f new)).
      rewrite nth_error_update_neq in IH by auto.
      rewrite (nth_error_update_eq s a (ODict d)) in IH by assumption.
      specialize (IH Hrow eq_refl).
      destruct (foldM _ names (dict_set d f new)) as [d' | e].
      * now rewrite IH, update_update.
      * exact IH.
    + rewrite bindS_ret. cbn [bind]. exact (IH s d Hrow Ha).
Qed.

Lemma grows_below (b : nat) (s s' : store) (x : addr) :
  grows b s s' -> x < b -> nth_error s' x = nth_error s x.
Proof.
  intros (Hfirst & _ & _) Hx.
  pose proof (nth_error_firstn b s' x) as H1.
  pose proof (nth_error_firstn b s x) as H2.
  rewrite Hfirst in H1. destruct (Nat.ltb_spec x b); [congruence | lia].
Qed.

Lemma linked_find_none (s : store) (g : Aggregate.groups) (gh : groups)
      (k : hkey) :
  Forall2 (linked s) g gh ->
  Aggregate.groups_find g k = None -> groups_find gh k = None.
Proof.
  induction 1 as [| [k1 d1] [k2 a2] g gh [Hk _] _ IH]; [reflexivity |].
  simpl in *. subst k2. destruct (hkey_eqb k1 k); [discriminate | exact IH].
Qed.

Lemma linked_find_some (s : store) (g : Aggregate.groups) (gh : groups)
      (k : hkey) (d : dict) :
  Forall2 (linked s) g gh ->
  Aggregate.groups_find g k = Some d ->
  exists a,
    groups_find gh k = Some a /\ nth_error s a = Some (ODict d)
    /\ In a (map snd gh).
Proof.
  induction 1 as [| [k1 d1] [k2 a2] g gh [Hk Ha] _ IH]; [discriminate |].
  simpl in *. subst k2. destruct (hkey_eqb k1 k).
  - intros H. injection H as <-. eauto.
  - intros H. destruct (IH H) as (a & H1 & H2 & H3). eauto.
Qed.

Lemma linked_keep (s s' : store) (g : Aggregate.groups) (gh : groups) :
  Forall2 (linked s) g gh ->
  (forall a, In a (map snd gh) -> nth_error s' a = nth_error s a) ->
  Forall2 (linked s') g gh.
Proof.
  induction 1 as [| x y g gh [Hk Ha] _ IH]; intros Hsame; constructor.
  - split; [exact Hk |]. rewrite Hsame; [exact Ha | now left].
  - apply IH. intros a Hin. apply Hsame. now right.
Qed.

Lemma linked_bound (s : store) (g : Aggregate.groups) (gh : groups) :
  Forall2 (linked s) g gh ->
  forall a, In a (map snd gh) -> a < List.length s.
Proof.
  induction 1 as [| x y g gh [Hk Ha] _ IH]; intros a; simpl; [tauto |].
  intros [<- | Hin]; [| auto].
  apply nth_error_Some. congruence.
Qed.

Lemma linked_set (s : store) (g : Aggregate.groups) (gh : groups)
      (k : hkey) (d d' : dict) (a : addr) :
  Forall2 (linked s) g gh -> NoDup (map snd gh) ->
  Aggregate.groups_find g k = Some d -> groups_find gh k = Some a ->
  Forall2 (linked (update s a (ODict d'))) (Aggregate.groups_set g k d') gh.
Proof.
  induction 1 as [| [k1 d1] [k2 a2] g gh [Hk Ha] Hrest IH]; [discriminate |].
  simpl in *. subst k2. intros Hnd Hg Hgh.
  apply NoDup_cons_iff in Hnd. destruct Hnd as [Hnotin Hnd].
  destruct (hkey_eqb k1 k).
  - injection Hg as <-. injection Hgh as <-. constructor.
    + split; [reflexivity |]. simpl.
      now apply nth_error_update_eq with (o := ODict d1).
    + apply linked_keep with (s := s); [exact Hrest |].
      intros x Hin. apply nth_error_update_neq. congruence.
  - constructor.
    + split; [reflexivity |]. simpl. rewrite nth_error_update_neq; auto.
      intros ->. apply Hnotin. apply refs_item_In with (k := k).
      unfold groups_item. now rewrite Hgh.
    + now apply IH.
Qed.

Lemma refs_set_new (gh : groups) (k : hkey) (a : addr) :
  groups_find gh k = None -> groups_set gh k a = gh ++ [(k, a)].
Proof.
  induction gh as [| [k0 a0] gh IH]; simpl; [reflexivity |].
  destruct (hkey_eqb k0 k); intros H; [discriminate |].
  now rewrite IH.
Qed.

Lemma refs_find_last (gh : groups) (k : hkey) (a : addr) :
  groups_find gh k = None -> groups_find (gh ++ [(k, a)]) k = Some a.
Proof.
  induction gh as [| [k0 a0] gh IH]; simpl.
  - now rewrite GroupFacts.hkey_eqb_refl.
  - destruct (hkey_eqb k0 k); intros H; [discriminate | auto].
Qed.

Section OneRow.

Variable b : nat.
Variable default : value.
Variable sel : list string -> list string.
Variable fields row : addr.
Variable names : list string.
Variable d_row : dict.
Variable k : hkey.
Variable a : addr.
Variable sd : list string -> ST unit.
Variable ad : groups -> list string -> ST unit.

Hypothesis sd_seeds : forall l s, sd l s = seeding default row a (sel l) s.
Hypothesis ad_adds :
  forall gh l s, ad gh l s = adding default row gh k (sel l) s.
Hypothesis fields_below : fields < b.
Hypothesis row_below : row < b.

Lemma old_group_runs (s : store) (g : Aggregate.groups) (gh : groups)
      (d : dict) :
  nth_error s fields = Some (ONames names) ->
  nth_error s row = Some (ODict d_row) ->
  sim b s g gh ->
  Aggregate.groups_find g k = Some d ->
  match Grouping.accumulate default (sel names) d d_row with
  | Ok d' =>
      exists s',
        finish fields ad gh s = (Ok gh, s')
        /\ sim b s' (Aggregate.groups_set g k d') gh /\ grows b s s'
  | Raise e => fst (finish fields ad gh s) = Raise e
  end.
Proof.
  intros Hfields Hrow (Hlink & Hnd & Hge) Hfind.
  destruct (linked_find_some s g gh k d Hlink Hfind) as (x & Hgh & Hx & Hin).
  assert (Hbx : b <= x) by (rewrite Forall_forall in Hge; auto).
  assert (Hne : row <> x) by lia.
  assert (Hitem : groups_item gh k = Ok x)
    by (unfold groups_item; now rewrite Hgh).
  pose proof (adding_runs default row x d_row gh k Hne Hitem (sel names) s d
                Hrow Hx) as Hrun.
  unfold finish. rewrite (bindS_names_of s fields names) by assumption.
  unfold bindS. rewrite ad_adds.
  destruct (Grouping.accumulate default (sel names) d d_row) as [d' | e].
  - rewrite Hrun. exists (update s x (ODict d')). split; [reflexivity |].
    split; [| now apply grows_update with (d := d)].
    split; [| now split]. now apply linked_set with (d := d).
  - destruct (adding default row gh k (sel names) s) as [[[] | e'] s1];
      simpl in *; congruence.
Qed.

Lemma new_group_runs (s : store) (g : Aggregate.groups) (gh : groups)
      (st : dict) :
  a = List.length s ->
  b <= List.length s ->
  nth_error s fields = Some (ONames names) ->
  nth_error s row = Some (ODict d_row) ->
  sim b s g gh ->
  Aggregate.groups_find g k = None ->
  match
    Grouping.accumulate default (sel names)
      (fold_left
         (fun agg_row field =>
            dict_set agg_row field
              (if is_number (dict_get d_row field default) then VInt 0
               else VStr ""))
         (sel names) st)
      d_row
  with
  | Ok d' =>
      exists s',
        bindS (start_group fields k a sd gh) (finish fields ad)
          (s ++ [ODict st])
        = (Ok (gh ++ [(k, a)]), s')
        /\ sim b s' (g ++ [(k, d')]) (gh ++ [(k, a)])
        /\ grows b s s'
  | Raise e =>
      fst (bindS (start_group fields k a sd gh) (finish fields ad)
             (s ++ [ODict st]))
      = Raise e
  end.
Proof.
  intros Hlen Hb Hfields Hrow (Hlink & Hnd & Hge) Hfind.
  pose proof (linked_find_none s g gh k Hlink Hfind) as Hnone.
  pose proof (linked_bound s g gh Hlink) as Hbound.
  set (s1 := s ++ [ODict st]).
  assert (Hne : row <> a) by lia.
  assert (Hfields1 : nth_error s1 fields = Some (ONames names)).
  { unfold s1. rewrite nth_error_app1 by lia. exact Hfields. }
  assert (Hrow1 : nth_error s1 row = Some (ODict d_row)).
  { unfold s1. rewrite nth_error_app1 by lia. exact Hrow. }
  assert (Ha1 : nth_error s1 a = Some (ODict st)).
  { unfold s1. rewrite Hlen, nth_error_app2 by lia.
    now rewrite Nat.sub_diag. }
  unfold start_group. rewrite bindS_assoc.
  rewrite (bindS_names_of s1 fields names) by assumption.
  rewrite bindS_assoc.
  rewrite (bindS_run (sd names) _ s1 (Ok tt) _
             (eq_trans (sd_seeds names s1)
                (seeding_runs default row a d_row Hne (sel names) s1 st
                   Hrow1 Ha1))).
  rewrite bindS_ret. set (gh1 := groups_set gh k a).
  assert (Hgh1 : gh1 = gh ++ [(k, a)]) by now apply refs_set_new.
  set (seed := fold_left _ (sel names) st).
  set (s2 := update s1 a (ODict seed)).
  assert (Hfields2 : nth_error s2 fields = Some (ONames names)).
  { unfold s2. rewrite nth_error_update_neq by lia. exact Hfields1. }
  assert (Hrow2 : nth_error s2 row = Some (ODict d_row)).
  { unfold s2. rewrite nth_error_update_neq by lia. exact Hrow1. }
  assert (Ha2 : nth_error s2 a = Some (ODict seed)).
  { unfold s2. now apply nth_error_update_eq with (o := ODict st). }
  assert (Hitem : groups_item gh1 k = Ok a).
  { unfold groups_item. now rewrite Hgh1, refs_find_last. }
  pose proof (adding_runs default row a d_row gh1 k Hne Hitem (sel names)
                s2 seed Hrow2 Ha2) as Hrun.
  unfold finish. rewrite (bindS_names_of s2 fields names) by assumption.
  unfold bindS. rewrite ad_adds.
  destruct (Grouping.accumulate default (sel names) seed d_row) as [d' | e].
  - rewrite Hrun. exists (update s2 a (ODict d')).
    split; [now rewrite Hgh1 |].
    unfold s2. rewrite update_update. split.
    + split; [| split].
      * apply Forall2_app.
        -- apply linked_keep with (s := s); [exact Hlink |].
           intros x Hin. specialize (Hbound x Hin).
           rewrite nth_error_update_neq by lia.
           unfold s1. now apply nth_error_app1.
        -- constructor; [| constructor]. split; [reflexivity |]. simpl.
           now apply nth_error_update_eq with (o := ODict st).
      * rewrite map_app. simpl. apply NoDup_app; [exact Hnd | | ].
        -- constructor; [simpl; tauto | constructor].
        -- intros x Hin [<- | []]. specialize (Hbound _ Hin). lia.
      * rewrite map_app. apply Forall_app. split; [exact Hge |].
        simpl. constructor; [lia | constructor].
    + apply grows_trans with (s' := s1); [now apply grows_alloc |].
      apply grows_update with (d := st); [lia | exact Ha1].
  - destruct (adding default row gh1 k (sel names) s2)
      as [[[] | e'] s3]; simpl in *; congruence.
Qed.

End OneRow.

Lemma inputs_keep (b : nat) (s s' : store) (rows : list addr)
      (ds : list dict) :
  grows b s s' -> inputs b s rows ds -> inputs b s' rows ds.
Proof.
  intros Hgrows. induction 1 as [| a d rows ds [Hlt Ha] _ IH]; constructor.
  - split; [exact Hlt |]. now rewrite (grows_below b s s').
  - exact IH.
Qed.

Lemma loop_runs (b : nat) (fields : addr) (names : list string)
      (stepf : Aggregate.groups -> row -> result Aggregate.groups)
      (body : groups -> addr -> ST groups) :
  fields < b ->
  (forall s g gh row d_row,
      b <= List.length s -> row < b ->
      nth_error s fields = Some (ONames names) ->
      nth_error s row = Some (ODict d_row) ->
      sim b s g gh ->
      match stepf g d_row with
      | Ok g' =>
          exists gh' s',
            body gh row s = (Ok gh', s') /\ sim b s' g' gh' /\ grows b s s'
      | Raise e => fst (body gh row s) = Raise e
      end) ->
  forall (rows : list addr) (ds : list row) s g gh,
    b <= List.length s ->
    nth_error s fields = Some (ONames names) ->
    inputs b s rows ds ->
    sim b s g gh ->
    match foldM stepf ds g with
    | Ok g' =>
        exists gh' s',
          for_each body rows gh s = (Ok gh', s')
          /\ sim b s' g' gh' /\ grows b s s'
    | Raise e => fst (for_each body rows gh s) = Raise e
    end.
Proof.
  intros Hfb Hstep. induction rows as [| row rows IH];
    intros ds s g gh Hb Hfields Hin Hsim;
    inversion Hin as [| ? d_row ? ds' [Hlt Hrow] Hrest]; subst.
  - cbn. exists gh, s. split; [reflexivity |]. split; [exact Hsim |].
    apply grows_refl.
  - cbn [foldM for_each].
    specialize (Hstep s g gh row d_row Hb Hlt Hfields Hrow Hsim).
    destruct (stepf g d_row) as [g1 | e]; cbn [bind].
    + destruct Hstep as (gh1 & s1 & Hrun & Hsim1 & Hkeep1).
      unfold bindS. rewrite Hrun.
      assert (Hb1 : b <= List.length s1)
        by (destruct Hkeep1 as (_ & H & _); lia).
      assert (Hfields1 : nth_error s1 fields = Some (ONames names))
        by now rewrite (grows_below b s s1).
      specialize (IH ds' s1 g1 gh1 Hb1 Hfields1
                    (inputs_keep b s s1 rows ds' Hkeep1 Hrest) Hsim1).
      destruct (foldM stepf ds' g1) as [g2 | e]; [| exact IH].
      destruct IH as (gh2 & s2 & Hrun2 & Hsim2 & Hkeep2).
      exists gh2, s2. split; [exact Hrun2 |]. split; [exact Hsim2 |].
      now apply grows_trans with (s' := s1).
    + unfold bindS. destruct (body gh row s) as [[gh1 | e1] s1];
        simpl in *; congruence.
Qed.

Lemma sim_holds (b : nat) (s : store) (g : Aggregate.groups) (gh : groups) :
  sim b s g gh -> holds s (map snd gh) (map snd g).
Proof.
  intros [Hlink _]. induction Hlink as [| x y g gh [_ Ha] _ IH]; constructor.
  - exact Ha.
  - exact IH.
Qed.

Lemma holds_alloc (s : store) (refs : list addr) (ds : list dict) (o : obj) :
  holds s refs ds -> holds (s ++ [o]) refs ds.
Proof.
  induction 1 as [| a d refs ds Ha _ IH]; constructor; [| exact IH].
  rewrite nth_error_app1; [exact Ha |]. apply nth_error_Some. congruence.
Qed.

Lemma inputs_of_holds (s : store) (rows : list addr) (ds : list dict) :
  holds s rows ds -> inputs (List.length s) s rows ds.
Proof.
  induction 1 as [| a d rows ds Ha _ IH]; constructor; [| exact IH].
  split; [| exact Ha]. apply nth_error_Some. congruence.
Qed.

Lemma sim_nil (b : nat) (s : store) : sim b s [] [].
Proof. repeat split; constructor. Qed.

Lemma refs_of_at (s : store) (a : addr) (l : list addr) :
  nth_error s a = Some (ORefs l) -> refs_of a s = (Ok l, s).
Proof. intros H. unfold refs_of. now rewrite H. Qed.

(** Both aggregators: the list of rows is read, the rows are gone through
    and the rows of the groups are put in a new list. *)
Lemma aggregator_runs (insights fields : addr) (s : store)
      (rows : list addr) (ds : list row) (names : list string)
      (stepf : Aggregate.groups -> row -> result Aggregate.groups)
      (body : groups -> addr -> ST groups) :
  nth_error s insights = Some (ORefs rows) ->
  nth_error s fields = Some (ONames names) ->
  holds s rows ds ->
  (forall s0 g gh row d_row,
      List.length s <= List.length s0 -> row < List.length s ->
      nth_error s0 fields = Some (ONames names) ->
      nth_error s0 row = Some (ODict d_row) ->
      sim (List.length s) s0 g gh ->
      match stepf g d_row with
      | Ok g' =>
          exists gh' s',
            body gh row s0 = (Ok gh', s')
            /\ sim (List.length s) s' g' gh' /\ grows (List.length s) s0 s'
      | Raise e => fst (body gh row s0) = Raise e
      end) ->
  match bind (foldM stepf ds []) (fun g => Ok (Aggregate.groups_values g)) with
  | Ok out_rows =>
      exists refs s',
        bindS (refs_of insights)
          (fun rows =>
             bindS (for_each body rows [])
               (fun aggregated => alloc (ORefs (map snd aggregated))))
          s
        = (Ok (List.length s'), s' ++ [ORefs refs])
        /\ holds (s' ++ [ORefs refs]) refs out_rows
        /\ grows (List.length s) s s'
  | Raise e =>
      fst (bindS (refs_of insights)
             (fun rows =>
                bindS (for_each body rows [])
                  (fun aggregated => alloc (ORefs (map snd aggregated))))
             s)
      = Raise e
  end.
Proof.
  intros Hins Hfields Hrows Hstep.
  assert (Hfb : fields < List.length s)
    by (apply nth_error_Some; congruence).
  pose proof (loop_runs (List.length s) fields names stepf body Hfb Hstep
                rows ds s [] [] (le_n _) Hfields
                (inputs_of_holds s rows ds Hrows) (sim_nil _ s)) as Hloop.
  rewrite (bindS_run (refs_of insights) _ s (Ok rows) s
             (refs_of_at s insights rows Hins)).
  destruct (foldM stepf ds []) as [g | e]; cbn [bind].
  - destruct Hloop as (gh & s' & Hrun & Hsim & Hkeep).
    exists (map snd gh), s'. split; [| split; [| exact Hkeep]].
    + now rewrite (bindS_run _ _ s (Ok gh) s' Hrun).
    + apply holds_alloc. exact (sim_holds _ s' g gh Hsim).
  - now apply bindS_raise.
Qed.

(** What [aggregate_by_account] does on a store of objects is what it does
    on values. *)
Lemma aggregate_by_account_on_store (insights fields : addr) (s : store)
      (rows : list addr) (ds : list row) (names : list string) :
  nth_error s insights = Some (ORefs rows) ->
  nth_error s fields = Some (ONames names) ->
  holds s rows ds ->
  match Aggregate.aggregate_by_account ds names with
  | Ok out_rows =>
      exists refs s',
        aggregate_by_account insights fields s
        = (Ok (List.length s'), s' ++ [ORefs refs])
        /\ holds (s' ++ [ORefs refs]) refs out_rows
        /\ grows (List.length s) s s'
  | Raise e => fst (aggregate_by_account insights fields s) = Raise e
  end.
Proof.
  intros Hins Hfields Hrows.
  assert (Hfb : fields < List.length s)
    by (apply nth_error_Some; congruence).
  rewrite GroupFacts.aggregate_by_account_run. unfold Grouping.run.
  apply (aggregator_runs insights fields s rows ds names); try assumption.
  intros s0 g gh row d_row Hb Hlt Hf Hrow Hsim.
  rewrite (bindS_row_get s0 row d_row) by assumption.
  rewrite bindS_lift.
  destruct (key_of (dict_get d_row "Account" VNone)) as [k | e] eqn:Hk.
  2: { unfold Grouping.step, Grouping.key_of_row. now rewrite Hk. }
  destruct (Aggregate.groups_find g k) as [d |] eqn:Hfind.
  - rewrite (GroupFacts.step_old _ _ _ _ g d_row k d Hk Hfind).
    destruct (linked_find_some s0 g gh k d (proj1 Hsim) Hfind)
      as (x & Hgh & _).
    unfold groups_mem. rewrite Hgh. cbn [negb].
    match goal with
    | |- context [bindS _ (fun g1 => bindS (names_of fields)
                                 (fun l => bindS (@?ad g1 l) _)) s0] =>
        pose proof (old_group_runs (List.length s) VNone (fun l => l)
                      fields row names d_row k ad
                      (fun _ _ _ => eq_refl) Hfb Hlt s0 g gh d Hf Hrow
                      Hsim Hfind) as H
    end.
    cbv beta in H. revert H.
    destruct (Grouping.accumulate VNone names d d_row) as [d' | e];
      cbn [bind]; [| exact (fun H => H)].
    intros (s' & Hrun & Hsim' & Hkeep). exists gh, s'. auto.
  - rewrite (GroupFacts.step_new _ _ _ _ g d_row k Hk Hfind).
    unfold groups_mem.
    rewrite (linked_find_none s0 g gh k (proj1 Hsim) Hfind). cbn [negb].
    rewrite bindS_assoc.
    rewrite (bindS_row_get s0 row d_row) by assumption. cbv beta.
    rewrite bindS_assoc, bindS_alloc. cbv beta.
    match goal with
    | |- context [bindS (bindS (names_of fields)
                           (fun l => bindS (@?sd l) _))
                    (fun g1 => bindS (names_of fields)
                                 (fun l' => bindS (@?ad g1 l') _)) _] =>
        pose proof (new_group_runs (List.length s) VNone (fun l => l)
                      fields row names d_row k (List.length s0) sd ad
                      (fun _ _ => eq_refl) (fun _ _ _ => eq_refl) Hfb Hlt
                      s0 g gh
                      (Grouping.start_account d_row
                         (dict_get d_row "Account" VNone))
                      eq_refl Hb Hf Hrow Hsim Hfind) as H
    end.
    cbv beta in H. revert H. unfold Grouping.seed.
    match goal with
    | |- match ?r with _ => _ end -> _ => destruct r as [d' | e]
    end; cbn [bind]; [| exact (fun H => H)].
    intros (s' & Hrun & Hsim' & Hkeep).
    exists (gh ++ [(k, List.length s0)]), s'. auto.
Qed.

(** And so for [aggregate_by_platform]. *)
Lemma aggregate_by_platform_on_store (insights all_fields : addr) (s : store)
      (rows : list addr) (ds : list row) (names : list string) :
  nth_error s insights = Some (ORefs rows) ->
  nth_error s all_fields = Some (ONames names) ->
  holds s rows ds ->
  match Aggregate.aggregate_by_platform ds names with
  | Ok out_rows =>
      exists refs s',
        aggregate_by_platform insights all_fields s
        = (Ok (List.length s'), s' ++ [ORefs refs])
        /\ holds (s' ++ [ORefs refs]) refs out_rows
        /\ grows (List.length s) s s'
  | Raise e => fst (aggregate_by_platform insights all_fields s) = Raise e
  end.
Proof.
  intros Hins Hfields Hrows.
  assert (Hfb : all_fields < List.length s)
    by (apply nth_error_Some; congruence).
  rewrite GroupFacts.aggregate_by_platform_run. unfold Grouping.run.
  apply (aggregator_runs insights all_fields s rows ds names);
    try assumption.
  intros s0 g gh row d_row Hb Hlt Hf Hrow Hsim.
  rewrite (bindS_row_get s0 row d_row) by assumption.
  rewrite bindS_lift.
  destruct (key_of (dict_get d_row "Platform" VNone)) as [k | e] eqn:Hk.
  2: { unfold Grouping.step, Grouping.key_of_row. now rewrite Hk. }
  destruct (Aggregate.groups_find g k) as [d |] eqn:Hfind.
  - rewrite (GroupFacts.step_old _ _ _ _ g d_row k d Hk Hfind).
    destruct (linked_find_some s0 g gh k d (proj1 Hsim) Hfind)
      as (x & Hgh & _).
    unfold groups_mem. rewrite Hgh. cbn [negb].
    match goal with
    | |- context [bindS _ (fun g1 => bindS (names_of all_fields)
                                 (fun l => bindS (@?ad g1 l) _)) s0] =>
        assert (Had : forall gh l s,
                   ad gh l s
                   = adding (VStr "") row gh k
                       (filter Grouping.not_platform l) s)
          by (intros; exact (for_each_unless
                               (fun field => String.eqb field "Platform")
                               _ _ _));
        pose proof (old_group_runs (List.length s) (VStr "")
                      (filter Grouping.not_platform)
                      all_fields row names d_row k ad Had Hfb Hlt s0 g gh d
                      Hf Hrow Hsim Hfind) as H
    end.
    cbv beta in H. revert H.
    match goal with
    | |- match ?r with _ => _ end -> _ => destruct r as [d' | e]
    end; cbn [bind]; [| exact (fun H => H)].
    intros (s' & Hrun & Hsim' & Hkeep). exists gh, s'. auto.
  - rewrite (GroupFacts.step_new _ _ _ _ g d_row k Hk Hfind).
    unfold groups_mem.
    rewrite (linked_find_none s0 g gh k (proj1 Hsim) Hfind). cbn [negb].
    rewrite bindS_assoc, bindS_alloc. cbv beta.
    match goal with
    | |- context [bindS (bindS (names_of all_fields)
                           (fun l => bindS (@?sd l) _))
                    (fun g1 => bindS (names_of all_fields)
                                 (fun l' => bindS (@?ad g1 l') _)) _] =>
        assert (Hsd : forall l s,
                   sd l s
                   = seeding (VStr "") row (List.length s0)
                       (filter Grouping.not_platform l) s)
          by (intros; exact (for_each_unless
                               (fun field => String.eqb field "Platform")
                               _ _ _));
        assert (Had : forall gh l s,
                   ad gh l s
                   = adding (VStr "") row gh k
                       (filter Grouping.not_platform l) s)
          by (intros; exact (for_each_unless
                               (fun field => String.eqb field "Platform")
                               _ _ _));
        pose proof (new_group_runs (List.length s) (VStr "")
                      (filter Grouping.not_platform)
                      all_fields row names d_row k (List.length s0) sd ad
                      Hsd Had Hfb Hlt s0 g gh
                      (Grouping.start_platform d_row
                         (dict_get d_row "Platform" VNone))
                      eq_refl Hb Hf Hrow Hsim Hfind) as H
    end.
    cbv beta in H. revert H. unfold Grouping.seed.
    match goal with
    | |- match ?r with _ => _ end -> _ => destruct r as [d' | e]
    end; cbn [bind]; [| exact (fun H => H)].
    intros (s' & Hrun & Hsim' & Hkeep).
    exists (gh ++ [(k, List.length s0)]), s'. auto.
Qed.

Lemma grows_prefix (s s' : store) :
  grows (List.length s) s s' -> exists t, s' = s ++ t.
Proof.
  intros (Hfirst & _ & _). exists (skipn (List.length s) s').
  rewrite <- (firstn_skipn (List.length s) s') at 1.
  now rewrite Hfirst, firstn_all.
Qed.

(** C9.  On a store of objects each aggregator ends, whether it returns
    or raises, in a store that is the one it started from with new objects
    after it: the input rows, the field list and the list of rows are as
    they were.  When it returns, the result is a new list of distinct
    references to dicts that are new as well. *)
Theorem aggregators_leave_inputs (insights fields : addr) (s : store) :
  (exists t, snd (aggregate_by_account insights fields s) = s ++ t)
  /\ (forall out,
         fst (aggregate_by_account insights fields s) = Ok out ->
         exists refs,
           nth_error (snd (aggregate_by_account insights fields s)) out
           = Some (ORefs refs)
           /\ List.length s <= out /\ NoDup refs
           /\ Forall
                (fun a =>
                   List.length s <= a
                   /\ is_dict (snd (aggregate_by_account insights fields s)) a)
                refs)
  /\ (exists t, snd (aggregate_by_platform insights fields s) = s ++ t)
  /\ (forall out,
         fst (aggregate_by_platform insights fields s) = Ok out ->
         exists refs,
           nth_error (snd (aggregate_by_platform insights fields s)) out
           = Some (ORefs refs)
           /\ List.length s <= out /\ NoDup refs
           /\ Forall
                (fun a =>
                   List.length s <= a
                   /\ is_dict (snd (aggregate_by_platform insights fields s)) a)
                refs).
Proof.
  destruct (aggregate_by_account_safe (List.length s) insights fields s
              (le_n _) I) as [Hg Hq].
  destruct (aggregate_by_platform_safe (List.length s) insights fields s
              (le_n _) I) as [Hg' Hq'].
  split; [now apply grows_prefix |]. split; [exact Hq |].
  split; [now apply grows_prefix | exact Hq'].
Qed.

(** Two rows of one account: the result is the object 5, a list of the one
    new dict. *)
Lemma aggregators_leave_inputs_witness :
  exists refs,
    nth_error (snd (aggregate_by_account 0 3 two_rows)) 5 = Some (ORefs refs)
    /\ List.length two_rows <= 5 /\ NoDup refs
    /\ Forall
         (fun a =>
            List.length two_rows <= a
            /\ is_dict (snd (aggregate_by_account 0 3 two_rows)) a)
         refs.
Proof.
  exact (proj1 (proj2 (aggregators_leave_inputs 0 3 two_rows)) 5 eq_refl).
Defined.

End StoreFacts.

(** * More properties of the code *)

Module WireFacts.

Import Http Fetch Insights Wire.

Section WireFacts.

Variable world : Type.
Variable requests_get : request -> world -> result response * world.

Local Abbreviation M := (M world).

Variable P : request -> Prop.

Lemma sends_only_ret {A : Type} (a : A) : sends_only P (ret (world := world) a).
Proof.
  intros n r n' H. injection H as _ <-. exists []. split; [| constructor].
  now rewrite app_nil_r.
Qed.

Lemma sends_only_lift {A : Type} (r : result A) :
  sends_only P (lift (world := world) r).
Proof.
  intros n r' n' H. injection H as _ <-. exists []. split; [| constructor].
  now rewrite app_nil_r.
Qed.

Lemma sends_only_bind {A B : Type} (m : M A) (k : A -> M B) :
  sends_only P m -> (forall a, sends_only P (k a)) -> sends_only P (bindM m k).
Proof.
  intros Hm Hk n r n' H. unfold bindM in H.
  destruct (m n) as [[[a | e] n1] |] eqn:E; [| | discriminate].
  - destruct (Hm _ _ _ E) as (new1 & H1 & HP1).
    destruct (Hk a _ _ _ H) as (new2 & H2 & HP2).
    exists (new1 ++ new2). split.
    + now rewrite H2, H1, app_assoc.
    + apply Forall_app. now split.
  - injection H as _ <-. exact (Hm _ _ _ E).
Qed.

Lemma sends_only_for_each {A B : Type} (f : A -> B -> M A) (l : list B) :
  (forall a x, sends_only P (f a x)) ->
  forall a, sends_only P (for_each f l a).
Proof.
  intros Hf. induction l as [| x l IH]; intros a; cbn [for_each].
  - apply sends_only_ret.
  - apply sends_only_bind; [apply Hf | exact IH].
Qed.

Lemma sends_only_if {A : Type} (b : bool) (m m' : M A) :
  sends_only P m -> sends_only P m' -> sends_only P (if b then m else m').
Proof. now destruct b. Qed.

End WireFacts.

Section Routes.

Variable world : Type.
Variable requests_get : request -> world -> result response * world.
Variable float_of_str : string -> option float.
Variable repr_of_str : string -> string.
Variable set_iter : list value -> list value.

Lemma fetch_api_to_upstream (endpoint : string) (params : value) :
  In endpoint endpoints ->
  sends_only to_upstream (fetch_api requests_get endpoint params true).
Proof.
  intros Hin n r n' H. unfold fetch_api in H.
  destruct (requests_get _ (upstream n)) as [[resp | e] w].
  - eexists [_]. split.
    + destruct (status_code resp =? 200)%Z; [destruct (json resp) |];
        injection H as _ <-; reflexivity.
    + constructor; [| constructor]. split; [reflexivity |].
      exists endpoint. now split.
  - injection H as _ <-. eexists [_]. split; [reflexivity |].
    constructor; [| constructor]. split; [reflexivity |].
    exists endpoint. now split.
Qed.

Ltac sends :=
  repeat first
    [ apply sends_only_ret
    | apply sends_only_lift
    | apply sends_only_if
    | apply fetch_api_to_upstream; simpl; tauto
    | apply sends_only_bind; [| intros ?]
    | assumption ].

Lemma get_platforms_to_upstream :
  sends_only to_upstream (get_platforms requests_get).
Proof. unfold get_platforms. sends. Qed.

Lemma get_accounts_loop_to_upstream (fuel : nat) :
  forall platform accounts page,
    sends_only to_upstream
      (get_accounts_loop requests_get fuel platform accounts page).
Proof.
  induction fuel as [| fuel IH]; intros platform accounts page;
    cbn [get_accounts_loop]; [intros n r n' H; discriminate |].
  sends. apply IH.
Qed.

Lemma get_fields_loop_to_upstream (fuel : nat) :
  forall platform fields page,
    sends_only to_upstream
      (get_fields_loop requests_get fuel platform fields page).
Proof.
  induction fuel as [| fuel IH]; intros platform fields page;
    cbn [get_fields_loop]; [intros n r n' H; discriminate |].
  sends. apply IH.
Qed.

Lemma get_insights_loop_to_upstream (fuel : nat) :
  forall platform account account_token fields_str insights page,
    sends_only to_upstream
      (get_insights_loop requests_get fuel platform account account_token
         fields_str insights page).
Proof.
  induction fuel as [| fuel IH];
    intros platform account account_token fields_str insights page;
    cbn [get_insights_loop]; [intros n r n' H; discriminate |].
  sends. apply IH.
Qed.

Lemma get_insights_for_platform_to_upstream (fuel : nat) (platform : value) :
  sends_only to_upstream (get_insights_for_platform requests_get fuel platform).
Proof.
  unfold get_insights_for_platform, get_accounts, get_fields, get_insights.
  apply sends_only_bind;
    [apply get_accounts_loop_to_upstream | intros accounts].
  apply sends_only_bind.
  { apply sends_only_bind; [apply get_fields_loop_to_upstream | intros ?].
    apply sends_only_lift. }
  intros fields. apply sends_only_bind; [| intros ?; sends].
  apply sends_only_for_each. intros all_insights account. sends.
  - apply get_insights_loop_to_upstream.
  - apply sends_only_for_each. intros. sends.
Qed.

Lemma get_all_insights_to_upstream (fuel : nat) :
  sends_only to_upstream
    (get_all_insights requests_get float_of_str set_iter fuel).
Proof.
  unfold get_all_insights.
  apply sends_only_bind; [apply get_platforms_to_upstream | intros ?].
  apply sends_only_bind; [apply sends_only_lift | intros ?].
  apply sends_only_bind.
  - apply sends_only_for_each. intros [insights_all added] platform_obj.
    apply sends_only_bind; [apply sends_only_lift | intros ?].
    apply sends_only_bind;
      [apply get_insights_for_platform_to_upstream | intros [ins fields]].
    apply sends_only_bind; [apply sends_only_lift | intros ?].
    apply sends_only_ret.
  - intros [insights_all added]. apply sends_only_ret.
Qed.

(** X1.  Whenever a route ends, in a reply or in an exception, every
    request it sent went to one of the four endpoints under the configured
    base address and carried the three headers, the global token among
    them; the requests sent before are still the head of the log. *)
Theorem routes_send_to_upstream (fuel : nat) (platform : string) :
  sends_only to_upstream
    (platform_report requests_get repr_of_str fuel platform)
  /\ sends_only to_upstream
       (platform_summary requests_get repr_of_str fuel platform)
  /\ sends_only to_upstream
       (geral_report requests_get float_of_str repr_of_str set_iter fuel)
  /\ sends_only to_upstream
       (geral_summary requests_get float_of_str repr_of_str set_iter fuel).
Proof.
  repeat split.
  - unfold platform_report. apply sends_only_bind;
      [apply get_insights_for_platform_to_upstream
      | intros [[| row rows] fields]];
      [apply sends_only_ret |].
    apply sends_only_bind; [apply sends_only_lift | intros ?].
    apply sends_only_ret.
  - unfold platform_summary. apply sends_only_bind;
      [apply get_insights_for_platform_to_upstream
      | intros [[| row rows] fields]];
      [apply sends_only_ret |].
    apply sends_only_bind; [apply sends_only_lift | intros ?].
    apply sends_only_bind; [apply sends_only_lift | intros ?].
    apply sends_only_ret.
  - unfold geral_report. apply sends_only_bind;
      [apply get_all_insights_to_upstream | intros [[| row rows] fields]];
      [apply sends_only_ret |].
    apply sends_only_bind; [apply sends_only_lift | intros ?].
    apply sends_only_ret.
  - unfold geral_summary. apply sends_only_bind;
      [apply get_all_insights_to_upstream | intros [[| row rows] fields]];
      [apply sends_only_ret |].
    apply sends_only_bind; [apply sends_only_lift | intros ?].
    apply sends_only_bind; [apply sends_only_lift | intros ?].
    apply sends_only_ret.
Qed.

End Routes.

End WireFacts.

Module NumFacts.

Import Num.

Local Open Scope Z_scope.

Lemma strip_twos_spec (fuel : nat) :
  forall m e,
    e <= snd (strip_twos fuel m e)
    /\ fst (strip_twos fuel m e) * 2 ^ (snd (strip_twos fuel m e) - e) = m.
Proof.
  induction fuel as [| fuel IH]; intros m e; cbn [strip_twos].
  - simpl. rewrite Z.sub_diag. lia.
  - destruct (Z.even m) eqn:E; [| simpl; rewrite Z.sub_diag; lia].
    apply Z.even_spec in E. destruct E as [h ->].
    replace (2 * h / 2) with h by (rewrite Z.mul_comm, Z.div_mul; lia).
    destruct (IH h (e + 1)) as [Hle Heq]. split; [lia |].
    set (m' := fst (strip_twos fuel h (e + 1))) in *.
    set (e' := snd (strip_twos fuel h (e + 1))) in *.
    replace (e' - e) with (Z.succ (e' - (e + 1))) by lia.
    rewrite Z.pow_succ_r by lia. lia.
Qed.

Lemma exact_of_Z_spec (n : Z) :
  exists m e, exact_of_Z n = Dy m e /\ 0 <= e /\ m * 2 ^ e = n.
Proof.
  unfold exact_of_Z, dyadic. destruct (n =? 0) eqn:E.
  - apply Z.eqb_eq in E. subst. exists 0, 0. repeat split; lia.
  - pose proof (strip_twos_spec (Z.to_nat (Z.log2 (Z.abs n))) n 0) as [Hle Heq].
    destruct (strip_twos _ n 0) as [m e]. simpl in *. exists m, e.
    rewrite Z.sub_0_r in Heq. repeat split; assumption.
Qed.

Lemma compare_scale (x y p : Z) : 0 < p -> (x * p ?= y * p) = (x ?= y).
Proof.
  intros Hp. destruct (Z.compare_spec x y) as [-> | H | H].
  - apply Z.compare_refl.
  - apply Z.compare_lt_iff. nia.
  - apply Z.compare_gt_iff. nia.
Qed.

Lemma exact_cmp_Z (a b : Z) :
  exact_cmp (exact_of_Z a) (exact_of_Z b) = (a ?= b).
Proof.
  destruct (exact_of_Z_spec a) as (m & e & -> & He & <-).
  destruct (exact_of_Z_spec b) as (m' & e' & -> & He' & <-).
  cbn [exact_cmp]. set (c := Z.min e e').
  replace (m * 2 ^ e) with (m * 2 ^ (e - c) * 2 ^ c).
  2: { rewrite <- Z.mul_assoc, <- Z.pow_add_r by lia. f_equal. f_equal. lia. }
  replace (m' * 2 ^ e') with (m' * 2 ^ (e' - c) * 2 ^ c).
  2: { rewrite <- Z.mul_assoc, <- Z.pow_add_r by lia. f_equal. f_equal. lia. }
  symmetry. apply compare_scale. apply Z.pow_pos_nonneg; lia.
Qed.

(** [a >= b] on two [int]s. *)
Lemma ge_int (a b : Z) : Py.ge (VInt a) (VInt b) = Ok (b <=? a).
Proof.
  cbn [Py.ge Py.exact_of].
  destruct (exact_of_Z_spec a) as (m & e & Ea & _).
  destruct (exact_of_Z_spec b) as (m' & e' & Eb & _).
  pose proof (exact_cmp_Z a b) as H. rewrite Ea, Eb in *. rewrite H.
  f_equal. rewrite Z.leb_compare, (Z.compare_antisym a b).
  now destruct (a ?= b).
Qed.

End NumFacts.

Module PagingFacts.

Import Http Fetch Paging NumFacts.

Section PagingFacts.

Variable world : Type.
Variable requests_get : request -> world -> result response * world.

Local Abbreviation fetch_api := (fetch_api requests_get).
Local Abbreviation paginate := (paginate requests_get).
Local Abbreviation serves := (serves requests_get).

(** The requests for the pages [first .. first + count - 1]. *)
Lemma fetch_api_answer (endpoint : string) (params : value) (n : net world)
      (resp : response) :
  (forall req w,
      url req = String.append Config.BASE_API_URL endpoint ->
      Http.params req = params ->
      fst (requests_get req w) = Ok resp) ->
  exists req w,
    url req = String.append Config.BASE_API_URL endpoint
    /\ Http.params req = params
    /\ fetch_api endpoint params true n
       = Some (Ok (if (status_code resp =? 200)%Z
                   then match json resp with Some data => data | None => VNone end
                   else VNone),
               Net w (sent n ++ [req])).
Proof.
  intros H. unfold Fetch.fetch_api.
  match goal with
  | |- context [requests_get ?req (upstream n)] =>
      specialize (H req (upstream n) eq_refl eq_refl);
      exists req, (snd (requests_get req (upstream n)));
      destruct (requests_get req (upstream n)) as [r w]
  end.
  simpl in H. subst r. split; [reflexivity |]. split; [reflexivity |].
  simpl. destruct (status_code resp =? 200)%Z; [| reflexivity].
  now destruct (json resp).
Qed.

(** One turn of the loop on an answer that is a page. *)
Lemma paginate_page (endpoint : string) (fixed : dict) (array : string)
      (acc items : list value) (page current total : Z) (fuel : nat)
      (n n1 : net world) :
  array <> "pagination"%string -> items <> [] ->
  fetch_api endpoint (VDict (fixed ++ [("page"%string, VInt page)])) true n
  = Some (Ok (page_doc array items current total), n1) ->
  paginate (S fuel) endpoint fixed array acc page n
  = if (total <=? current)%Z then Some (Ok (acc ++ items), n1)
    else paginate fuel endpoint fixed array (acc ++ items) (page + 1) n1.
Proof.
  intros Harray Hitems Hfetch. cbn [Fetch.paginate]. unfold bindM, lift.
  rewrite Hfetch. unfold page_doc.
  cbn [Py.truthy negb Py.get]. unfold dict_get. cbn [dict_find].
  rewrite String.eqb_refl.
  assert (Py.truthy (VList items) = true) as -> by (now destruct items).
  cbn [negb Py.iterate].
  assert (String.eqb array "pagination" = false) as ->
      by (now apply String.eqb_neq).
  cbn [String.eqb Ascii.eqb Bool.eqb Py.get dict_get dict_find].
  rewrite ge_int. now destruct (total <=? current)%Z.
Qed.

Lemma paginate_pages (endpoint : string) (fixed : dict) (array : string)
      (pages : list (list value)) :
  array <> "pagination"%string ->
  serves endpoint fixed array pages ->
  Forall (fun items => items <> []) pages ->
  forall (suffix prefix : list (list value)) (items : list value)
         (fuel : nat) (n : net world),
    pages = prefix ++ suffix -> suffix <> [] ->
    List.length suffix <= fuel ->
    exists n' new,
      paginate fuel endpoint fixed array items
        (Z.of_nat (S (List.length prefix))) n
      = Some (Ok (items ++ List.concat suffix), n')
      /\ sent n' = sent n ++ new
      /\ map params new
         = map (page_params fixed)
             (seq (S (List.length prefix)) (List.length suffix))
      /\ Forall
           (fun req => url req = String.append Config.BASE_API_URL endpoint)
           new.
Proof.
  intros Harray Hserves Hfull.
  induction suffix as [| page rest IH];
    intros prefix items fuel n Hpages Hne Hfuel; [congruence |].
  destruct fuel as [| fuel]; [simpl in Hfuel; lia |].
  assert (Hnth : nth_error pages (List.length prefix) = Some page).
  { subst pages. rewrite nth_error_app2 by lia. now rewrite Nat.sub_diag. }
  assert (Hpage : page <> []).
  { rewrite Forall_forall in Hfull. apply Hfull. subst pages.
    apply in_or_app. right. now left. }
  destruct (fetch_api_answer endpoint
              (page_params fixed (S (List.length prefix))) n
              (Response 200
                 (Some (page_doc array page (Z.of_nat (S (List.length prefix)))
                          (Z.of_nat (List.length pages))))))
    as (req & w & Hurl & Hparams & Hfetch).
  { intros req w Hurl Hparams. now apply Hserves. }
  cbn [status_code json Z.eqb Pos.eqb] in Hfetch.
  rewrite (paginate_page endpoint fixed array items page _ _ _ fuel n _
             Harray Hpage Hfetch).
  assert (Hlen : List.length pages
                 = (List.length prefix + S (List.length rest))%nat).
  { subst pages. rewrite length_app. reflexivity. }
  destruct rest as [| page' rest].
  - assert ((Z.of_nat (List.length pages)
             <=? Z.of_nat (S (List.length prefix)))%Z = true) as ->.
    { apply Z.leb_le. simpl in Hlen. lia. }
    exists (Net w (sent n ++ [req])), [req]. cbn [List.concat].
    rewrite app_nil_r. split; [reflexivity |]. split; [reflexivity |].
    split; [simpl; now rewrite Hparams |]. now constructor.
  - assert ((Z.of_nat (List.length pages)
             <=? Z.of_nat (S (List.length prefix)))%Z = false) as ->.
    { apply Z.leb_gt. simpl in Hlen. lia. }
    destruct (IH (prefix ++ [page]) (items ++ page) fuel
                (Net w (sent n ++ [req])))
      as (n' & new & Hrun & Hsent & Hmap & Hurls).
    + subst pages. now rewrite <- app_assoc.
    + discriminate.
    + simpl in Hfuel |- *. lia.
    + rewrite length_app in Hrun, Hmap. simpl List.length in Hrun, Hmap.
      replace (Z.of_nat (S (List.length prefix)) + 1)%Z
        with (Z.of_nat (S (List.length prefix + 1)))%Z by lia.
      exists n', (req :: new). split.
      * rewrite Hrun.
        change (List.concat (page :: page' :: rest))
          with (page ++ List.concat (page' :: rest)).
        now rewrite app_assoc.
      * split; [| split].
        -- rewrite Hsent. simpl. now rewrite <- app_assoc.
        -- cbn [map seq List.length]. rewrite Hparams. f_equal.
           rewrite Hmap. now rewrite Nat.add_1_r.
        -- now constructor.
Qed.

Lemma paginate_endless (endpoint : string) (fixed : dict) (array : string) :
  array <> "pagination"%string ->
  always_more requests_get endpoint array ->
  forall (fuel : nat) (items : list value) (page : Z) (n : net world),
    paginate fuel endpoint fixed array items page n = None.
Proof.
  intros Harray Hmore. induction fuel as [| fuel IH]; intros items page n;
    [reflexivity |].
  assert (exists new current total n1,
             new <> [] /\ (current < total)%Z
             /\ fetch_api endpoint
                  (VDict (fixed ++ [("page"%string, VInt page)])) true n
                = Some (Ok (page_doc array new current total), n1))
    as (new & current & total & n1 & Hnew & Hlt & Hfetch).
  { unfold Fetch.fetch_api.
    match goal with
    | |- context [requests_get ?req (upstream n)] =>
        destruct (Hmore req (upstream n) eq_refl)
          as (new & current & total & Hnew & Hlt & Hans);
        destruct (requests_get req (upstream n)) as [r w]
    end.
    simpl in Hans. subst r. exists new, current, total. eexists.
    repeat split; assumption. }
  rewrite (paginate_page endpoint fixed array items new page current total
             fuel n n1 Harray Hnew Hfetch).
  assert ((total <=? current)%Z = false) as -> by (apply Z.leb_gt; lia).
  apply IH.
Qed.

Lemma pagination_name (array : string) :
  In array ["accounts"; "fields"; "insights"]%string ->
  array <> "pagination"%string.
Proof. simpl. intros [<- | [<- | [<- | []]]]; discriminate. Qed.

(** X2.  Against an upstream that holds the items of an endpoint in pages,
    none of them empty, each fetch loop with enough fuel asks for the
    pages 1, 2, ... up to the last, in this order and each once, and
    returns their items in the order of the pages ([get_fields] their
    [value]s). *)
Theorem pages_are_fetched_in_order (platform : value)
        (pages : list (list value)) (fuel : nat) (n : net world) :
  pages <> [] -> Forall (fun items => items <> []) pages ->
  List.length pages <= fuel ->
  (serves "/accounts" [("platform"%string, platform)] "accounts" pages ->
   exists n' new,
     get_accounts requests_get fuel platform n
     = Some (Ok (List.concat pages), n')
     /\ sent n' = sent n ++ new
     /\ map params new
        = map (page_params [("platform"%string, platform)])
            (seq 1 (List.length pages)))
  /\ (serves "/fields" [("platform"%string, platform)] "fields" pages ->
      exists n' new,
        get_fields requests_get fuel platform n
        = Some (mapM (fun field => Py.item field "value") (List.concat pages),
                n')
        /\ sent n' = sent n ++ new
        /\ map params new
           = map (page_params [("platform"%string, platform)])
               (seq 1 (List.length pages)))
  /\ (forall account account_token fields names,
         Py.strs fields = Ok names ->
         serves "/insights"
           [("platform", platform); ("account", account);
            ("token", account_token);
            ("fields", VStr (Py.join "," names))]%string
           "insights" pages ->
         exists n' new,
           get_insights requests_get fuel platform account fields
             account_token n
           = Some (Ok (List.concat pages), n')
           /\ sent n' = sent n ++ new
           /\ map params new
              = map (page_params
                       [("platform", platform); ("account", account);
                        ("token", account_token);
                        ("fields", VStr (Py.join "," names))]%string)
                  (seq 1 (List.length pages))).
Proof.
  intros Hne Hfull Hfuel. split; [| split].
  - intros Hserves. unfold get_accounts.
    rewrite FetchFacts.get_accounts_loop_paginate.
    destruct (paginate_pages "/accounts" [("platform"%string, platform)]
                "accounts" pages (pagination_name _ (or_introl eq_refl))
                Hserves Hfull pages [] [] fuel n eq_refl Hne Hfuel)
      as (n' & new & Hrun & Hsent & Hmap & _).
    exists n', new. auto.
  - intros Hserves. unfold get_fields, bindM.
    rewrite FetchFacts.get_fields_loop_paginate.
    destruct (paginate_pages "/fields" [("platform"%string, platform)]
                "fields" pages
                (pagination_name _ (or_intror (or_introl eq_refl)))
                Hserves Hfull pages [] [] fuel n eq_refl Hne Hfuel)
      as (n' & new & Hrun & Hsent & Hmap & _).
    exists n', new.
    change (Z.of_nat (S (List.length (@nil (list value))))) with 1%Z in Hrun.
    rewrite Hrun.
    split; [| now split]. cbn [app]. unfold lift.
    now destruct (mapM _ (List.concat pages)).
  - intros account account_token fields names Hnames Hserves.
    unfold get_insights, bindM, lift. rewrite Hnames. cbn [bind].
    rewrite FetchFacts.get_insights_loop_paginate.
    destruct (paginate_pages "/insights" _ "insights" pages
                (pagination_name _
                   (or_intror (or_intror (or_introl eq_refl))))
                Hserves Hfull pages [] [] fuel n eq_refl Hne Hfuel)
      as (n' & new & Hrun & Hsent & Hmap & _).
    exists n', new. auto.
Qed.

(** X3.  The fetch loops have no bound on the pages: against an upstream
    whose every answer is a page that is not empty and announces a further
    one, none of them returns, whatever the fuel. *)
Theorem fetch_loops_have_no_page_cap (fuel : nat) (platform : value)
        (n : net world) :
  (always_more requests_get "/accounts" "accounts" ->
   get_accounts requests_get fuel platform n = None)
  /\ (always_more requests_get "/fields" "fields" ->
      get_fields requests_get fuel platform n = None)
  /\ (forall account account_token fields names,
         Py.strs fields = Ok names ->
         always_more requests_get "/insights" "insights" ->
         get_insights requests_get fuel platform account fields account_token n
         = None).
Proof.
  split; [| split].
  - intros Hmore. unfold get_accounts.
    rewrite FetchFacts.get_accounts_loop_paginate.
    apply paginate_endless;
      [now apply pagination_name; simpl; auto | exact Hmore].
  - intros Hmore. unfold get_fields, bindM.
    rewrite FetchFacts.get_fields_loop_paginate.
    rewrite paginate_endless;
      [reflexivity | now apply pagination_name; simpl; auto | exact Hmore].
  - intros account account_token fields names Hnames Hmore.
    unfold get_insights, bindM, lift. rewrite Hnames. cbn [bind].
    rewrite FetchFacts.get_insights_loop_paginate.
    apply paginate_endless;
      [now apply pagination_name; simpl; auto | exact Hmore].
Qed.

End PagingFacts.

Lemma dict_find_app (d d' : dict) (k : string) :
  dict_find (d ++ d') k
  = match dict_find d k with Some v => Some v | None => dict_find d' k end.
Proof.
  induction d as [| [k' v] d IH]; simpl; [reflexivity |].
  now destruct (String.eqb k' k).
Qed.

Lemma book_serves (endpoint : string) (fixed : dict) (array : string)
      (pages : list (list value)) :
  dict_find fixed "page" = None ->
  serves (book array pages) endpoint fixed array pages.
Proof.
  intros Hfixed i items req w Hnth _ Hparams. unfold book.
  rewrite Hparams. unfold page_params, dict_get.
  rewrite dict_find_app, Hfixed. cbn [dict_find String.eqb Ascii.eqb Bool.eqb].
  replace (Z.to_nat (Z.of_nat (S i) - 1)) with i by lia.
  now rewrite Hnth.
Qed.

Lemma endless_always_more (endpoint array : string) :
  always_more (endless array) endpoint array.
Proof.
  intros req w _. exists [VNone], 1%Z, 2%Z.
  split; [discriminate |]. split; [lia | reflexivity].
Qed.

(** Two pages of accounts. *)
Lemma pages_are_fetched_in_order_witness :
  exists n' new,
    get_accounts (book "accounts" [[VStr "a"]; [VStr "b"]]) 2 (VStr "ga4")
      (Net tt [])
    = Some (Ok [VStr "a"; VStr "b"], n')
    /\ sent n' = new
    /\ map params new
       = [page_params [("platform"%string, VStr "ga4")] 1;
          page_params [("platform"%string, VStr "ga4")] 2].
Proof.
  refine (proj1 (pages_are_fetched_in_order unit
                   (book "accounts" [[VStr "a"]; [VStr "b"]]) (VStr "ga4")
                   [[VStr "a"]; [VStr "b"]] 2 (Net tt []) _ _ _) _).
  - discriminate.
  - repeat constructor; discriminate.
  - simpl. lia.
  - now apply book_serves.
Defined.

Lemma fetch_loops_have_no_page_cap_witness :
  get_accounts (endless "accounts") 1000 (VStr "ga4") (Net tt []) = None.
Proof.
  exact (proj1 (fetch_loops_have_no_page_cap unit (endless "accounts") 1000
                  (VStr "ga4") (Net tt []))
           (endless_always_more "/accounts" "accounts")).
Defined.

End PagingFacts.

Module OutageFacts.

Import Http Fetch Insights Outage FetchFacts.

Section OutageFacts.

Variable world : Type.
Variable requests_get : request -> world -> result response * world.
Variable float_of_str : string -> option float.
Variable repr_of_str : string -> string.
Variable set_iter : list value -> list value.

Local Abbreviation fetch_api_unfold :=
  (FetchFacts.fetch_api_unfold world requests_get).
Local Abbreviation bindM_run := (FetchFacts.bindM_run world).
Local Abbreviation bindM_ret := (FetchFacts.bindM_ret world).
Local Abbreviation bindM_assoc := (FetchFacts.bindM_assoc world).

Lemma fetch_api_silent (endpoint : string) (params : value) (n : net world) :
  silent requests_get ->
  exists data,
    Py.truthy data = false
    /\ fetch_api requests_get endpoint params true n
       = Some (Ok data,
               Net (snd (requests_get (the_request endpoint params)
                           (upstream n)))
                 (sent n ++ [the_request endpoint params])).
Proof.
  intros Hsilent. rewrite fetch_api_unfold.
  destruct (Hsilent (the_request endpoint params) (upstream n))
    as (resp & Hresp & Hfalsy).
  rewrite Hresp. now exists (payload resp).
Qed.

Lemma get_insights_for_platform_silent (fuel : nat) (platform : value)
      (n : net world) :
  silent requests_get ->
  exists n',
    get_insights_for_platform requests_get (S fuel) platform n
    = Some (Ok ([], []), n')
    /\ sent n'
       = sent n
           ++ [the_request "/accounts"
                 (VDict [("platform", platform); ("page", VInt 1)]%string);
               the_request "/fields"
                 (VDict [("platform", platform); ("page", VInt 1)]%string)].
Proof.
  intros Hsilent. unfold get_insights_for_platform, get_accounts, get_fields.
  cbn [get_accounts_loop get_fields_loop].
  destruct (fetch_api_silent "/accounts"
              (VDict [("platform", platform); ("page", VInt 1)]%string) n
              Hsilent) as (data & Hfalsy & Hfetch).
  rewrite bindM_assoc, (bindM_run _ _ n _ _ Hfetch), Hfalsy.
  cbn [negb]. rewrite bindM_ret.
  match goal with
  | |- exists n', _ ?n1 = _ /\ _ =>
      destruct (fetch_api_silent "/fields"
                  (VDict [("platform", platform); ("page", VInt 1)]%string)
                  n1 Hsilent)
        as (data' & Hfalsy' & Hfetch')
  end.
  rewrite !bindM_assoc, (bindM_run _ _ _ _ _ Hfetch'), Hfalsy'.
  cbn. eexists. split; [reflexivity |]. now rewrite <- app_assoc.
Qed.

(** X4.  When the upstream answers every request without a document that
    counts (a status other than 200, a body that is no JSON, an empty
    document), the four routes reply "not found" and raise nothing.  The
    platform routes have then asked for the first page of accounts and of
    fields, the general ones for the platforms. *)
Theorem silent_upstream_is_not_found (fuel : nat) (platform : string)
        (n : net world) :
  silent requests_get ->
  let missing :=
    NotFound
      (String.append "Plataforma "
         (String.append platform " não encontrada ou sem dados.")) in
  let asked :=
    [the_request "/accounts"
       (VDict [("platform", VStr platform); ("page", VInt 1)]%string);
     the_request "/fields"
       (VDict [("platform", VStr platform); ("page", VInt 1)]%string)] in
  (exists n',
      platform_report requests_get repr_of_str (S fuel) platform n
      = Some (Ok missing, n')
      /\ sent n' = sent n ++ asked)
  /\ (exists n',
         platform_summary requests_get repr_of_str (S fuel) platform n
         = Some (Ok missing, n')
         /\ sent n' = sent n ++ asked)
  /\ (exists n',
         geral_report requests_get float_of_str repr_of_str set_iter fuel n
         = Some (Ok (NotFound "Nenhum dado encontrado."), n')
         /\ sent n' = sent n ++ [the_request "/platforms" VNone])
  /\ (exists n',
         geral_summary requests_get float_of_str repr_of_str set_iter fuel n
         = Some (Ok (NotFound "Nenhum dado encontrado."), n')
         /\ sent n' = sent n ++ [the_request "/platforms" VNone]).
Proof.
  intros Hsilent missing asked.
  destruct (get_insights_for_platform_silent fuel (VStr platform) n Hsilent)
    as (n' & Hrun & Hsent).
  destruct (fetch_api_silent "/platforms" VNone n Hsilent)
    as (data & Hfalsy & Hfetch).
  assert (Hall : get_all_insights requests_get float_of_str set_iter fuel n
                 = Some (Ok ([], [VStr "Platform"; VStr "Account"]
                                   ++ set_iter []),
                         Net (snd (requests_get (the_request "/platforms" VNone)
                                     (upstream n)))
                           (sent n ++ [the_request "/platforms" VNone]))).
  { unfold get_all_insights, get_platforms.
    rewrite bindM_assoc, (bindM_run _ _ n _ _ Hfetch), Hfalsy. reflexivity. }
  split; [| split; [| split]].
  - exists n'. unfold platform_report.
    now rewrite (bindM_run _ _ n _ _ Hrun).
  - exists n'. unfold platform_summary.
    now rewrite (bindM_run _ _ n _ _ Hrun).
  - eexists. unfold geral_report. rewrite (bindM_run _ _ n _ _ Hall).
    split; reflexivity.
  - eexists. unfold geral_summary. rewrite (bindM_run _ _ n _ _ Hall).
    split; reflexivity.
Qed.

(** X5.  A failure of [requests.get] is not caught: when the first request
    of a route raises, the route raises the same exception, having sent
    that one request. *)
Theorem unreachable_upstream_raises (fuel : nat) (platform : string)
        (n : net world) (e : exn) :
  let accounts :=
    the_request "/accounts"
      (VDict [("platform", VStr platform); ("page", VInt 1)]%string) in
  let platforms := the_request "/platforms" VNone in
  (fst (requests_get accounts (upstream n)) = Raise e ->
   (exists n',
       platform_report requests_get repr_of_str (S fuel) platform n
       = Some (Raise e, n')
       /\ sent n' = sent n ++ [accounts])
   /\ (exists n',
          platform_summary requests_get repr_of_str (S fuel) platform n
          = Some (Raise e, n')
          /\ sent n' = sent n ++ [accounts]))
  /\ (fst (requests_get platforms (upstream n)) = Raise e ->
      (exists n',
          geral_report requests_get float_of_str repr_of_str set_iter fuel n
          = Some (Raise e, n')
          /\ sent n' = sent n ++ [platforms])
      /\ (exists n',
             geral_summary requests_get float_of_str repr_of_str set_iter
               fuel n
             = Some (Raise e, n')
             /\ sent n' = sent n ++ [platforms])).
Proof.
  intros accounts platforms. split.
  - intros Hraise.
    assert (Hrun : get_insights_for_platform requests_get (S fuel)
                     (VStr platform) n
                   = Some (Raise e,
                           Net (snd (requests_get accounts (upstream n)))
                             (sent n ++ [accounts]))).
    { unfold get_insights_for_platform, get_accounts.
      cbn [get_accounts_loop]. rewrite bindM_assoc.
      rewrite (bindM_run _ _ n _ _ (fetch_api_unfold _ _ n)).
      fold accounts. now rewrite Hraise. }
    split; eexists.
    + unfold platform_report. rewrite (bindM_run _ _ n _ _ Hrun).
      split; reflexivity.
    + unfold platform_summary. rewrite (bindM_run _ _ n _ _ Hrun).
      split; reflexivity.
  - intros Hraise.
    assert (Hrun : get_all_insights requests_get float_of_str set_iter fuel n
                   = Some (Raise e,
                           Net (snd (requests_get platforms (upstream n)))
                             (sent n ++ [platforms]))).
    { unfold get_all_insights, get_platforms. rewrite bindM_assoc.
      rewrite (bindM_run _ _ n _ _ (fetch_api_unfold _ _ n)).
      fold platforms. now rewrite Hraise. }
    split; eexists.
    + unfold geral_report. rewrite (bindM_run _ _ n _ _ Hrun).
      split; reflexivity.
    + unfold geral_summary. rewrite (bindM_run _ _ n _ _ Hrun).
      split; reflexivity.
Qed.

End OutageFacts.

Lemma unavailable_silent : silent unavailable.
Proof. intros req w. now exists (Response 503 None). Qed.

Lemma silent_upstream_is_not_found_witness :
  exists n',
    platform_report unavailable Scenario.ascii_repr 1 "ga4" (Net tt [])
    = Some (Ok (NotFound "Plataforma ga4 não encontrada ou sem dados."), n')
    /\ List.length (sent n') = 2.
Proof.
  destruct (proj1 (silent_upstream_is_not_found unit unavailable
                     Scenario.no_float Scenario.ascii_repr
                     Scenario.insertion_order 0 "ga4" (Net tt [])
                     unavailable_silent))
    as (n' & Hrun & Hsent).
  exists n'. split; [exact Hrun |]. now rewrite Hsent.
Defined.

Lemma unreachable_upstream_raises_witness :
  exists n',
    geral_report unreachable Scenario.no_float Scenario.ascii_repr
      Scenario.insertion_order 1 (Net tt [])
    = Some (Raise RequestException, n')
    /\ sent n' = [the_request "/platforms" VNone].
Proof.
  exact (proj1 (proj2 (unreachable_upstream_raises unit unreachable
                         Scenario.no_float Scenario.ascii_repr
                         Scenario.insertion_order 1 "ga4" (Net tt [])
                         RequestException)
                  eq_refl)).
Defined.

End OutageFacts.

Module LabelFacts.

Import Http Fetch Insights Wire Labels Gather.

Section LabelFacts.

Variable world : Type.
Variable requests_get : request -> world -> result response * world.

Lemma strs_raises (l : list value) :
  (exists v, In v l /\ forall s, v <> VStr s) -> Py.strs l = Raise TypeError.
Proof.
  induction l as [| x l IH]; intros (v & Hin & Hv); [destruct Hin |].
  destruct x; try reflexivity. cbn [Py.strs].
  destruct Hin as [<- | Hin]; [now destruct (Hv s) |].
  rewrite IH; [reflexivity |]. now exists v.
Qed.

Lemma get_insights_loop_query (names : list string) (fuel : nat) :
  forall platform account account_token insights page,
    sends_only (insights_query platform account account_token names)
      (get_insights_loop requests_get fuel platform account account_token
         (Py.join "," names) insights page).
Proof.
  induction fuel as [| fuel IH];
    intros platform account account_token insights page;
    cbn [get_insights_loop]; [intros n r n' H; discriminate |].
  apply WireFacts.sends_only_bind.
  - intros n r n' H.
    destruct (FetchFacts.fetch_api_sent _ _ _ _ _ _ _ _ H)
      as (req & Hsent & Hurl & Hparams).
    exists [req]. split; [exact Hsent |]. constructor; [| constructor].
    split; [exact Hurl |]. now exists page.
  - intros data.
    repeat first
      [ apply WireFacts.sends_only_ret
      | apply WireFacts.sends_only_lift
      | apply WireFacts.sends_only_if
      | apply IH
      | apply WireFacts.sends_only_bind; [| intros ?] ].
Qed.

(** X6.  [get_insights] joins the field codes before it sends anything:
    when a code is not a string it raises TypeError and no request has
    gone out.  When all are strings, every request it sends goes to
    /insights with the platform, the account, the account's token, the
    comma-joined codes and a page number as its query, whatever the
    outcome. *)
Theorem get_insights_joins_fields_first (fuel : nat)
        (platform account account_token : value) (fields : list value) :
  ((exists v, In v fields /\ forall s, v <> VStr s) ->
   forall n,
     get_insights requests_get fuel platform account fields account_token n
     = Some (Raise TypeError, n))
  /\ (forall names,
         fields = map VStr names ->
         sends_only (insights_query platform account account_token names)
           (get_insights requests_get fuel platform account fields
              account_token)).
Proof.
  split.
  - intros Hbad n. unfold get_insights, bindM, lift.
    now rewrite (strs_raises fields Hbad).
  - intros names -> n r n' H. unfold get_insights, bindM at 1, lift in H.
    assert (Py.strs (map VStr names) = Ok names) as Hnames.
    { clear. induction names as [| s names IH]; [reflexivity |].
      cbn [map Py.strs]. now rewrite IH. }
    rewrite Hnames in H. cbn [bind] in H.
    exact (get_insights_loop_query names fuel platform account account_token
             [] 1%Z n r n' H).
Qed.

Lemma relabel_labels (platform account_name insight : value) (r : row) :
  relabel platform account_name insight = Ok r ->
  dict_find r "Platform" = Some platform
  /\ dict_find r "Account" = Some account_name.
Proof.
  unfold relabel, setitem. destruct insight; try discriminate.
  cbn [bind]. intros [= <-]. split.
  - apply GroupFacts.dict_find_set_same.
  - rewrite GroupFacts.dict_find_set_other by discriminate.
    apply GroupFacts.dict_find_set_same.
Qed.

(** The loop over the insights of an account relabels each of them. *)
Lemma insights_loop (platform account_name : value)
      (insights : list value) :
  forall (all_insights : list row) (n : net world) (all_insights' : list row)
         (n' : net world),
    for_each
      (fun all_insights insight =>
         bindM (lift (setitem insight "Account" account_name))
           (fun insight =>
              let insight := dict_set insight "Platform" platform in
              ret (all_insights ++ [insight])))
      insights all_insights n
    = Some (Ok all_insights', n') ->
    exists rows,
      mapM (relabel platform account_name) insights = Ok rows
      /\ all_insights' = all_insights ++ rows /\ n' = n.
Proof.
  induction insights as [| insight insights IH];
    intros all_insights n all_insights' n' H; cbn [for_each] in H.
  - injection H as <- <-. exists []. now rewrite app_nil_r.
  - apply PipelineFacts.bindM_Ok in H as (acc & n1 & Hstep & H).
    apply PipelineFacts.bindM_Ok in Hstep as (d & m & Hset & Hstep).
    apply PipelineFacts.lift_Ok in Hset as [Hset ->].
    injection Hstep as <- <-.
    destruct (IH _ _ _ _ H) as (rows & Hrows & -> & ->).
    exists (dict_set d "Platform" platform :: rows).
    split; [| split; [now rewrite <- app_assoc | reflexivity]].
    cbn [mapM]. unfold relabel at 1. rewrite Hset. cbn [bind].
    now rewrite Hrows.
Qed.

(** The loop over the accounts fetches the insights of each in turn. *)
Lemma accounts_loop (fuel : nat) (platform : value) (fields : list value)
      (accounts : list value) :
  forall (all_insights : list row) (n : net world) (all_insights' : list row)
         (n' : net world),
    for_each
      (fun all_insights account =>
         bindM (lift (Py.get account "id" VNone)) (fun account_id =>
         bindM (lift (Py.get account "token" VNone)) (fun account_token =>
         bindM (lift (Py.get account "name" VNone)) (fun account_name =>
         bindM (get_insights requests_get fuel platform account_id fields
                  account_token) (fun insights =>
         for_each
           (fun all_insights insight =>
              bindM (lift (setitem insight "Account" account_name))
                (fun insight =>
                   let insight := dict_set insight "Platform" platform in
                   ret (all_insights ++ [insight])))
           insights all_insights)))))
      accounts all_insights n
    = Some (Ok all_insights', n') ->
    exists batches groups,
      traverse (insights_of_account requests_get fuel platform fields)
        accounts n
      = Some (Ok batches, n')
      /\ mapM (fun batch => mapM (relabel platform (fst batch)) (snd batch))
           batches
         = Ok groups
      /\ all_insights' = all_insights ++ List.concat groups.
Proof.
  induction accounts as [| account accounts IH];
    intros all_insights n all_insights' n' H; cbn [for_each] in H.
  - injection H as <- <-. exists [], []. cbn. now rewrite app_nil_r.
  - apply PipelineFacts.bindM_Ok in H as (acc & n1 & Hstep & H).
    apply PipelineFacts.bindM_Ok in Hstep as (account_id & m1 & Hid & Hstep).
    apply PipelineFacts.lift_Ok in Hid as [Hid ->].
    apply PipelineFacts.bindM_Ok in Hstep
      as (account_token & m2 & Htoken & Hstep).
    apply PipelineFacts.lift_Ok in Htoken as [Htoken ->].
    apply PipelineFacts.bindM_Ok in Hstep
      as (account_name & m3 & Hname & Hstep).
    apply PipelineFacts.lift_Ok in Hname as [Hname ->].
    apply PipelineFacts.bindM_Ok in Hstep as (insights & m4 & Hget & Hstep).
    apply insights_loop in Hstep as (rows & Hrows & -> & ->).
    destruct (IH _ _ _ _ H) as (batches & groups & Htrav & Hgroups & ->).
    exists ((account_name, insights) :: batches), (rows :: groups).
    split; [| split].
    + cbn [traverse]. unfold insights_of_account at 1.
      unfold bindM at 1. unfold bindM at 1. unfold lift at 1. rewrite Hid.
      unfold bindM at 1. unfold lift at 1. rewrite Htoken.
      unfold bindM at 1. unfold lift at 1. rewrite Hname.
      unfold bindM at 1. rewrite Hget. unfold ret at 1.
      unfold bindM at 1. now rewrite Htrav.
    + cbn [mapM fst snd]. now rewrite Hrows, Hgroups.
    + cbn [List.concat]. now rewrite app_assoc.
Qed.

Lemma traverse_names (fuel : nat) (platform : value) (fields : list value)
      (accounts : list value) :
  forall (n n' : net world) (batches : list (value * list value)),
    traverse (insights_of_account requests_get fuel platform fields)
      accounts n
    = Some (Ok batches, n') ->
    Forall2
      (fun account batch => Py.get account "name" VNone = Ok (fst batch))
      accounts batches.
Proof.
  induction accounts as [| account accounts IH]; intros n n' batches H;
    cbn [traverse] in H.
  - injection H as <- _. constructor.
  - apply PipelineFacts.bindM_Ok in H as ([name insights] & n1 & Hone & H).
    apply PipelineFacts.bindM_Ok in H as (rest & n2 & Hrest & H).
    injection H as <- _. constructor; [| exact (IH _ _ _ Hrest)].
    unfold insights_of_account in Hone.
    apply PipelineFacts.bindM_Ok in Hone as (account_id & m1 & _ & Hone).
    apply PipelineFacts.bindM_Ok in Hone as (account_token & m2 & _ & Hone).
    apply PipelineFacts.bindM_Ok in Hone
      as (account_name & m3 & Hname & Hone).
    apply PipelineFacts.lift_Ok in Hname as [Hname _].
    apply PipelineFacts.bindM_Ok in Hone as (found & m4 & _ & Hone).
    injection Hone as <- _ _. exact Hname.
Qed.

Lemma groups_labelled (platform : value) :
  forall (accounts : list value) (batches : list (value * list value))
         (groups : list (list row)),
    Forall2
      (fun account batch => Py.get account "name" VNone = Ok (fst batch))
      accounts batches ->
    mapM (fun batch => mapM (relabel platform (fst batch)) (snd batch))
      batches
    = Ok groups ->
    Forall (labelled platform accounts) (List.concat groups).
Proof.
  intros accounts batches groups Hnames. revert groups.
  induction Hnames as [| account batch accounts batches Hname _ IH];
    intros groups Hgroups.
  - injection Hgroups as <-. constructor.
  - apply CsvFacts.mapM_cons in Hgroups as (rows & rest & -> & Hrows & Hrest).
    cbn [List.concat]. apply Forall_app. split.
    + apply CsvFacts.mapM_Forall2 in Hrows.
      clear - Hrows Hname. induction Hrows as [| insight r l rs Hr _ IHr];
        constructor; [| exact IHr].
      apply relabel_labels in Hr as [Hp Ha]. split; [exact Hp |].
      exists account, (fst batch). split; [now left | now split].
    + eapply Forall_impl; [| exact (IH rest Hrest)].
      intros r (Hp & a & name & Hin & Hn & Ha). split; [exact Hp |].
      exists a, name. split; [now right | now split].
Qed.

(** What [get_insights_for_platform] returns, from what it fetched. *)
Lemma get_insights_for_platform_parts (fuel : nat) (platform : value)
      (n n' : net world) (rows : list row) (fields : list value) :
  get_insights_for_platform requests_get fuel platform n
  = Some (Ok (rows, fields), n') ->
  exists accounts n1 n2 batches groups,
    get_accounts requests_get fuel platform n = Some (Ok accounts, n1)
    /\ get_fields requests_get fuel platform n1 = Some (Ok fields, n2)
    /\ traverse (insights_of_account requests_get fuel platform fields)
         accounts n2
       = Some (Ok batches, n')
    /\ mapM (fun batch => mapM (relabel platform (fst batch)) (snd batch))
         batches
       = Ok groups
    /\ rows = List.concat groups.
Proof.
  intros H. unfold get_insights_for_platform in H.
  apply PipelineFacts.bindM_Ok in H as (accounts & n1 & Haccounts & H).
  apply PipelineFacts.bindM_Ok in H as (codes & n2 & Hfields & H).
  apply PipelineFacts.bindM_Ok in H as (all_insights & n3 & Hloop & H).
  injection H as <- <- <-.
  apply accounts_loop in Hloop as (batches & groups & Htrav & Hgroups & ->).
  now exists accounts, n1, n2, batches, groups.
Qed.

(** X7.  The rows that [get_insights_for_platform] returns are the
    insights fetched for the accounts of the platform, account after
    account and in the order they came, each with the name of its account
    under "Account" and the requested platform under "Platform": what the
    upstream sent under these two names is overwritten.  The field codes
    it returns are those that [get_fields] returned. *)
Theorem get_insights_for_platform_labels (fuel : nat) (platform : value)
        (n n' : net world) (rows : list row) (fields : list value) :
  get_insights_for_platform requests_get fuel platform n
  = Some (Ok (rows, fields), n') ->
  exists accounts n1 n2 batches groups,
    get_accounts requests_get fuel platform n = Some (Ok accounts, n1)
    /\ get_fields requests_get fuel platform n1 = Some (Ok fields, n2)
    /\ traverse (insights_of_account requests_get fuel platform fields)
         accounts n2
       = Some (Ok batches, n')
    /\ mapM (fun batch => mapM (relabel platform (fst batch)) (snd batch))
         batches
       = Ok groups
    /\ rows = List.concat groups
    /\ Forall (labelled platform accounts) rows.
Proof.
  intros H. apply get_insights_for_platform_parts in H
    as (accounts & n1 & n2 & batches & groups
        & Haccounts & Hfields & Htrav & Hgroups & ->).
  exists accounts, n1, n2, batches, groups.
  repeat (split; [assumption || reflexivity |]).
  apply (groups_labelled platform accounts batches groups);
    [| exact Hgroups].
  exact (traverse_names _ _ _ _ _ _ _ Htrav).
Qed.

End LabelFacts.

(** A field code that is a number. *)
Lemma get_insights_joins_fields_first_witness :
  get_insights (Scenario.stub (VStr "1") "Acme") 1 (VStr "ga4") (VStr "1")
    [VStr "spend"; VInt 7] (VStr "T1") (Net tt [])
  = Some (Raise TypeError, Net tt []).
Proof.
  apply (proj1 (get_insights_joins_fields_first unit
                  (Scenario.stub (VStr "1") "Acme") 1 (VStr "ga4") (VStr "1")
                  (VStr "T1") [VStr "spend"; VInt 7])).
  exists (VInt 7). split; [simpl; auto | discriminate].
Defined.

(** The scenario: an insight that comes with an "Account" of its own
    leaves with the name of the account. *)
Lemma get_insights_for_platform_labels_witness :
  exists n' accounts n1 n2 batches groups,
    get_accounts
      (Scenario.stub_with (VStr "1") "Acme"
         [VDict [("Account", VStr "theirs"); ("spend", VInt 1)]%string])
      1 (VStr "ga4") (Net tt [])
    = Some (Ok accounts, n1)
    /\ get_fields
         (Scenario.stub_with (VStr "1") "Acme"
            [VDict [("Account", VStr "theirs"); ("spend", VInt 1)]%string])
         1 (VStr "ga4") n1
       = Some (Ok [VStr "spend"; VStr "clicks"], n2)
    /\ traverse
         (insights_of_account
            (Scenario.stub_with (VStr "1") "Acme"
               [VDict [("Account", VStr "theirs"); ("spend", VInt 1)]%string])
            1 (VStr "ga4") [VStr "spend"; VStr "clicks"])
         accounts n2
       = Some (Ok batches, n')
    /\ mapM (fun batch => mapM (relabel (VStr "ga4") (fst batch)) (snd batch))
         batches
       = Ok groups
    /\ [[("Account", VStr "Acme"); ("spend", VInt 1);
         ("Platform", VStr "ga4")]%string]
       = List.concat groups
    /\ Forall (labelled (VStr "ga4") accounts)
         [[("Account", VStr "Acme"); ("spend", VInt 1);
           ("Platform", VStr "ga4")]%string].
Proof.
  eexists.
  refine (get_insights_for_platform_labels unit
            (Scenario.stub_with (VStr "1") "Acme"
               [VDict [("Account", VStr "theirs"); ("spend", VInt 1)]%string])
            1 (VStr "ga4") (Net tt []) _ _ _ _).
  vm_compute. reflexivity.
Defined.

End LabelFacts.

Module AggregateFacts.

Import Py Aggregate Grouping Words Examples GroupFacts.

Local Open Scope string_scope.

Lemma Forall2_fst_snd {A B : Type} (R : A -> B -> Prop) (g : list (A * B)) :
  Forall (fun kv => R (fst kv) (snd kv)) g ->
  Forall2 R (map fst g) (map snd g).
Proof.
  induction 1 as [| [k v] g H _ IH]; simpl; constructor; assumption.
Qed.

Lemma float_of_Z_raises (n : Z) (e : exn) :
  Num.float_of_Z n = Raise e -> e = OverflowError.
Proof.
  unfold Num.float_of_Z.
  destruct (SpecFloat.binary_normalize _ _ _ _ _); congruence.
Qed.

(** [+] raises TypeError, or OverflowError for an [int] too large to be
    a float, and nothing else. *)
Lemma add_raises (a b : value) (e : exn) :
  add a b = Raise e -> e = TypeError \/ e = OverflowError.
Proof.
  unfold add.
  destruct (as_int a) as [m |] eqn:Ea, (as_int b) as [n |] eqn:Eb;
    try discriminate;
    (destruct (as_float a) as [ra |] eqn:Fa, (as_float b) as [rb |] eqn:Fb;
     [| | | ]);
    try (destruct a, b; simpl; intros H; try discriminate;
         injection H as <-; now left).
  all: intros H; right;
    destruct ra as [x | e1] eqn:Hra;
    [ destruct rb as [y | e2] eqn:Hrb; [discriminate |];
      cbn [bind] in H; injection H as <-;
      destruct b; try discriminate; injection Fb as Fb;
      now apply float_of_Z_raises in Fb
    | cbn [bind] in H; injection H as <-;
      destruct a; try discriminate; injection Fa as Fa;
      now apply float_of_Z_raises in Fa ].
Qed.

Lemma key_of_raises (v : value) (e : exn) :
  key_of v = Raise e -> e = TypeError.
Proof. destruct v; simpl; congruence. Qed.

Section Shape.

Variable key_field : string.
Variable start : row -> value -> row.
Variable default : value.
Variable fields : list string.

Local Abbreviation accumulate := (accumulate default fields).
Local Abbreviation seed := (seed key_field start default fields).
Local Abbreviation step := (step key_field start default fields).
Local Abbreviation run := (run key_field start default fields).
Local Abbreviation group := (group key_field).
Local Abbreviation keys := (keys key_field).
Local Abbreviation key_of_row := (key_of_row key_field).
Local Abbreviation summary := (summary key_field start default fields).

(** A name that is no field is left alone. *)
Lemma accumulate_keeps (r : row) (f : string) :
  forall (fs : list string) (a a' : row),
    Grouping.accumulate default fs a r = Ok a' ->
    ~ In f fs -> dict_find a' f = dict_find a f.
Proof.
  unfold Grouping.accumulate.
  induction fs as [| g fs IH]; intros a a' H Hnot; simpl in H.
  - now injection H as <-.
  - assert (Hg : g <> f) by (intros ->; apply Hnot; now left).
    assert (Hfs : ~ In f fs) by (intros Hin; apply Hnot; now right).
    destruct (is_number (dict_get r g default)).
    + apply bind_Ok in H as (a1 & H1 & H).
      apply bind_Ok in H1 as (old & Ho & H1).
      apply bind_Ok in H1 as (new & Hn & H1). injection H1 as <-.
      rewrite (IH _ _ H Hfs). now apply dict_find_set_other.
    + simpl in H. now apply IH.
Qed.

Lemma rows_keep (f : string) :
  ~ In f fields ->
  forall (rows : list row) (a a' : row),
    foldM accumulate rows a = Ok a' -> dict_find a' f = dict_find a f.
Proof.
  intros Hnot. induction rows as [| r rows IH]; intros a a' H; simpl in H.
  - now injection H as <-.
  - apply bind_Ok in H as (a1 & H1 & H).
    rewrite (IH _ _ H). exact (accumulate_keeps r f fields a a1 H1 Hnot).
Qed.

Lemma seed_keeps (r : row) (f : string) :
  ~ In f fields ->
  dict_find (seed r) f = dict_find (start r (dict_get r key_field VNone)) f.
Proof.
  unfold Grouping.seed. generalize (start r (dict_get r key_field VNone)).
  induction fields as [| g fs IH]; intros d Hnot; [reflexivity |].
  assert (Hg : g <> f) by (intros ->; apply Hnot; now left).
  assert (Hfs : ~ In f fs) by (intros Hin; apply Hnot; now right).
  cbn [fold_left]. rewrite (IH _ Hfs). now apply dict_find_set_other.
Qed.

(** What the starting row holds under a name that is no field is still
    there at the end. *)
Lemma summary_keeps (insights : list row) (kr : hkey * row) (f : string) :
  ~ In f fields -> summary insights kr ->
  exists first rest,
    group (fst kr) insights = first :: rest
    /\ dict_find (snd kr) f
       = dict_find (start first (dict_get first key_field VNone)) f.
Proof.
  intros Hnot (first & rest & Hgroup & Hsum). exists first, rest.
  split; [exact Hgroup |].
  rewrite (rows_keep f Hnot _ _ _ Hsum). now apply seed_keeps.
Qed.

Lemma accumulate_raises (r : row) (e : exn) :
  forall (fs : list string) (a : row),
    (forall f, In f fs -> dict_mem a f = true) ->
    Grouping.accumulate default fs a r = Raise e ->
    e = TypeError \/ e = OverflowError.
Proof.
  unfold Grouping.accumulate.
  induction fs as [| g fs IH]; intros a Hmem H; simpl in H; [discriminate |].
  destruct (is_number (dict_get r g default)).
  - pose proof (Hmem g (or_introl eq_refl)) as Hg.
    unfold dict_item in H. unfold dict_mem in Hg.
    destruct (dict_find a g) as [old |]; [| discriminate]. cbn [bind] in H.
    destruct (add old (dict_get r g default)) as [new | e'] eqn:Hadd.
    + cbn [bind] in H. apply (IH (dict_set a g new)); [| exact H].
      intros f Hin. rewrite dict_mem_set, (Hmem f (or_intror Hin)).
      apply orb_true_r.
    + injection H as <-. exact (add_raises _ _ _ Hadd).
  - cbn [bind] in H. apply (IH a); [| exact H].
    intros f Hin. apply Hmem. now right.
Qed.

Lemma seed_complete (r : row) (f : string) :
  In f fields -> dict_mem (seed r) f = true.
Proof.
  intros Hin. unfold Grouping.seed. rewrite seed_mem_fold.
  assert (existsb (String.eqb f) fields = true) as ->; [| apply orb_true_r].
  apply existsb_exists. exists f. split; [exact Hin | apply String.eqb_refl].
Qed.

Lemma groups_set_complete (g : groups) (k : hkey) (a : row) :
  Sums.complete fields g -> (forall f, In f fields -> dict_mem a f = true) ->
  Sums.complete fields (groups_set g k a).
Proof.
  intros Hg Ha. induction Hg as [| [k' a'] g H Hg IH]; cbn [groups_set].
  - now repeat constructor.
  - destruct (hkey_eqb k' k); constructor; assumption.
Qed.

Lemma step_raises (g : groups) (r : row) (e : exn) :
  Sums.complete fields g -> step g r = Raise e ->
  e = TypeError \/ e = OverflowError.
Proof.
  intros Hg H. destruct (key_of_row r) as [k | e'] eqn:Hk.
  2:{ unfold Grouping.step in H. fold key_of_row in H. rewrite Hk in H.
      injection H as <-. left. unfold Grouping.key_of_row in Hk.
      exact (key_of_raises _ _ Hk). }
  destruct (groups_find g k) as [a |] eqn:Hfind.
  - rewrite (step_old key_field start default fields g r k a Hk Hfind) in H.
    destruct (accumulate a r) as [a' | e'] eqn:Hacc; [discriminate |].
    injection H as <-. apply (accumulate_raises r e' fields a); [| exact Hacc].
    apply groups_find_In in Hfind. unfold Sums.complete in Hg.
    rewrite Forall_forall in Hg. exact (Hg _ Hfind).
  - rewrite (step_new key_field start default fields g r k Hk Hfind) in H.
    destruct (accumulate (seed r) r) as [a' | e'] eqn:Hacc; [discriminate |].
    injection H as <-.
    apply (accumulate_raises r e' fields (seed r)); [| exact Hacc].
    intros f Hin. now apply seed_complete.
Qed.

Lemma step_complete (g g' : groups) (r : row) :
  Sums.complete fields g -> step g r = Ok g' -> Sums.complete fields g'.
Proof.
  intros Hg H. destruct (key_of_row r) as [k | e'] eqn:Hk.
  2:{ unfold Grouping.step in H. fold key_of_row in H. rewrite Hk in H.
      discriminate. }
  destruct (groups_find g k) as [a |] eqn:Hfind.
  - rewrite (step_old key_field start default fields g r k a Hk Hfind) in H.
    apply bind_Ok in H as (a' & Hacc & H). injection H as <-.
    apply groups_set_complete; [exact Hg |]. intros f Hin.
    rewrite (accumulate_mem default r f fields a a' Hacc).
    apply groups_find_In in Hfind. unfold Sums.complete in Hg.
    rewrite Forall_forall in Hg. exact (Hg _ Hfind f Hin).
  - rewrite (step_new key_field start default fields g r k Hk Hfind) in H.
    apply bind_Ok in H as (a' & Hacc & H). injection H as <-.
    apply Forall_app. split; [exact Hg |]. constructor; [| constructor].
    intros f Hin. cbn [snd].
    rewrite (accumulate_mem default r f fields (seed r) a' Hacc).
    now apply seed_complete.
Qed.

Lemma run_raises (insights : list row) (e : exn) :
  run insights = Raise e -> e = TypeError \/ e = OverflowError.
Proof.
  unfold Grouping.run. assert (Hg : Sums.complete fields []) by constructor.
  revert Hg. generalize (@nil (hkey * row)) as g.
  induction insights as [| r rows IH]; intros g Hg H; [discriminate |].
  cbn [foldM] in H. destruct (step g r) as [g' | e'] eqn:Hstep.
  - cbn [bind] in H. exact (IH g' (step_complete g g' r Hg Hstep) H).
  - injection H as <-. exact (step_raises g r e' Hg Hstep).
Qed.

(** The rows of a group have its key. *)
Lemma group_keys (k : hkey) (insights : list row) (r : row) :
  In r (group k insights) -> key_of_row r = Ok k.
Proof.
  unfold Grouping.group. intros H. apply filter_In in H as [_ H].
  fold key_of_row in H. destruct (key_of_row r) as [k' | e]; [| discriminate].
  apply hkey_eqb_eq in H. now subst.
Qed.

Lemma run_one_group (k : hkey) (first : row) (rest : list row) :
  key_of_row first = Ok k ->
  Forall (fun r => key_of_row r = Ok k) rest ->
  run (first :: rest)
  = bind (foldM accumulate (first :: rest) (seed first))
      (fun a => Ok [(k, a)]).
Proof.
  intros Hfirst Hrest. unfold Grouping.run. cbn [foldM].
  rewrite (step_new key_field start default fields [] first k Hfirst eq_refl).
  destruct (accumulate (seed first) first) as [a | e]; [| reflexivity].
  cbn [bind app]. revert a.
  induction Hrest as [| r rest Hr _ IH]; intros a; [reflexivity |].
  cbn [foldM].
  rewrite (step_old key_field start default fields [(k, a)] r k a Hr)
    by (simpl; now rewrite hkey_eqb_refl).
  destruct (accumulate a r) as [a' | e]; [| reflexivity].
  cbn [bind groups_set]. rewrite hkey_eqb_refl. apply IH.
Qed.

(** What a group's row is made of is what its rows alone give. *)
Lemma summary_alone (insights : list row) (kr : hkey * row) :
  summary insights kr ->
  run (group (fst kr) insights) = Ok [kr].
Proof.
  intros (first & rest & Hgroup & Hsum). rewrite Hgroup.
  assert (Hkeys : Forall (fun r => key_of_row r = Ok (fst kr)) (first :: rest)).
  { apply Forall_forall. intros r Hin.
    apply group_keys with (insights := insights).
    now rewrite Hgroup. }
  inversion Hkeys as [| ? ? Hfirst Hrest]; subst.
  rewrite (run_one_group (fst kr) first rest Hfirst Hrest), Hsum.
  now destruct kr.
Qed.

(** Rows that agree under the key and the fields go through the loop in
    the same way. *)
Lemma step_agree (g : groups) (r r' : row) :
  agree (key_field :: fields) r r' ->
  (forall v, start r v = start r' v) ->
  step g r = step g r'.
Proof.
  intros Hagree Hstart.
  assert (Hget : forall f, In f (key_field :: fields) ->
                           forall d, dict_get r f d = dict_get r' f d).
  { intros f Hin d. unfold dict_get. now rewrite (Hagree f Hin). }
  unfold Grouping.step, Grouping.key_of_row, Grouping.seed.
  rewrite (Hget key_field (or_introl eq_refl)), Hstart.
  destruct (key_of (dict_get r' key_field VNone)) as [k | e];
    [| reflexivity].
  cbn [bind].
  assert (Hseed : forall d,
             fold_left
               (fun agg_row field =>
                  dict_set agg_row field
                    (if is_number (dict_get r field default) then VInt 0
                     else VStr ""))
               fields d
             = fold_left
                 (fun agg_row field =>
                    dict_set agg_row field
                      (if is_number (dict_get r' field default) then VInt 0
                       else VStr ""))
                 fields d).
  { assert (Hsub : forall f, In f fields -> In f (key_field :: fields))
      by (intros f Hin; now right).
    revert Hsub. generalize fields at 1 3 4 as fs.
    induction fs as [| f fs IH]; intros Hsub d; [reflexivity |].
    cbn [fold_left]. rewrite (Hget f (Hsub f (or_introl eq_refl))).
    apply IH. intros f' Hin. apply Hsub. now right. }
  rewrite Hseed.
  assert (Hsub : forall f, In f fields -> In f (key_field :: fields))
    by (intros f Hin; now right).
  revert Hsub.
  generalize (if negb (groups_mem g k)
              then groups_set g k
                     (fold_left
                        (fun agg_row field =>
                           dict_set agg_row field
                             (if is_number (dict_get r' field default)
                              then VInt 0 else VStr ""))
                        fields (start r' (dict_get r' key_field VNone)))
              else g) as g0.
  generalize fields at 1 3 4 as fs.
  induction fs as [| f fs IH]; intros g0 Hsub; [reflexivity |].
  cbn [foldM]. rewrite (Hget f (Hsub f (or_introl eq_refl))).
  destruct (if is_number (dict_get r' f default)
            then add_to g0 k f (dict_get r' f default) else Ok g0)
    as [g1 | e]; [| reflexivity].
  cbn [bind]. apply IH. intros f' Hin. apply Hsub. now right.
Qed.

Lemma run_agree (insights insights' : list row) :
  Forall2
    (fun r r' =>
       agree (key_field :: fields) r r' /\ forall v, start r v = start r' v)
    insights insights' ->
  run insights' = run insights.
Proof.
  intros Hall. unfold Grouping.run. generalize (@nil (hkey * row)) as g.
  induction Hall as [| r r' l l' [Hr Hstart] _ IH]; intros g; [reflexivity |].
  cbn [foldM]. rewrite (step_agree g r r' Hr Hstart).
  destruct (step g r') as [g1 | e]; [apply IH | reflexivity].
Qed.

End Shape.

(** X8.  A row of [aggregate_by_account] keeps the name of its account and
    the platform of the group's first row, as long as the field list names
    neither "Account" nor "Platform"; a row of [aggregate_by_platform]
    always keeps its platform. *)
Theorem aggregated_rows_keep_their_names (insights : list row)
        (fields : list string) :
  (forall out,
      aggregate_by_account insights fields = Ok out ->
      Forall2
        (fun k agg_row =>
           exists first rest,
             group "Account" k insights = first :: rest
             /\ (~ In "Account" fields ->
                 dict_find agg_row "Account"
                 = Some (dict_get first "Account" VNone))
             /\ (~ In "Platform" fields ->
                 dict_find agg_row "Platform"
                 = Some (dict_get first "Platform" VNone)))
        (first_seen (keys "Account" insights)) out)
  /\ (forall out,
         aggregate_by_platform insights fields = Ok out ->
         Forall2
           (fun k agg_row =>
              exists first rest,
                group "Platform" k insights = first :: rest
                /\ dict_find agg_row "Platform"
                   = Some (dict_get first "Platform" VNone))
           (first_seen (keys "Platform" insights)) out).
Proof.
  split; intros out H.
  - rewrite aggregate_by_account_run in H.
    apply bind_Ok in H as (g & Hrun & H). injection H as <-.
    destruct (run_groups _ _ _ _ _ _ Hrun) as [<- Hall].
    unfold groups_values. apply Forall2_fst_snd.
    eapply Forall_impl; [| exact Hall]. intros [k agg_row] Hsum.
    destruct Hsum as (first & rest & Hgroup & Hsum).
    exists first, rest. cbn [fst snd] in *. split; [exact Hgroup |]. split.
    + intros Hnot.
      rewrite (rows_keep VNone fields "Account" Hnot _ _ _ Hsum).
      now rewrite seed_keeps.
    + intros Hnot.
      rewrite (rows_keep VNone fields "Platform" Hnot _ _ _ Hsum).
      now rewrite seed_keeps.
  - rewrite aggregate_by_platform_run in H.
    apply bind_Ok in H as (g & Hrun & H). injection H as <-.
    destruct (run_groups _ _ _ _ _ _ Hrun) as [<- Hall].
    unfold groups_values. apply Forall2_fst_snd.
    eapply Forall_impl; [| exact Hall]. intros [k agg_row] Hsum.
    destruct Hsum as (first & rest & Hgroup & Hsum).
    exists first, rest. cbn [fst snd] in *. split; [exact Hgroup |].
    assert (Hnot : ~ In "Platform" (filter not_platform fields)).
    { intros Hin. apply filter_In in Hin as [_ Hin]. discriminate. }
    rewrite (rows_keep (VStr "") _ "Platform" Hnot _ _ _ Hsum).
    now rewrite seed_keeps.
Qed.

(** X9.  Whenever [aggregate_by_platform] returns, its rows are the
    groups of the "Platform" values in the order of their first encounter.
    Under a field of the list other than "Platform" that the first row of
    the group holds a number for, the row holds the sum, from the left and
    from 0, of the numbers the rows of the group hold under it, each
    counted as many times as the field occurs in the list; under any other
    such field it holds the empty string. *)
Theorem aggregate_by_platform_sums (insights : list row)
        (all_fields : list string) (out : list row) :
  aggregate_by_platform insights all_fields = Ok out ->
  Forall2
    (fun k agg_row =>
       exists first rest,
         group "Platform" k insights = first :: rest
         /\ forall field,
             In field all_fields -> field <> "Platform" ->
             match number_at first field with
             | Some _ =>
                 exists total,
                   py_sum (contributions field
                             (count_occ string_dec all_fields field)
                             (first :: rest)) = Ok total
                   /\ dict_find agg_row field = Some total
             | None => dict_find agg_row field = Some (VStr "")
             end)
    (first_seen (keys "Platform" insights)) out.
Proof.
  rewrite aggregate_by_platform_run. intros H.
  apply bind_Ok in H as (g & Hrun & Hout). injection Hout as <-.
  apply run_settled in Hrun; [| reflexivity].
  eapply Forall2_impl; [| exact Hrun].
  intros k agg_row (first & rest & Hgrp & Hfields & _).
  exists first, rest. split; [exact Hgrp |].
  intros field Hin Hne.
  specialize (Hfields field (In_not_platform _ _ Hin Hne)).
  rewrite (count_occ_not_platform all_fields field Hne) in Hfields.
  destruct (number_at first field); [exact Hfields | apply Hfields].
Qed.

(** X10.  The row of a group is what the rows of the group alone give: the
    rows of the other groups have no part in it. *)
Theorem groups_are_aggregated_apart (insights : list row)
        (fields : list string) :
  (forall out,
      aggregate_by_account insights fields = Ok out ->
      Forall2
        (fun k agg_row =>
           aggregate_by_account (group "Account" k insights) fields
           = Ok [agg_row])
        (first_seen (keys "Account" insights)) out)
  /\ (forall out,
         aggregate_by_platform insights fields = Ok out ->
         Forall2
           (fun k agg_row =>
              aggregate_by_platform (group "Platform" k insights) fields
              = Ok [agg_row])
           (first_seen (keys "Platform" insights)) out).
Proof.
  split; intros out H.
  - rewrite aggregate_by_account_run in H.
    apply bind_Ok in H as (g & Hrun & H). injection H as <-.
    destruct (run_groups _ _ _ _ _ _ Hrun) as [<- Hall].
    unfold groups_values. apply Forall2_fst_snd.
    eapply Forall_impl; [| exact Hall]. intros kr Hsum.
    rewrite aggregate_by_account_run.
    now rewrite (summary_alone _ _ _ _ _ _ Hsum).
  - rewrite aggregate_by_platform_run in H.
    apply bind_Ok in H as (g & Hrun & H). injection H as <-.
    destruct (run_groups _ _ _ _ _ _ Hrun) as [<- Hall].
    unfold groups_values. apply Forall2_fst_snd.
    eapply Forall_impl; [| exact Hall]. intros kr Hsum.
    rewrite aggregate_by_platform_run.
    now rewrite (summary_alone _ _ _ _ _ _ Hsum).
Qed.

(** X11.  The aggregators read a row under "Account" (or "Platform" alone
    for [aggregate_by_platform]), "Platform" and the fields, and nowhere
    else: rows that agree there give the same result, a list of rows or
    an exception. *)
Theorem aggregators_read_their_fields_only (insights insights' : list row)
        (fields : list string) :
  (Forall2 (agree ("Account" :: "Platform" :: fields)) insights insights' ->
   aggregate_by_account insights' fields
   = aggregate_by_account insights fields)
  /\ (Forall2 (agree ("Platform" :: fields)) insights insights' ->
      aggregate_by_platform insights' fields
      = aggregate_by_platform insights fields).
Proof.
  split; intros Hall.
  - rewrite !aggregate_by_account_run. f_equal. apply run_agree.
    eapply Forall2_impl; [| exact Hall]. intros r r' Hr. split.
    + intros f [<- | Hin]; apply Hr; simpl; auto.
    + intros v. unfold start_account, dict_get.
      now rewrite (Hr "Platform") by (simpl; auto).
  - rewrite !aggregate_by_platform_run. f_equal. apply run_agree.
    eapply Forall2_impl; [| exact Hall]. intros r r' Hr. split.
    + intros f [<- | Hin]; apply Hr; [now left |].
      apply filter_In in Hin as [Hin _]. now right.
    + reflexivity.
Qed.

(** X12.  The sum in place never meets a missing key: an aggregator that
    raises raises TypeError (an account or a platform that cannot be a key,
    or a number met by a field that began as text) or OverflowError (an
    [int] too large to be added to a float), and nothing else. *)
Theorem aggregators_raise_type_or_overflow (insights : list row)
        (fields : list string) (e : exn) :
  (aggregate_by_account insights fields = Raise e ->
   e = TypeError \/ e = OverflowError)
  /\ (aggregate_by_platform insights fields = Raise e ->
      e = TypeError \/ e = OverflowError).
Proof.
  split; intros H.
  - rewrite aggregate_by_account_run in H.
    destruct (run "Account" start_account VNone fields insights)
      as [g | e'] eqn:Hrun; [discriminate |].
    injection H as <-. exact (run_raises _ _ _ _ _ _ Hrun).
  - rewrite aggregate_by_platform_run in H.
    destruct (run "Platform" start_platform (VStr "")
                (filter not_platform fields) insights)
      as [g | e'] eqn:Hrun; [discriminate |].
    injection H as <-. exact (run_raises _ _ _ _ _ _ Hrun).
Qed.

Lemma spend_rows_aggregate :
  aggregate_by_account [spend10; spend20] ["spend"; "Campaign"]
  = Ok [[("Platform", VNone); ("Account", VStr "a"); ("spend", VInt 30);
         ("Campaign", VStr "")]].
Proof. reflexivity. Qed.

Lemma flags_by_platform :
  aggregate_by_platform [flag true; flag false; flag true]
    ["Platform"; "Account"; "ok"]
  = Ok [[("Platform", VStr "ga4"); ("Account", VStr ""); ("ok", VInt 2)]].
Proof. reflexivity. Qed.

(** The two rows of one account: the row keeps "a" and the platform. *)
Lemma aggregated_rows_keep_their_names_witness :
  Forall2
    (fun k agg_row =>
       exists first rest,
         group "Account" k [spend10; spend20] = first :: rest
         /\ (~ In "Account" ["spend"; "Campaign"] ->
             dict_find agg_row "Account"
             = Some (dict_get first "Account" VNone))
         /\ (~ In "Platform" ["spend"; "Campaign"] ->
             dict_find agg_row "Platform"
             = Some (dict_get first "Platform" VNone)))
    (first_seen (keys "Account" [spend10; spend20]))
    [[("Platform", VNone); ("Account", VStr "a"); ("spend", VInt 30);
      ("Campaign", VStr "")]].
Proof.
  exact (proj1 (aggregated_rows_keep_their_names [spend10; spend20]
                  ["spend"; "Campaign"]) _ spend_rows_aggregate).
Defined.

Lemma aggregate_by_platform_sums_witness :
  Forall2
    (fun k agg_row =>
       exists first rest,
         group "Platform" k [flag true; flag false; flag true]
         = first :: rest
         /\ forall field,
             In field ["Platform"; "Account"; "ok"] -> field <> "Platform" ->
             match number_at first field with
             | Some _ =>
                 exists total,
                   py_sum (contributions field
                             (count_occ string_dec
                                ["Platform"; "Account"; "ok"] field)
                             (first :: rest)) = Ok total
                   /\ dict_find agg_row field = Some total
             | None => dict_find agg_row field = Some (VStr "")
             end)
    (first_seen (keys "Platform" [flag true; flag false; flag true]))
    [[("Platform", VStr "ga4"); ("Account", VStr ""); ("ok", VInt 2)]].
Proof.
  exact (aggregate_by_platform_sums _ _ _ flags_by_platform).
Defined.

Lemma groups_are_aggregated_apart_witness :
  Forall2
    (fun k agg_row =>
       aggregate_by_account (group "Account" k [spend10; spend20])
         ["spend"; "Campaign"]
       = Ok [agg_row])
    (first_seen (keys "Account" [spend10; spend20]))
    [[("Platform", VNone); ("Account", VStr "a"); ("spend", VInt 30);
      ("Campaign", VStr "")]].
Proof.
  exact (proj1 (groups_are_aggregated_apart [spend10; spend20]
                  ["spend"; "Campaign"]) _ spend_rows_aggregate).
Defined.

(** A row with a key the aggregator does not read. *)
Lemma extra_key_agrees :
  Forall2 (agree ["Account"; "Platform"; "spend"])
    [spend10] [("Campaign", VStr "Z") :: spend10].
Proof.
  constructor; [| constructor]. intros key [<- | [<- | [<- | []]]]; reflexivity.
Qed.

Lemma aggregators_read_their_fields_only_witness :
  aggregate_by_account [("Campaign", VStr "Z") :: spend10] ["spend"]
  = aggregate_by_account [spend10] ["spend"].
Proof.
  exact (proj1 (aggregators_read_their_fields_only [spend10]
                  [("Campaign", VStr "Z") :: spend10] ["spend"])
           extra_key_agrees).
Defined.

(** A number met by a field that began as text. *)
Lemma aggregators_raise_type_or_overflow_witness :
  TypeError = TypeError \/ TypeError = OverflowError.
Proof.
  exact (proj1 (aggregators_raise_type_or_overflow [text_x; number_x] ["x"]
                  TypeError) eq_refl).
Defined.

End AggregateFacts.

Module SumFacts.

Import Py Aggregate Grouping Words Examples GroupFacts AggregateFacts Sums.

Local Open Scope string_scope.

Lemma contributions_app (f : string) (c : nat) (rows rows' : list row) :
  contributions f c (rows ++ rows')
  = (contributions f c rows ++ contributions f c rows')%list.
Proof. unfold contributions. apply flat_map_app. Qed.

Lemma contributions_count (r : row) (f : string) (c : nat) :
  contributions f c [r]
  = match number_at r f with Some x => repeat x c | None => [] end.
Proof.
  unfold contributions. cbn [flat_map]. rewrite app_nil_r. reflexivity.
Qed.

Section Shape.

Variable key_field : string.
Variable start : row -> value -> row.
Variable default : value.
Variable fields : list string.

Hypothesis default_text : is_number default = false.

Local Abbreviation accumulate := (accumulate default fields).
Local Abbreviation seed := (seed key_field start default fields).
Local Abbreviation step := (step key_field start default fields).
Local Abbreviation run := (run key_field start default fields).
Local Abbreviation group := (group key_field).
Local Abbreviation keys := (keys key_field).
Local Abbreviation key_of_row := (key_of_row key_field).
Local Abbreviation keyed := (keyed key_field).
Local Abbreviation addable := (addable key_field fields).

(** A row can be added to an aggregated row when each field can. *)
Lemma accumulate_returns (r : row) :
  forall (fs : list string) (a : row),
    (forall f,
        In f fs ->
        exists v total,
          dict_find a f = Some v
          /\ foldM add (contributions f (count_occ string_dec fs f) [r]) v
             = Ok total) ->
    exists a', Grouping.accumulate default fs a r = Ok a'.
Proof.
  unfold Grouping.accumulate.
  induction fs as [| g fs IH]; intros a Hall; [now exists a |].
  cbn [foldM].
  destruct (Hall g (or_introl eq_refl)) as (v & total & Hv & Hsum).
  rewrite contributions_count, (number_at_get default default_text) in Hsum.
  cbn [count_occ] in Hsum. destruct (string_dec g g) as [_ | []]; [| easy].
  destruct (is_number (dict_get r g default)) eqn:Hnum.
  - cbn [repeat foldM] in Hsum.
    apply bind_Ok in Hsum as (new & Hadd & Hrest).
    unfold dict_item. rewrite Hv. cbn [bind]. rewrite Hadd. cbn [bind].
    apply IH. intros f Hin.
    destruct (Hall f (or_intror Hin)) as (vf & totalf & Hvf & Hsumf).
    destruct (string_dec g f) as [<- | Hne].
    + exists new, total. rewrite dict_find_set_same. split; [reflexivity |].
      now rewrite contributions_count, (number_at_get default default_text),
        Hnum.
    + exists vf, totalf. rewrite dict_find_set_other by assumption.
      split; [exact Hvf |].
      rewrite contributions_count in Hsumf |- *.
      cbn [count_occ] in Hsumf.
      now destruct (string_dec g f) as [E | _]; [contradiction |].
  - cbn [bind]. apply IH. intros f Hin.
    destruct (Hall f (or_intror Hin)) as (vf & totalf & Hvf & Hsumf).
    destruct (string_dec g f) as [<- | Hne].
    + exists vf, vf. split; [exact Hvf |].
      now rewrite contributions_count, (number_at_get default default_text),
        Hnum.
    + exists vf, totalf. split; [exact Hvf |].
      rewrite contributions_count in Hsumf |- *.
      cbn [count_occ] in Hsumf.
      now destruct (string_dec g f) as [E | _]; [contradiction |].
Qed.

Lemma py_sum_prefix (vs vs' : list value) (total : value) :
  py_sum (vs ++ vs') = Ok total ->
  exists part, py_sum vs = Ok part /\ foldM add vs' part = Ok total.
Proof.
  unfold py_sum. rewrite foldM_app. intros H.
  apply bind_Ok in H as (part & H1 & H2). now exists part.
Qed.

Lemma group_app (k : hkey) (l l' : list row) :
  group k (l ++ l') = (group k l ++ group k l')%list.
Proof. unfold Grouping.group. apply filter_app. Qed.

(** What can be added can be added up to any row. *)
Lemma addable_prefix (pre : list row) (r : row) :
  addable (pre ++ [r]) -> addable pre.
Proof.
  intros Hall f Hin k first rest Hgroup.
  specialize (Hall f Hin k first (rest ++ group k [r])%list).
  rewrite group_app, Hgroup in Hall. specialize (Hall eq_refl).
  rewrite app_comm_cons, contributions_app in Hall.
  destruct (number_at first f).
  - destruct Hall as (total & Hsum).
    apply py_sum_prefix in Hsum as (part & Hpart & _). now exists part.
  - now apply app_eq_nil in Hall.
Qed.

Lemma group_In (k : hkey) (insights : list row) :
  group k insights <> [] -> In k (keys insights).
Proof.
  intros Hne. destruct (existsb (hkey_eqb k) (keys insights)) eqn:E.
  - now apply existsb_hkey.
  - exfalso. apply Hne. apply group_nil. intros Hin.
    apply existsb_hkey in Hin. congruence.
Qed.

Lemma group_last (k : hkey) (pre : list row) (r : row) :
  key_of_row r = Ok k -> group k (pre ++ [r]) = (group k pre ++ [r])%list.
Proof.
  intros Hk. rewrite (group_snoc key_field pre r k k Hk).
  now rewrite hkey_eqb_refl.
Qed.

Lemma run_returns (insights : list row) :
  keyed insights -> addable insights -> exists g, run insights = Ok g.
Proof.
  induction insights as [| r pre IH] using rev_ind; intros Hkeyed Hadd.
  - now exists [].
  - apply Forall_app in Hkeyed as [Hpre Hr].
    inversion Hr as [| ? ? [k Hk] _]; subst.
    destruct (IH Hpre (addable_prefix pre r Hadd)) as (g & Hrun).
    unfold Grouping.run in *. rewrite foldM_app, Hrun. cbn [bind foldM].
    destruct (run_groups key_field start default fields pre g Hrun)
      as [Hkeys Hall].
    assert (Hstep : exists g', step g r = Ok g');
      [| destruct Hstep as (g' & ->); now exists g'].
    destruct (groups_find g k) as [a |] eqn:Hfind.
    + rewrite (step_old key_field start default fields g r k a Hk Hfind).
      rewrite Forall_forall in Hall.
      destruct (Hall (k, a) (groups_find_In _ _ _ Hfind))
        as (first & rest & Hgroup & Hsum). cbn [fst snd] in *.
      destruct (accumulate_returns r fields a) as (a' & ->);
        [| now eexists].
      intros f Hin.
      pose proof (summary_field key_field start default fields default_text
                    pre k a first rest f Hgroup Hsum Hin) as Hfield.
      specialize (Hadd f Hin k first (rest ++ [r])%list).
      rewrite (group_last k pre r Hk), Hgroup in Hadd.
      specialize (Hadd eq_refl).
      rewrite app_comm_cons, contributions_app in Hadd.
      destruct (number_at first f).
      * destruct Hfield as (total & Hpart & Hfind').
        destruct Hadd as (total' & Hsum').
        apply py_sum_prefix in Hsum' as (part & Hpart' & Hlast).
        exists total, total'. split; [exact Hfind' |]. congruence.
      * destruct Hfield as [Hfind' _]. apply app_eq_nil in Hadd as [_ Hnone].
        exists (VStr ""), (VStr ""). split; [exact Hfind' |].
        now rewrite Hnone.
    + rewrite (step_new key_field start default fields g r k Hk Hfind).
      assert (Hnot : ~ In k (keys pre)).
      { rewrite <- first_seen_In, <- Hkeys. now apply groups_find_None. }
      destruct (accumulate_returns r fields (seed r)) as (a' & ->);
        [| now eexists].
      intros f Hin. specialize (Hadd f Hin k r []).
      rewrite (group_last k pre r Hk),
        (group_nil key_field pre k Hnot) in Hadd.
      specialize (Hadd eq_refl).
      rewrite (number_at_get default default_text) in Hadd.
      exists (if is_number (dict_get r f default) then VInt 0 else VStr "").
      rewrite (seed_find key_field start default fields r f Hin).
      destruct (is_number (dict_get r f default)).
      * destruct Hadd as (total & Hsum). exists total. now split.
      * exists (VStr ""). split; [reflexivity |]. now rewrite Hadd.
Qed.

Lemma run_keyed (insights : list row) (g : groups) :
  run insights = Ok g -> keyed insights.
Proof.
  unfold Grouping.run. generalize (@nil (hkey * row)) as g0.
  induction insights as [| r rows IH]; intros g0 H; [constructor |].
  cbn [foldM] in H. apply bind_Ok in H as (g1 & Hstep & H).
  constructor; [| exact (IH g1 H)].
  unfold Grouping.step in Hstep. fold key_of_row in Hstep.
  destruct (key_of_row r) as [k | e]; [now exists k | discriminate].
Qed.

Lemma Forall2_left {A B : Type} (R : A -> B -> Prop) (l : list A)
      (l' : list B) (x : A) :
  Forall2 R l l' -> In x l -> exists y, In y l' /\ R x y.
Proof.
  induction 1 as [| a b l l' Hab _ IH]; intros Hin; [destruct Hin |].
  destruct Hin as [<- | Hin].
  - exists b. split; [now left | exact Hab].
  - destruct (IH Hin) as (y & Hy & Hxy). exists y.
    split; [now right | exact Hxy].
Qed.

Lemma run_addable (insights : list row) (g : groups) :
  run insights = Ok g -> addable insights.
Proof.
  intros Hrun f Hin k first rest Hgroup.
  pose proof (run_settled key_field start default fields default_text
                insights g Hrun) as Hall.
  assert (Hk : In k (first_seen (keys insights))).
  { apply first_seen_In. apply group_In. now rewrite Hgroup. }
  destruct (Forall2_left _ _ _ k Hall Hk)
    as (agg_row & _ & first' & rest' & Hgroup' & Hfields & _).
  rewrite Hgroup in Hgroup'. injection Hgroup' as <- <-.
  specialize (Hfields f Hin). destruct (number_at first f).
  - destruct Hfields as (total & Hsum & _). now exists total.
  - apply Hfields.
Qed.

(** The loop returns exactly when the rows are keyed and addable. *)
Lemma run_returns_iff (insights : list row) :
  (exists g, run insights = Ok g) <-> keyed insights /\ addable insights.
Proof.
  split.
  - intros (g & Hrun). split; [exact (run_keyed _ _ Hrun) |].
    exact (run_addable _ _ Hrun).
  - intros [Hkeyed Hadd]. now apply run_returns.
Qed.

End Shape.

(** X13.  [aggregate_by_account] returns exactly when every row has an
    account that can be a key and the numbers of every group can be added:
    no sum overflows, and no row holds a number under a field that the
    first row of its group holds none for.  So for [aggregate_by_platform],
    with the platform as the key and the fields other than "Platform". *)
Theorem aggregators_return_iff (insights : list row) (fields : list string) :
  ((exists out, aggregate_by_account insights fields = Ok out)
   <-> keyed "Account" insights /\ addable "Account" fields insights)
  /\ ((exists out, aggregate_by_platform insights fields = Ok out)
      <-> keyed "Platform" insights
          /\ addable "Platform" (filter not_platform fields) insights).
Proof.
  split.
  - rewrite aggregate_by_account_run.
    rewrite <- (run_returns_iff "Account" start_account VNone fields eq_refl).
    split.
    + intros (out & H). apply bind_Ok in H as (g & Hrun & _). now exists g.
    + intros (g & ->). now eexists.
  - rewrite aggregate_by_platform_run.
    rewrite <- (run_returns_iff "Platform" start_platform (VStr "")
                  (filter not_platform fields) eq_refl).
    split.
    + intros (out & H). apply bind_Ok in H as (g & Hrun & _). now exists g.
    + intros (g & ->). now eexists.
Qed.

(** The two rows of one account are keyed and addable. *)
Lemma aggregators_return_iff_witness :
  keyed "Account" [spend10; spend20]
  /\ addable "Account" ["spend"; "Campaign"] [spend10; spend20].
Proof.
  exact (proj1 (proj1 (aggregators_return_iff [spend10; spend20]
                         ["spend"; "Campaign"]))
           (ex_intro _ _ spend_rows_aggregate)).
Defined.

End SumFacts.

Module ColumnFacts.

Import Py Aggregate Grouping Words Examples Http Fetch Insights Scenario.
Import Gather.
Import GroupFacts CostFacts AggregateFacts Sums SumFacts Columns.

Local Open Scope string_scope.

Section ColumnFacts.

Variable world : Type.
Variable requests_get : request -> world -> result response * world.
Variable float_of_str : string -> option float.
Variable set_iter : list value -> list value.

Local Abbreviation cost_per_click := (cost_per_click float_of_str).
Local Abbreviation derive := (derive float_of_str).

(** "Cost per Click" is the int 0 or a float. *)
Lemma cost_per_click_number (row : row) :
  cost_per_click row = VInt 0 \/ exists q, cost_per_click row = VFloat q.
Proof.
  unfold Insights.cost_per_click.
  destruct (truthy (operand row "clicks" "Clicks")); [| now left].
  destruct (float_of float_of_str (operand row "spend" "Spend")) as [x | e];
    [| now left].
  destruct (float_of float_of_str (operand row "clicks" "Clicks"))
    as [y | e]; [| now left].
  cbn [bind]. unfold truediv. destruct (y =? 0)%float; [now left |].
  right. now eexists.
Qed.

(** X14.  The columns of [get_all_insights] are "Platform" and "Account",
    then the field codes that [get_insights_for_platform] returned for
    the platforms [get_platforms] listed, one for each key and in the
    order of the set, then "Cost per Click" when a row of the platform
    "ga4" exists and no column is "Cost per Click" yet.  Its rows are the
    rows returned for the platforms, platform after platform, those of
    "ga4" with their "Cost per Click", a number whose column is then in
    the list. *)
Theorem get_all_insights_columns (fuel : nat) (n n' : net world)
        (rows : list row) (all_fields : list value) :
  set_order set_iter ->
  get_all_insights requests_get float_of_str set_iter fuel n
  = Some (Ok (rows, all_fields), n') ->
  exists platforms n1 objs values parts codes added,
    get_platforms requests_get n = Some (Ok platforms, n1)
    /\ Py.iterate platforms = Ok objs
    /\ mapM (fun platform_obj => Py.get platform_obj "value" VNone) objs
       = Ok values
    /\ traverse (get_insights_for_platform requests_get fuel) values n1
       = Some (Ok parts, n')
    /\ Permutation codes (distinct (List.concat (map snd parts)))
    /\ all_fields
       = (VStr "Platform" :: VStr "Account" :: codes ++ added)%list
    /\ added
       = (if existsb is_ga4 rows
             && negb (existsb (fun name => Py.eq name (VStr CPC))
                        (VStr "Platform" :: VStr "Account" :: codes))
          then [VStr CPC] else [])
    /\ rows
       = map (fun row =>
                if is_ga4 row then dict_set row CPC (cost_per_click row)
                else row)
           (List.concat (map fst parts))
    /\ Forall
         (fun row =>
            is_ga4 row = true ->
            In (VStr CPC) all_fields
            /\ exists v,
                dict_find row CPC = Some v /\ is_number v = true)
         rows.
Proof.
  intros Hset H.
  apply (PipelineFacts.get_all_insights_parts world requests_get
           float_of_str set_iter) in H
    as (platforms & n1 & objs & values & parts & keys
        & Hp & Hobjs & Hvalues & Htrav & _ & H).
  set (fetched := List.concat (map fst parts)) in *.
  set (codes := set_iter (List.concat (map snd parts))) in *.
  pose proof (derive_rows float_of_str fetched
                (VStr "Platform" :: VStr "Account" :: codes)) as Hrows.
  pose proof (derive_fields float_of_str fetched
                (VStr "Platform" :: VStr "Account" :: codes)) as Hfields.
  pose proof (existsb_is_ga4_derive float_of_str fetched
                (VStr "Platform" :: VStr "Account" :: codes)) as Hga4.
  rewrite <- H in Hrows, Hfields, Hga4. cbn [fst snd] in Hrows, Hfields, Hga4.
  exists platforms, n1, objs, values, parts, codes,
    (if existsb is_ga4 rows
        && negb (existsb (fun name => Py.eq name (VStr CPC))
                   (VStr "Platform" :: VStr "Account" :: codes))
     then [VStr CPC] else []).
  split; [exact Hp |]. split; [exact Hobjs |]. split; [exact Hvalues |].
  split; [exact Htrav |]. split; [apply Hset |].
  assert (Hall : all_fields
                 = (VStr "Platform" :: VStr "Account" :: codes
                      ++ (if existsb is_ga4 rows
                             && negb (existsb
                                        (fun name => Py.eq name (VStr CPC))
                                        (VStr "Platform" :: VStr "Account"
                                           :: codes))
                          then [VStr CPC] else []))%list).
  { rewrite Hfields, Hga4.
    destruct (existsb is_ga4 fetched && _); [reflexivity |].
    now rewrite app_nil_r. }
  split; [exact Hall |]. split; [reflexivity |]. split; [exact Hrows |].
  rewrite Hrows. apply Forall_forall. intros row Hin Hrow.
  apply in_map_iff in Hin as (row0 & <- & Hin0).
  destruct (is_ga4 row0) eqn:E; [| congruence]. split.
  - rewrite Hall, Hga4.
    assert (existsb is_ga4 fetched = true) as ->.
    { apply existsb_exists. now exists row0. }
    cbn [andb].
    destruct (existsb (fun name => Py.eq name (VStr CPC))
                (VStr "Platform" :: VStr "Account" :: codes)) eqn:Ex;
      cbn [negb].
    + rewrite app_nil_r. apply existsb_exists in Ex as (c & Hc & Heq).
      rewrite PipelineFacts.eq_to_string in Heq.
      destruct c; try discriminate. apply String.eqb_eq in Heq.
      now subst.
    + change (VStr "Platform" :: VStr "Account" :: codes ++ [VStr CPC])%list
        with ((VStr "Platform" :: VStr "Account" :: codes) ++ [VStr CPC])%list.
      apply in_or_app. right. now left.
  - exists (cost_per_click row0). rewrite dict_find_set_same.
    split; [reflexivity |].
    now destruct (cost_per_click_number row0) as [-> | (q & ->)].
Qed.

Lemma flat_map_nothing {A B : Type} (f : A -> list B) (l : list A) :
  (forall x, In x l -> f x = []) -> flat_map f l = [].
Proof.
  induction l as [| x l IH]; intros H; [reflexivity |].
  cbn [flat_map]. rewrite (H x (or_introl eq_refl)).
  apply IH. intros y Hy. apply H. now right.
Qed.

Lemma add_tame (a b : value) :
  tame a -> tame b -> exists total, add a b = Ok total /\ tame total.
Proof.
  intros [-> | (x & ->)] [-> | (y & ->)].
  - exists (VInt 0). split; [reflexivity | now left].
  - eexists. split; [reflexivity | right; now eexists].
  - eexists. split; [reflexivity | right; now eexists].
  - eexists. split; [reflexivity | right; now eexists].
Qed.

Lemma sum_tame (vs : list value) :
  Forall tame vs ->
  forall acc, tame acc ->
              exists total, foldM add vs acc = Ok total /\ tame total.
Proof.
  induction 1 as [| v vs Hv _ IH]; intros acc Hacc; [now exists acc |].
  cbn [foldM]. destruct (add_tame acc v Hacc Hv) as (part & -> & Hpart).
  cbn [bind]. now apply IH.
Qed.

Lemma is_ga4_key (row : row) (k : hkey) :
  key_of_row "Platform" row = Ok k ->
  is_ga4 row = hkey_eqb k (HStr "ga4").
Proof.
  unfold Grouping.key_of_row, is_ga4.
  destruct (dict_get row "Platform" VNone) as [| b | z | x | s | l | d];
    cbn [key_of]; try discriminate.
  - intros H. now injection H as <-.
  - cbn [exact_of]. intros H. injection H as <-. cbn [Py.eq exact_of].
    now destruct (Num.exact_of_Z (Num.Z_of_bool b)).
  - cbn [exact_of]. intros H. injection H as <-. cbn [Py.eq exact_of].
    now destruct (Num.exact_of_Z z).
  - cbn [exact_of]. intros H. injection H as <-. cbn [Py.eq exact_of].
    now destruct (Num.exact_of_float x).
  - intros H. now injection H as <-.
Qed.

(** X15.  The derived column never stops the summary: after the pass that
    derives "Cost per Click", the rows of every platform can be added
    under it, as long as no row of another platform than "ga4" came with a
    "Cost per Click" of its own. *)
Theorem cost_per_click_column_adds (insights_all : list row)
        (all_fields : list value) (c : nat) :
  Forall (fun row => is_ga4 row = false -> dict_find row CPC = None)
    insights_all ->
  addable_at "Platform" CPC c (fst (derive insights_all all_fields)).
Proof.
  intros Hclean k first rest Hgroup. rewrite derive_rows in Hgroup.
  set (rows := map _ insights_all) in Hgroup.
  assert (Hrows : forall r,
             In r (first :: rest) ->
             key_of_row "Platform" r = Ok k
             /\ match number_at r CPC with
                | Some v => is_ga4 r = true /\ tame v
                | None => is_ga4 r = false
                end).
  { intros r Hin. rewrite <- Hgroup in Hin.
    split; [exact (group_keys "Platform" k rows r Hin) |].
    unfold Grouping.group in Hin. apply filter_In in Hin as [Hin _].
    unfold rows in Hin. apply in_map_iff in Hin as (r0 & <- & Hin0).
    destruct (is_ga4 r0) eqn:E.
    - unfold number_at. rewrite dict_find_set_same, is_ga4_set.
      destruct (cost_per_click_number r0) as [-> | (q & ->)]; cbn [is_number].
      + split; [exact E | now left].
      + split; [exact E | right; now eexists].
    - rewrite Forall_forall in Hclean. unfold number_at.
      now rewrite (Hclean r0 Hin0 E). }
  assert (Hfirst := Hrows first (or_introl eq_refl)).
  destruct Hfirst as [Hk Hfirst].
  destruct (number_at first CPC) as [v |] eqn:Efirst.
  - destruct Hfirst as [Hga4 _].
    rewrite (is_ga4_key first k Hk) in Hga4.
    assert (Hall : Forall tame (contributions CPC c (first :: rest))).
    { unfold contributions. apply Forall_flat_map, Forall_forall.
      intros r Hin. destruct (Hrows r Hin) as [Hkr Hr].
      destruct (number_at r CPC) as [w |]; [| constructor].
      apply Forall_forall. intros x Hx. apply repeat_spec in Hx. subst x.
      apply Hr. }
    destruct (sum_tame _ Hall (VInt 0) (or_introl eq_refl))
      as (total & Hsum & _).
    now exists total.
  - rewrite (is_ga4_key first k Hk) in Hfirst.
    unfold contributions. apply flat_map_nothing. intros r Hin.
    destruct (Hrows r Hin) as [Hkr Hr].
    destruct (number_at r CPC) as [w |]; [| reflexivity].
    destruct Hr as [Hr _]. rewrite (is_ga4_key r k Hkr) in Hr. congruence.
Qed.

End ColumnFacts.

(** The columns of the scenario. *)
(** The scenario: the codes spend and clicks, and the column added for
    the row of "ga4". *)
Lemma get_all_insights_columns_witness :
  exists n' platforms n1 objs values parts codes added,
    get_platforms (stub (VStr "1") "Acme") (Net tt [])
    = Some (Ok platforms, n1)
    /\ Py.iterate platforms = Ok objs
    /\ mapM (fun platform_obj => Py.get platform_obj "value" VNone) objs
       = Ok values
    /\ traverse (get_insights_for_platform (stub (VStr "1") "Acme") 1)
         values n1
       = Some (Ok parts, n')
    /\ Permutation codes (distinct (List.concat (map snd parts)))
    /\ [VStr "Platform"; VStr "Account"; VStr "spend"; VStr "clicks";
        VStr "Cost per Click"]
       = (VStr "Platform" :: VStr "Account" :: codes ++ added)%list
    /\ added
       = (if existsb is_ga4
               [[("spend", VInt 100); ("clicks", VInt 50);
                 ("Account", VStr "Acme"); ("Platform", VStr "ga4");
                 ("Cost per Click", VFloat 2)]]
             && negb (existsb (fun name => Py.eq name (VStr CPC))
                        (VStr "Platform" :: VStr "Account" :: codes))
          then [VStr CPC] else [])
    /\ [[("spend", VInt 100); ("clicks", VInt 50); ("Account", VStr "Acme");
         ("Platform", VStr "ga4"); ("Cost per Click", VFloat 2)]]
       = map (fun row =>
                if is_ga4 row
                then dict_set row CPC (Insights.cost_per_click no_float row)
                else row)
           (List.concat (map fst parts))
    /\ Forall
         (fun row =>
            is_ga4 row = true ->
            In (VStr CPC)
              [VStr "Platform"; VStr "Account"; VStr "spend"; VStr "clicks";
               VStr "Cost per Click"]
            /\ exists v,
                dict_find row CPC = Some v /\ is_number v = true)
         [[("spend", VInt 100); ("clicks", VInt 50); ("Account", VStr "Acme");
           ("Platform", VStr "ga4"); ("Cost per Click", VFloat 2)]].
Proof.
  eexists.
  refine (get_all_insights_columns unit (stub (VStr "1") "Acme")
            no_float insertion_order 1 (Net tt []) _ _ _
            PipelineFacts.insertion_order_set _).
  vm_compute. reflexivity.
Defined.

Lemma no_column_of_its_own :
  Forall (fun row => is_ga4 row = false -> dict_find row CPC = None)
    [ga4_100_50; spend10].
Proof.
  constructor; [intros H; discriminate H |].
  constructor; [reflexivity | constructor].
Qed.

Lemma cost_per_click_column_adds_witness :
  addable_at "Platform" CPC 1
    (fst (derive no_float [ga4_100_50; spend10]
            [VStr "Platform"; VStr "Account"])).
Proof.
  exact (cost_per_click_column_adds no_float [ga4_100_50; spend10]
           [VStr "Platform"; VStr "Account"] 1 no_column_of_its_own).
Defined.

End ColumnFacts.

Module ReaderFacts.

Import Py Words Reader CsvFacts.

Local Open Scope string_scope.

Lemma snoc_append (cur : string) (c : ascii) (s : string) :
  snoc cur c ++ s = cur ++ String c s.
Proof. unfold snoc. now rewrite append_assoc. Qed.

(** A run of characters that need no quoting. *)
Lemma scan_plain (rest : string) (fields : list string)
      (recs : list (list string)) :
  forall (s cur : string),
    Csv.any_char Csv.special s = false ->
    scan (s ++ rest) Plain cur fields recs
    = scan rest Plain (cur ++ s) fields recs.
Proof.
  induction s as [| c s IH]; intros cur Hplain.
  - now rewrite append_nil_r.
  - cbn [Csv.any_char] in Hplain. apply orb_false_iff in Hplain as [Hc Hs].
    unfold Csv.special in Hc.
    apply orb_false_iff in Hc as [Hc HLF].
    apply orb_false_iff in Hc as [Hc HCR].
    apply orb_false_iff in Hc as [Hcomma Hquote].
    cbn [String.append scan]. rewrite Hcomma, HCR.
    rewrite (IH _ Hs). now rewrite snoc_append.
Qed.

(** The inside of a quoted field, up to the closing quote. *)
Lemma scan_quoted (rest : string) (fields : list string)
      (recs : list (list string)) :
  forall (s cur : string),
    scan (Csv.double_quotes s ++ String Csv.quotechar rest) Quoted cur fields
      recs
    = scan rest QuoteSeen (cur ++ s) fields recs.
Proof.
  induction s as [| c s IH]; intros cur.
  - cbn [Csv.double_quotes String.append scan].
    rewrite Ascii.eqb_refl. now rewrite append_nil_r.
  - cbn [Csv.double_quotes]. destruct (Ascii.eqb c Csv.quotechar) eqn:E.
    + cbn [String.append scan]. rewrite !E. cbv iota.
      rewrite IH. now rewrite snoc_append.
    + cbn [String.append scan]. rewrite E.
      rewrite IH. now rewrite snoc_append.
Qed.

Lemma field_empty (s : string) : Csv.field s = "" -> s = "".
Proof.
  unfold Csv.field. destruct (Csv.any_char Csv.special s); [discriminate |].
  auto.
Qed.

Lemma scan_field (d : ascii) (rest : string) (fields : list string)
      (recs : list (list string)) (st : state) (s : string) :
  d = Csv.comma \/ d = Csv.CR ->
  st = FieldStart \/ st = RecordStart ->
  (st = RecordStart -> s = "" -> d = Csv.comma) ->
  scan (Csv.field s ++ String d rest) st "" fields recs
  = finish d rest s fields recs.
Proof.
  intros Hd Hst Hguard. unfold Csv.field.
  destruct (Csv.any_char Csv.special s) eqn:Hs.
  - cbn [String.append]. rewrite append_assoc. cbn [String.append].
    assert (scan (String Csv.quotechar
                    (Csv.double_quotes s ++ String Csv.quotechar (String d rest)))
                 st "" fields recs
            = scan (Csv.double_quotes s ++ String Csv.quotechar (String d rest))
                Quoted "" fields recs) as ->
        by (destruct Hst as [-> | ->]; reflexivity).
    rewrite scan_quoted. cbn [String.append]. unfold finish.
    destruct Hd as [-> | ->]; reflexivity.
  - destruct s as [| c s].
    + cbn [String.append]. unfold finish.
      destruct Hd as [-> | ->].
      * destruct Hst as [-> | ->]; reflexivity.
      * destruct Hst as [-> | ->]; [reflexivity |].
        now specialize (Hguard eq_refl eq_refl).
    + cbn [Csv.any_char] in Hs. apply orb_false_iff in Hs as [Hc Hs].
      unfold Csv.special in Hc.
      apply orb_false_iff in Hc as [Hc HLF].
      apply orb_false_iff in Hc as [Hc HCR].
      apply orb_false_iff in Hc as [Hcomma Hquote].
      cbn [String.append].
      assert (scan (String c (s ++ String d rest)) st "" fields recs
              = scan (s ++ String d rest) Plain (String c "") fields recs)
        as ->
          by (destruct Hst as [-> | ->]; cbn [scan];
              now rewrite Hquote, Hcomma, HCR).
      rewrite (scan_plain _ _ _ _ _ Hs). cbn [String.append]. unfold finish.
      destruct Hd as [-> | ->]; reflexivity.
Qed.

(** The record of a list of cell texts, as [writerow] writes it. *)
Lemma scan_fields (rest : string) (recs : list (list string)) :
  forall (texts : list string) (st : state) (fields : list string),
    texts <> [] ->
    st = FieldStart \/ st = RecordStart ->
    (st = RecordStart -> texts <> [""]) ->
    scan (join "," (map Csv.field texts) ++ String Csv.CR rest) st "" fields
      recs
    = scan rest LineEnd "" (fields ++ texts) recs.
Proof.
  induction texts as [| t texts IH]; intros st fields Hne Hst Hguard;
    [congruence |].
  destruct texts as [| t' texts].
  - cbn [map join]. rewrite scan_field; [reflexivity | now right | exact Hst |].
    intros -> ->. now specialize (Hguard eq_refl).
  - cbn [map join]. cbn [map] in IH. rewrite !append_assoc.
    cbn [String.append].
    rewrite scan_field; [| now left | exact Hst | reflexivity].
    unfold finish. cbn [Ascii.eqb Bool.eqb Csv.comma].
    rewrite IH; [| discriminate | now left | discriminate].
    now rewrite <- app_assoc.
Qed.

Lemma scan_record (texts : list string) (rest : string)
      (recs : list (list string)) :
  scan (Csv.record texts ++ rest) RecordStart "" [] recs
  = scan rest RecordStart "" [] (recs ++ [texts]).
Proof.
  unfold Csv.record. destruct texts as [| t texts0]; [reflexivity |].
  set (texts := t :: texts0).
  destruct (String.eqb_spec (join "," (map Csv.field texts)) "") as [E | E].
  - apply join_empty in E as [E | E]; [discriminate |].
    unfold texts in *. destruct texts0 as [| t' texts']; [| discriminate].
    injection E as E. apply field_empty in E. subst t. reflexivity.
  - rewrite append_assoc. unfold Csv.lineterminator. cbn [String.append].
    rewrite scan_fields.
    + reflexivity.
    + discriminate.
    + now right.
    + intros _ Ht. rewrite Ht in E. now apply E.
Qed.

Lemma scan_lines (records : list (list string)) :
  forall recs : list (list string),
    scan (lines records) RecordStart "" [] recs = (recs ++ records)%list.
Proof.
  induction records as [| r records IH]; intros recs.
  - cbn. now rewrite app_nil_r.
  - cbn [lines fold_right]. rewrite scan_record.
    change (fold_right (fun cells rest => String.append (Csv.record cells) rest)
              "" records) with (lines records).
    rewrite IH. now rewrite <- app_assoc.
Qed.

Lemma read_lines (records : list (list string)) :
  read (lines records) = records.
Proof. unfold read. apply scan_lines. Qed.

Section Writer.

Variable repr_of_str : string -> string.

Local Abbreviation generate_csv := (Csv.generate_csv repr_of_str).
Local Abbreviation text := (Csv.text repr_of_str).

(** X16.  The text of [generate_csv] reads back as it was written: when
    every cell it looks up has a text, it returns a text that reads back
    as the record of the field names and, for every row in order, the
    record of the texts of its cells under the field names; commas,
    quotes and line ends inside a cell come back as they were.  When a
    cell has no text, [generate_csv] raises what the cell raised. *)
Theorem generate_csv_reads_back (rows : list row) (fieldnames : list string) :
  (forall records,
      mapM (fun row =>
              mapM (fun key => text (dict_get row key (VStr ""))) fieldnames)
        rows
      = Ok records ->
      exists body,
        generate_csv rows (map VStr fieldnames) = Ok body
        /\ read body = fieldnames :: records)
  /\ (forall e,
         mapM (fun row =>
                 mapM (fun key => text (dict_get row key (VStr "")))
                   fieldnames)
           rows
         = Raise e ->
         generate_csv rows (map VStr fieldnames) = Raise e).
Proof.
  split.
  - intros records H. rewrite generate_csv_names, H. cbn [bind].
    eexists. split; [reflexivity | apply read_lines].
  - intros e H. now rewrite generate_csv_names, H.
Qed.

End Writer.

End ReaderFacts.

Module ReportFacts.

Import Py Http Fetch Insights Labels Reader Gather.

Local Open Scope string_scope.

Lemma strs_map (l : list value) (ns : list string) :
  Py.strs l = Ok ns -> l = map VStr ns.
Proof.
  revert ns. induction l as [| v l IH]; intros ns H.
  - now injection H as <-.
  - destruct v; try discriminate. cbn [Py.strs] in H.
    destruct (Py.strs l) as [ss |]; [| discriminate]. cbn [bind] in H.
    injection H as <-. cbn [map]. now rewrite (IH ss eq_refl).
Qed.

Lemma mapM_concat {A B : Type} (f : A -> result B) (groups : list (list A)) :
  forall out : list B,
    mapM f (List.concat groups) = Ok out ->
    exists parts,
      Forall2 (fun group part => mapM f group = Ok part) groups parts
      /\ out = List.concat parts.
Proof.
  induction groups as [| g groups IH]; intros out H.
  - injection H as <-. exists []. split; [constructor | reflexivity].
  - cbn [List.concat] in H.
    destruct (PipelineFacts.mapM_app_inv f g (List.concat groups) out H)
      as (ys & ys' & Hys & Hys').
    rewrite (PipelineFacts.mapM_app f _ _ _ _ Hys Hys') in H.
    injection H as <-.
    destruct (IH ys' Hys') as (parts & Hparts & ->).
    exists (ys :: parts). split; [now constructor | reflexivity].
Qed.

Section ReportFacts.

Variable world : Type.
Variable requests_get : request -> world -> result response * world.
Variable repr_of_str : string -> string.

Local Abbreviation text := (Csv.text repr_of_str).

(** Once [get_insights] has returned, the field codes are strings. *)
Lemma get_insights_strings (fuel : nat) (platform account : value)
      (fields : list value) (account_token : value) (n n' : net world)
      (insights : list value) :
  get_insights requests_get fuel platform account fields account_token n
  = Some (Ok insights, n') ->
  exists names, fields = map VStr names.
Proof.
  unfold get_insights. intros H.
  apply PipelineFacts.bindM_Ok in H as (fields_str & n1 & Hstr & _).
  apply PipelineFacts.lift_Ok in Hstr as [Hstr _].
  apply GroupFacts.bind_Ok in Hstr as (names & Hnames & _).
  exists names. now apply strs_map.
Qed.

(** So they are whenever a platform has an account. *)
Lemma traverse_strings (fuel : nat) (platform : value) (fields : list value)
      (account : value) (accounts : list value) (n n' : net world)
      (batches : list (value * list value)) :
  traverse (insights_of_account requests_get fuel platform fields)
    (account :: accounts) n
  = Some (Ok batches, n') ->
  exists names, fields = map VStr names.
Proof.
  cbn [traverse]. intros H.
  apply PipelineFacts.bindM_Ok in H as ([name insights] & n1 & Hone & _).
  unfold insights_of_account in Hone.
  apply PipelineFacts.bindM_Ok in Hone as (account_id & m1 & _ & Hone).
  apply PipelineFacts.bindM_Ok in Hone as (account_token & m2 & _ & Hone).
  apply PipelineFacts.bindM_Ok in Hone as (account_name & m3 & _ & Hone).
  apply PipelineFacts.bindM_Ok in Hone as (found & m4 & Hget & _).
  exact (get_insights_strings _ _ _ _ _ _ _ _ Hget).
Qed.

(** The records of the rows of an account. *)
Lemma batch_records (platform : string) (names : list string)
      (account_name : value) :
  forall (insights : list value) (group : list row)
         (recs : list (list string)),
    mapM (relabel (VStr platform) account_name) insights = Ok group ->
    mapM (fun row =>
            mapM (fun key => text (dict_get row key (VStr "")))
              ("Platform" :: "Account" :: names))
      group
    = Ok recs ->
    Forall2
      (fun insight record =>
         exists row account_text cells,
           relabel (VStr platform) account_name insight = Ok row
           /\ text account_name = Ok account_text
           /\ mapM (fun key => text (dict_get row key (VStr ""))) names
              = Ok cells
           /\ record = platform :: account_text :: cells)
      insights recs.
Proof.
  induction insights as [| insight insights IH]; intros group recs Hg Hr.
  - injection Hg as <-. injection Hr as <-. constructor.
  - apply CsvFacts.mapM_cons in Hg as (row & group' & -> & Hrow & Hg).
    apply CsvFacts.mapM_cons in Hr as (record & recs' & -> & Hrec & Hr).
    constructor; [| exact (IH _ _ Hg Hr)].
    destruct (LabelFacts.relabel_labels _ _ _ _ Hrow) as [Hp Ha].
    apply CsvFacts.mapM_cons in Hrec as (t1 & rest1 & -> & Ht1 & Hrec).
    apply CsvFacts.mapM_cons in Hrec as (t2 & cells & -> & Ht2 & Hcells).
    unfold dict_get in Ht1, Ht2. rewrite Hp in Ht1. rewrite Ha in Ht2.
    cbn [Csv.text] in Ht1. injection Ht1 as <-.
    now exists row, t2, cells.
Qed.

(** X17.  A report of a platform, read back.  Its first record is
    "Platform", "Account" and the field codes that [get_fields] returned,
    which are strings.  Then come, account after account and insight
    after insight, the records of the insights fetched for the accounts,
    and there is at least one: the platform, the text of the name of the
    account, and the texts of the cells of the relabelled insight under
    the field codes. *)
Theorem platform_report_reads_back (fuel : nat) (platform : string)
        (n n' : net world) (body : string) :
  platform_report requests_get repr_of_str fuel platform n
  = Some (Ok (Csv body), n') ->
  exists accounts n1 names n2 batches records,
    get_accounts requests_get fuel (VStr platform) n = Some (Ok accounts, n1)
    /\ get_fields requests_get fuel (VStr platform) n1
       = Some (Ok (map VStr names), n2)
    /\ traverse
         (insights_of_account requests_get fuel (VStr platform)
            (map VStr names))
         accounts n2
       = Some (Ok batches, n')
    /\ read body = ("Platform" :: "Account" :: names) :: List.concat records
    /\ List.concat records <> []
    /\ Forall2
         (fun batch recs =>
            Forall2
              (fun insight record =>
                 exists row account_text cells,
                   relabel (VStr platform) (fst batch) insight = Ok row
                   /\ text (fst batch) = Ok account_text
                   /\ mapM (fun key => text (dict_get row key (VStr "")))
                        names
                      = Ok cells
                   /\ record = platform :: account_text :: cells)
              (snd batch) recs)
         batches records.
Proof.
  intros H. unfold platform_report in H.
  apply PipelineFacts.bindM_Ok in H as ([insights fields] & n1 & Hrun & H).
  destruct insights as [| row rows]; [discriminate |].
  apply PipelineFacts.bindM_Ok in H as (csv_data & n2 & Hcsv & H).
  apply PipelineFacts.lift_Ok in Hcsv as [Hcsv ->].
  injection H as -> <-.
  apply LabelFacts.get_insights_for_platform_parts in Hrun
    as (accounts & m1 & m2 & batches & groups
        & Haccounts & Hfields & Htrav & Hgroups & Hrows).
  assert (Hnames : exists names, fields = map VStr names).
  { destruct accounts as [| account accounts].
    - cbn [traverse] in Htrav. injection Htrav as <- _.
      injection Hgroups as <-. discriminate.
    - exact (traverse_strings _ _ _ _ _ _ _ _ Htrav). }
  destruct Hnames as [names ->].
  change ([VStr "Platform"; VStr "Account"] ++ map VStr names)%list
    with (map VStr ("Platform" :: "Account" :: names)) in Hcsv.
  rewrite CsvFacts.generate_csv_names in Hcsv.
  apply GroupFacts.bind_Ok in Hcsv as (flat & Hflat & Hbody).
  injection Hbody as <-. rewrite Hrows in Hflat.
  apply mapM_concat in Hflat as (records & Hrecords & ->).
  exists accounts, m1, names, m2, batches, records.
  split; [exact Haccounts |]. split; [exact Hfields |].
  split; [exact Htrav |].
  split;
    [exact (ReaderFacts.read_lines
              (("Platform" :: "Account" :: names) :: List.concat records)) |].
  split.
  { intros Hnil.
    assert (Hlen : List.length (List.concat records)
                   = List.length (List.concat groups)).
    { clear - Hrecords. induction Hrecords as [| g p gs ps Hgp _ IH];
        [reflexivity |].
      cbn [List.concat]. rewrite !length_app, IH.
      apply CsvFacts.mapM_Forall2 in Hgp.
      now rewrite <- (Forall2_length Hgp). }
    rewrite Hnil, <- Hrows in Hlen. discriminate. }
  clear - Hgroups Hrecords. revert groups records Hgroups Hrecords.
  induction batches as [| batch batches IH]; intros groups records Hg Hr.
  - injection Hg as <-. inversion Hr. constructor.
  - apply CsvFacts.mapM_cons in Hg as (group & groups' & -> & Hgroup & Hg).
    inversion Hr as [| ? recs ? records' Hrecs Hr']; subst.
    constructor; [| exact (IH _ _ Hg Hr')].
    exact (batch_records platform names (fst batch) _ _ _ Hgroup Hrecs).
Qed.

End ReportFacts.

(** The report of the scenario: one record for the one insight. *)
Lemma platform_report_reads_back_witness :
  exists n' accounts n1 names n2 batches records,
    get_accounts (Scenario.stub (VStr "1") "Acme") 1 (VStr "ga4") (Net tt [])
    = Some (Ok accounts, n1)
    /\ get_fields (Scenario.stub (VStr "1") "Acme") 1 (VStr "ga4") n1
       = Some (Ok (map VStr names), n2)
    /\ traverse
         (insights_of_account (Scenario.stub (VStr "1") "Acme") 1
            (VStr "ga4") (map VStr names))
         accounts n2
       = Some (Ok batches, n')
    /\ read
         (String.append
            (Scenario.line ["Platform"; "Account"; "spend"; "clicks"])
            (Scenario.line ["ga4"; "Acme"; "100"; "50"]))
       = ("Platform" :: "Account" :: names) :: List.concat records
    /\ List.concat records <> []
    /\ Forall2
         (fun batch recs =>
            Forall2
              (fun insight record =>
                 exists row account_text cells,
                   relabel (VStr "ga4") (fst batch) insight = Ok row
                   /\ Csv.text Scenario.ascii_repr (fst batch)
                      = Ok account_text
                   /\ mapM (fun key =>
                              Csv.text Scenario.ascii_repr
                                (dict_get row key (VStr "")))
                        names
                      = Ok cells
                   /\ record = "ga4" :: account_text :: cells)
              (snd batch) recs)
         batches records.
Proof.
  eexists.
  refine (platform_report_reads_back unit (Scenario.stub (VStr "1") "Acme")
            Scenario.ascii_repr 1 "ga4" (Net tt []) _ _ _).
  vm_compute. reflexivity.
Defined.

End ReportFacts.

